(** * AI code review helper: the batch heuristic auditor and the remote-judge path

    A shallow embedding of [scripts/aicode-review.js] (the batch heuristic
    auditor) and of the editor extension ([out/extension.js], compiled from
    the TypeScript source): [loadChecklist], [runLLMReview] and the review
    command, with the properties of the checklist evaluation pipeline stated
    over it.

    Layout:
    - [JS]: JavaScript strings (sequences of UTF-16 code units), JSON
      values, and the few built-ins the two programs call;
    - [Fs]: a directory tree, with the entries on which the file system
      refuses to answer;
    - [Reference]: a JSON reader and writer used to run the programs on
      concrete texts (the general theorems hold for any [Engine]);
    - [Audit]: the batch auditor, with its result list and failure flag
      threaded explicitly, its effects logged and the exception that ends a
      run carried in the state;
    - [Extension], [Command]: the checklist loader, the remote-judge call
      with the outbound requests recorded in a trace, and the command with
      what it shows in the window;
    - [Props], [Runs], [More]: what the properties are stated with, and
      concrete repositories, judges and hosts;
    - [StringFacts], [ExtensionFacts], [AuditFacts], [AuditMore],
      [ReviewMore], [CommandFacts]: the proofs. *)

From Stdlib Require Import ZArith NArith Ascii String.
From stdpp Require Import base decidable option list gmap pretty.

#[local] Set Warnings "-register-all".
#[local] Open Scope N_scope.

(* ===================================================================== *)
(** * JavaScript data *)
(* ===================================================================== *)

Module JS.

(** A JavaScript string is a finite sequence of UTF-16 code units. *)
Abbreviation jsstring := (list N).

(** Literals: [js "abc"] is the string of the ASCII text; [jq] reads a
    text in which every apostrophe stands for a double quote (none of the
    texts used here contains an apostrophe of its own). *)
Definition js (s : string) : jsstring :=
  map N_of_ascii (list_ascii_of_string s).

Definition jq (s : string) : jsstring :=
  map (fun c => if c =? 39 then 34 else c) (js s).

(** ** Character classes *)

(** [WhiteSpace] and [LineTerminator] of ECMAScript: what [String.prototype.trim]
    removes and what [\s] matches. *)
Definition is_space (c : N) : bool :=
  ((9 <=? c) && (c <=? 13)) || (c =? 32) || (c =? 160) || (c =? 5760)
  || ((8192 <=? c) && (c <=? 8202)) || (c =? 8232) || (c =? 8233)
  || (c =? 8239) || (c =? 8287) || (c =? 12288) || (c =? 65279).

(** [Canonicalize] of a regular expression with the [i] flag and without the
    [u] flag: the upper-case mapping of the code unit, except that a code
    unit from 128 up never maps below 128.  Against an ASCII pattern this is
    ASCII case folding. *)
Definition canonicalize (c : N) : N :=
  if (97 <=? c) && (c <=? 122) then c - 32 else c.

(** [String.prototype.toLowerCase], exact wherever the result is ASCII: the
    capital letters, the Kelvin sign (to [k]) and the dotted capital I (to
    [i] followed by a combining dot) are the only code units whose lower
    case contains an ASCII letter. *)
Definition lower1 (c : N) : jsstring :=
  if (65 <=? c) && (c <=? 90) then [c + 32]
  else if c =? 8490 then [107]
  else if c =? 304 then [105; 775]
  else [c].

Definition toLowerCase (s : jsstring) : jsstring := flat_map lower1 s.

(** ** String operations *)

Fixpoint trimStart (s : jsstring) : jsstring :=
  match s with
  | c :: r => if is_space c then trimStart r else s
  | [] => []
  end.

Definition trimEnd (s : jsstring) : jsstring := rev (trimStart (rev s)).

Definition trim (s : jsstring) : jsstring := trimEnd (trimStart s).

Fixpoint startsWith (s p : jsstring) {struct p} : bool :=
  match p, s with
  | [], _ => true
  | a :: p', b :: s' => (a =? b) && startsWith s' p'
  | _ :: _, [] => false
  end.

(** [s.includes(p)]: [p] occurs in [s] as a run of consecutive code units. *)
Fixpoint includes (s p : jsstring) : bool :=
  startsWith s p ||
  match s with
  | _ :: r => includes r p
  | [] => false
  end.

(** [xs.join(sep)] on an array of strings. *)
Fixpoint join (sep : jsstring) (xs : list jsstring) : jsstring :=
  match xs with
  | [] => []
  | [x] => x
  | x :: r => x ++ sep ++ join sep r
  end.

Definition str_eqb (a b : jsstring) : bool := bool_decide (a = b).

(** ** JSON values *)

(** A JSON number literal denotes [mantissa * 10 ^ exp10]; JavaScript rounds
    that to a double.  The programs modelled here only test numbers for
    truthiness, which [is_zero] decides exactly: a decimal rounds to zero
    when it is zero or no larger than half the least subnormal, 2^-1075. *)
Record number := Number { mantissa : Z; exp10 : Z }.

Definition is_zero (n : number) : bool :=
  (mantissa n =? 0)%Z
  || ((exp10 n <? 0)%Z
      && (Z.abs (mantissa n) * 2 ^ 1075 <=? 10 ^ (- exp10 n))%Z).

(** What [JSON.parse] returns, together with [undefined], which property
    reads produce.  An object lists its members in order; where two have one
    key, the later is the one a read finds (see [own]). *)
Inductive value :=
| VUndefined
| VNull
| VBool (b : bool)
| VNumber (n : number)
| VString (s : jsstring)
| VArray (elems : list value)
| VObject (members : list (jsstring * value)).

(** [ToBoolean]. *)
Definition truthy (v : value) : bool :=
  match v with
  | VUndefined | VNull => false
  | VBool b => b
  | VNumber n => negb (is_zero n)
  | VString s => negb (str_eqb s [])
  | VArray _ | VObject _ => true
  end.

(** A member of an object: of two members with one key the later wins. *)
Fixpoint own (k : jsstring) (ms : list (jsstring * value)) : value :=
  match ms with
  | [] => VUndefined
  | (k', v) :: r =>
      match own k r with
      | VUndefined => if str_eqb k k' then v else VUndefined
      | w => w
      end
  end.

(** [v.k] for a value that is neither [null] nor [undefined], and for the
    keys these programs read ([scripts], [test], [lint], [build],
    [devDependencies], [jest], [eslint], [prettier], [choices], [message],
    [content], [categories], [items], [id], ...): none of them names a
    built-in property of strings, numbers, booleans or arrays, so only an
    object can answer with something else than [undefined]. *)
Definition prop (v : value) (k : jsstring) : value :=
  match v with
  | VObject ms => own k ms
  | _ => VUndefined
  end.

(** [a && b] and [a || b] on values, [b] evaluated on demand. *)
Definition and_then (a : value) (b : value -> value) : value :=
  if truthy a then b a else a.

Definition or_else (a : value) (b : value) : value :=
  if truthy a then a else b.

(** ** Built-ins taken as given

    [JSON.parse] ([None] when it throws a [SyntaxError]),
    [JSON.stringify(v, null, space)] (space 0 for [JSON.stringify(v)]) and
    [Number::toString], the text of a number.  Everything below is stated
    for an arbitrary [Engine]. *)
Class Engine := {
  JSON_parse : jsstring -> option value;
  JSON_stringify : nat -> value -> jsstring;
  Number_toString : number -> jsstring
}.

(** What a program throws: [new Error(message)], the errors of the
    language itself, a failed file-system call, a rejected promise of the
    network layer. *)
Inductive thrown :=
| Error (message : jsstring)
| SyntaxError
| TypeError
| SystemError
| Rejected.

(** An object has a member with key [k]. *)
Definition has_key (k : jsstring) (ms : list (jsstring * value)) : bool :=
  existsb (fun m => str_eqb (fst m) k) ms.

Section Conversion.
Context `{Engine}.

(** [ToString] of a value made by [JSON.parse] (or [undefined]), as a
    template literal and string concatenation apply it.  An array joins the
    texts of its elements with commas, [null] and [undefined] elements
    giving nothing.  An object answers through the [toString] it inherits,
    unless a member of its own named [toString] hides that one: a JSON value
    cannot be called, the inherited [valueOf] gives back the object, and the
    conversion throws a [TypeError]. *)
Fixpoint to_text (v : value) : thrown + jsstring :=
  match v with
  | VUndefined => inr (js "undefined")
  | VNull => inr (js "null")
  | VBool b => inr (if b then js "true" else js "false")
  | VNumber n => inr (Number_toString n)
  | VString s => inr s
  | VArray es =>
      match
        (fix texts (es : list value) : thrown + list jsstring :=
           match es with
           | [] => inr []
           | e :: r =>
               match match e with
                     | VUndefined | VNull => inr []
                     | _ => to_text e
                     end with
               | inl err => inl err
               | inr t =>
                   match texts r with
                   | inl err => inl err
                   | inr ts => inr (t :: ts)
                   end
               end
           end) es
      with
      | inl err => inl err
      | inr ts => inr (join [44] ts)
      end
  | VObject ms =>
      if has_key (js "toString") ms then inl TypeError
      else inr (js "[object Object]")
  end.

(** ['text' + v]. *)
Definition concat_value (text : jsstring) (v : value) : thrown + jsstring :=
  match to_text v with
  | inl err => inl err
  | inr t => inr (text ++ t)
  end.

End Conversion.

End JS.

Import JS.

(* ===================================================================== *)
(** * The file system *)
(* ===================================================================== *)

Module Fs.

(** What a name in a directory leads to, links followed:
    - a file, with its text, or [None] when it cannot be read
      ([readFileSync] throws);
    - a directory with its entries in [readdirSync] order;
    - [Sealed], a directory that cannot be listed ([readdirSync] throws);
    - [Broken], a name that leads nowhere: a dangling or looping link, or
      an entry of a directory that may not be searched.  [statSync] throws
      on it and [existsSync] answers [false].
    A file whose read never returns (a pipe without a writer) is not
    covered. *)
Inductive node :=
| File (content : option jsstring)
| Dir (entries : list (jsstring * node))
| Sealed
| Broken.

(** The entry of a directory with a given name. *)
Fixpoint entry (nm : jsstring) (es : list (jsstring * node)) : option node :=
  match es with
  | [] => None
  | (f, n) :: r => if str_eqb f nm then Some n else entry nm r
  end.

(** [fs.existsSync] on what a name leads to. *)
Definition existsSync (n : option node) : bool :=
  match n with
  | None | Some Broken => false
  | Some _ => true
  end.

(** [path.join(dir, f)] for a normalized directory path and a plain entry
    name: one separator between them. *)
Definition path_join (dir f : jsstring) : jsstring :=
  if bool_decide (last dir = Some 47) then dir ++ f else dir ++ [47] ++ f.

End Fs.

Import Fs.

(* ===================================================================== *)
(** * A reference engine *)
(* ===================================================================== *)

Module Reference.

(** ** Reading JSON text (ECMA-404, as [JSON.parse] accepts it) *)

Definition is_ws (c : N) : bool :=
  (c =? 32) || (c =? 9) || (c =? 10) || (c =? 13).

Definition is_digit (c : N) : bool := (48 <=? c) && (c <=? 57).

Fixpoint skip_ws (s : jsstring) : jsstring :=
  match s with
  | c :: r => if is_ws c then skip_ws r else s
  | [] => []
  end.

Definition hex_digit (c : N) : option N :=
  if is_digit c then Some (c - 48)
  else if (97 <=? c) && (c <=? 102) then Some (c - 87)
  else if (65 <=? c) && (c <=? 70) then Some (c - 55)
  else None.

Definition hex4 (a b c d : N) : option N :=
  match hex_digit a, hex_digit b, hex_digit c, hex_digit d with
  | Some x, Some y, Some z, Some w => Some (((x * 16 + y) * 16 + z) * 16 + w)
  | _, _, _, _ => None
  end.

Definition escape (c : N) : option N :=
  if (c =? 34) || (c =? 92) || (c =? 47) then Some c
  else if c =? 98 then Some 8
  else if c =? 102 then Some 12
  else if c =? 110 then Some 10
  else if c =? 114 then Some 13
  else if c =? 116 then Some 9
  else None.

(** The characters of a string literal after its opening quote, up to and
    including the closing quote. *)
Fixpoint read_chars (s : jsstring) (acc : jsstring) : option (jsstring * jsstring) :=
  match s with
  | [] => None
  | c :: r =>
      if c =? 34 then Some (rev acc, r)
      else if c =? 92 then
        match r with
        | e :: r1 =>
            if e =? 117 then
              match r1 with
              | a :: b :: x :: y :: r2 =>
                  match hex4 a b x y with
                  | Some u => read_chars r2 (u :: acc)
                  | None => None
                  end
              | _ => None
              end
            else
              match escape e with
              | Some u => read_chars r1 (u :: acc)
              | None => None
              end
        | [] => None
        end
      else if c <? 32 then None
      else read_chars r (c :: acc)
  end.

Fixpoint read_digits (s : jsstring) (acc : list N) : list N * jsstring :=
  match s with
  | c :: r => if is_digit c then read_digits r (c :: acc) else (rev acc, s)
  | [] => (rev acc, [])
  end.

Definition digits_value (ds : list N) : Z :=
  fold_left (fun a d => (a * 10 + Z.of_N (d - 48))%Z) ds 0%Z.

(** A number literal: an optional minus sign, an integer part without a
    superfluous leading zero, an optional fraction and an optional exponent. *)
Definition read_number (s : jsstring) : option (number * jsstring) :=
  let '(neg, s1) :=
    match s with
    | c :: r => if c =? 45 then (true, r) else (false, s)
    | [] => (false, s)
    end in
  let '(ip, s2) := read_digits s1 [] in
  match ip with
  | [] => None
  | d :: more =>
      if (d =? 48) && negb (bool_decide (more = [])) then None
      else
        let frac :=
          match s2 with
          | c :: r =>
              if c =? 46 then
                match read_digits r [] with
                | ([], _) => None
                | (fp, s3) => Some (fp, s3)
                end
              else Some ([], s2)
          | [] => Some ([], s2)
          end in
        match frac with
        | None => None
        | Some (fp, s3) =>
            let expo :=
              match s3 with
              | c :: r =>
                  if (c =? 101) || (c =? 69) then
                    let '(eneg, r1) :=
                      match r with
                      | g :: r' =>
                          if g =? 45 then (true, r')
                          else if g =? 43 then (false, r')
                          else (false, r)
                      | [] => (false, r)
                      end in
                    match read_digits r1 [] with
                    | ([], _) => None
                    | (ep, s4) =>
                        Some ((if eneg then - digits_value ep
                               else digits_value ep)%Z, s4)
                    end
                  else Some (0%Z, s3)
              | [] => Some (0%Z, s3)
              end in
            match expo with
            | None => None
            | Some (e, s4) =>
                let m := digits_value (ip ++ fp) in
                Some (Number (if neg then - m else m)%Z
                             (e - Z.of_nat (length fp))%Z, s4)
            end
        end
  end.

(** The members of an object as JavaScript keeps them after [JSON.parse]:
    one member for each key, with the value of its last occurrence; the keys
    that are array indices (canonical decimals below 2^32 - 1) first, in
    ascending order, then the other keys in the order of their first
    occurrence. *)
Definition index_key (k : jsstring) : option N :=
  match k with
  | [] => None
  | d :: r =>
      if forallb is_digit k && (negb (d =? 48) || bool_decide (r = []))
         && (length k <=? 10)%nat
      then
        let n := fold_left (fun a c => a * 10 + (c - 48)) k 0 in
        if n <? 4294967295 then Some n else None
      else None
  end.

Fixpoint distinct_keys (ms : list (jsstring * value)) (seen : list jsstring)
  : list jsstring :=
  match ms with
  | [] => []
  | (k, _) :: r =>
      if existsb (str_eqb k) seen then distinct_keys r seen
      else k :: distinct_keys r (k :: seen)
  end.

Fixpoint insert_index (n : N) (k : jsstring) (l : list (N * jsstring))
  : list (N * jsstring) :=
  match l with
  | [] => [(n, k)]
  | (m, j) :: r => if n <? m then (n, k) :: l else (m, j) :: insert_index n k r
  end.

Definition ordered (ms : list (jsstring * value)) : list (jsstring * value) :=
  let ks := distinct_keys ms [] in
  let indices :=
    fold_right (fun k acc =>
                  match index_key k with
                  | Some n => insert_index n k acc
                  | None => acc
                  end) [] ks in
  let names :=
    List.filter (fun k => match index_key k with Some _ => false | None => true end)
                ks in
  List.map (fun k => (k, own k ms)) (List.map snd indices ++ names).

Fixpoint read_value (fuel : nat) (s : jsstring) : option (value * jsstring) :=
  match fuel with
  | O => None
  | S fuel =>
      match skip_ws s with
      | [] => None
      | c :: r =>
          if c =? 123 then
            match skip_ws r with
            | d :: r' =>
                if d =? 125 then Some (VObject [], r')
                else read_members fuel (d :: r') []
            | [] => None
            end
          else if c =? 91 then
            match skip_ws r with
            | d :: r' =>
                if d =? 93 then Some (VArray [], r')
                else read_elements fuel (d :: r') []
            | [] => None
            end
          else if c =? 34 then
            match read_chars r [] with
            | Some (str, r') => Some (VString str, r')
            | None => None
            end
          else if startsWith (c :: r) (js "true") then
            Some (VBool true, drop 4 (c :: r))
          else if startsWith (c :: r) (js "false") then
            Some (VBool false, drop 5 (c :: r))
          else if startsWith (c :: r) (js "null") then
            Some (VNull, drop 4 (c :: r))
          else
            match read_number (c :: r) with
            | Some (n, r') => Some (VNumber n, r')
            | None => None
            end
      end
  end
with read_elements (fuel : nat) (s : jsstring) (acc : list value)
  : option (value * jsstring) :=
  match fuel with
  | O => None
  | S fuel =>
      match read_value fuel s with
      | Some (v, r) =>
          match skip_ws r with
          | c :: r' =>
              if c =? 44 then read_elements fuel r' (v :: acc)
              else if c =? 93 then Some (VArray (rev (v :: acc)), r')
              else None
          | [] => None
          end
      | None => None
      end
  end
with read_members (fuel : nat) (s : jsstring) (acc : list (jsstring * value))
  : option (value * jsstring) :=
  match fuel with
  | O => None
  | S fuel =>
      match skip_ws s with
      | q :: r0 =>
          if q =? 34 then
            match read_chars r0 [] with
            | Some (k, r1) =>
                match skip_ws r1 with
                | c :: r2 =>
                    if c =? 58 then
                      match read_value fuel r2 with
                      | Some (v, r3) =>
                          match skip_ws r3 with
                          | e :: r4 =>
                              if e =? 44 then read_members fuel r4 ((k, v) :: acc)
                              else if e =? 125 then
                                Some (VObject (ordered (rev ((k, v) :: acc))), r4)
                              else None
                          | [] => None
                          end
                      | None => None
                      end
                    else None
                | [] => None
                end
            | None => None
            end
          else None
      | [] => None
      end
  end.

(** The whole text must be one value, white space around it allowed.  Every
    call of the reader consumes a code unit or returns, so twice the length
    of the text is fuel enough. *)
Definition parse (s : jsstring) : option value :=
  match read_value (2 * length s + 2) s with
  | Some (v, r) => match skip_ws r with [] => Some v | _ :: _ => None end
  | None => None
  end.

(** ** Writing values *)

Definition hex_char (d : N) : N := if d <? 10 then 48 + d else 87 + d.

Definition unicode_escape (c : N) : jsstring :=
  [92; 117; hex_char (c / 4096); hex_char (c / 256 mod 16);
   hex_char (c / 16 mod 16); hex_char (c mod 16)].

Definition is_lead (c : N) : bool := (55296 <=? c) && (c <=? 56319).
Definition is_trail (c : N) : bool := (56320 <=? c) && (c <=? 57343).

(** [QuoteJSONString] without the surrounding quotes; a surrogate that is
    not half of a pair is written as an escape. *)
Fixpoint quote_chars (s : jsstring) : jsstring :=
  match s with
  | [] => []
  | c :: r =>
      if c =? 34 then [92; 34] ++ quote_chars r
      else if c =? 92 then [92; 92] ++ quote_chars r
      else if c =? 8 then [92; 98] ++ quote_chars r
      else if c =? 12 then [92; 102] ++ quote_chars r
      else if c =? 10 then [92; 110] ++ quote_chars r
      else if c =? 13 then [92; 114] ++ quote_chars r
      else if c =? 9 then [92; 116] ++ quote_chars r
      else if c <? 32 then unicode_escape c ++ quote_chars r
      else if is_lead c then
        match r with
        | d :: r' =>
            if is_trail d then c :: d :: quote_chars r'
            else unicode_escape c ++ quote_chars r
        | [] => unicode_escape c
        end
      else if is_trail c then unicode_escape c ++ quote_chars r
      else c :: quote_chars r
  end.

Definition quote (s : jsstring) : jsstring := [34] ++ quote_chars s ++ [34].

(** [Number::toString]: the digits without trailing zeros, written in
    positional notation when the decimal point falls within 21 places after
    the first digit or 6 places before it, and with an exponent otherwise.
    Exact for a decimal of at most 15 significant digits within the range of
    the normal doubles; a longer one is written digit for digit, where
    JavaScript rounds to the nearest double first. *)
Fixpoint drop_zeros (fuel : nat) (m e : Z) : Z * Z :=
  match fuel with
  | O => (m, e)
  | S fuel =>
      if (m mod 10 =? 0)%Z then drop_zeros fuel (m / 10)%Z (e + 1)%Z
      else (m, e)
  end.

Definition show_number (n : number) : jsstring :=
  if (mantissa n =? 0)%Z then js "0"
  else
    let '(m, e) :=
      drop_zeros (length (js (pretty (Z.abs (mantissa n))))) (mantissa n) (exp10 n) in
    let sign := if (m <? 0)%Z then js "-" else [] in
    let ds := js (pretty (Z.abs m)) in
    let k := Z.of_nat (length ds) in
    let point := (k + e)%Z in
    if (k <=? point)%Z && (point <=? 21)%Z then
      sign ++ ds ++ replicate (Z.to_nat (point - k)) 48
    else if (0 <? point)%Z && (point <=? 21)%Z then
      sign ++ take (Z.to_nat point) ds ++ js "." ++ drop (Z.to_nat point) ds
    else if (-6 <? point)%Z && (point <=? 0)%Z then
      sign ++ js "0." ++ replicate (Z.to_nat (- point)) 48 ++ ds
    else
      sign
      ++ match ds with
         | [] => []
         | [d] => [d]
         | d :: r => d :: js "." ++ r
         end
      ++ js "e" ++ (if (0 <? point)%Z then js "+" else js "-")
      ++ js (pretty (Z.abs (point - 1))).

(** [JSON.stringify(v, null, space)] at indentation [ind]; members are
    written in stored order, which is JavaScript's order for the objects
    [parse] makes (see [ordered]) and for an object literal whose keys are
    distinct names. *)
Fixpoint write (gap ind : jsstring) (v : value) : jsstring :=
  let ind' := ind ++ gap in
  let open := if bool_decide (gap = []) then [] else [10] ++ ind' in
  let sep := if bool_decide (gap = []) then [44] else [44; 10] ++ ind' in
  let close := if bool_decide (gap = []) then [] else [10] ++ ind in
  let colon := if bool_decide (gap = []) then js ":" else js ": " in
  match v with
  | VUndefined | VNull => js "null"
  | VBool b => if b then js "true" else js "false"
  | VNumber n => show_number n
  | VString s => quote s
  | VArray es =>
      match List.map (write gap ind') es with
      | [] => js "[]"
      | ls => js "[" ++ open ++ join sep ls ++ close ++ js "]"
      end
  | VObject ms =>
      match flat_map (fun m =>
              match m with
              | (_, VUndefined) => []
              | (k, x) => [quote k ++ colon ++ write gap ind' x]
              end) ms with
      | [] => js "{}"
      | ls => js "{" ++ open ++ join sep ls ++ close ++ js "}"
      end
  end.

Definition stringify (space : nat) (v : value) : jsstring :=
  match v with
  | VUndefined => js "undefined"
  | _ => write (replicate (Nat.min space 10) 32) [] v
  end.

Definition engine : Engine :=
  {| JSON_parse := parse; JSON_stringify := stringify;
     Number_toString := show_number |}.

End Reference.

(* ===================================================================== *)
(** * The batch heuristic auditor ([scripts/aicode-review.js]) *)
(* ===================================================================== *)

Module Audit.

(** ** Data model *)

(** The checklist as the extension declares it ([ChecklistFile],
    [ChecklistCategory], [ChecklistItem]).  The script reads [categories],
    [items] and [id] only; the other members are kept as parsed, whatever
    they are ([undefined] when absent). *)
Record ChecklistItem := { id : jsstring; description : value }.

Record Category := {
  name : value;
  priority : value;
  items : list ChecklistItem
}.

Record ChecklistDocument := {
  version : value;
  categories : list Category
}.

Inductive Status := Pass | Fail | NeedsAttention.

Record Verdict := {
  verdict_id : jsstring;
  status : Status;
  reason : jsstring
}.

#[global] Instance Status_eq_dec : EqDecision Status.
Proof. solve_decision. Defined.

(** The parsed checklist read at that shape: a [categories] array of
    categories, each with an [items] array of items, each with a string
    [id].  The script itself does not check the shape.  Without a
    [categories] array its first test, [checklist.categories.some(...)],
    throws a [TypeError].  On a value that has the array but is of another
    shape further down, it throws a [TypeError] at the first missing field
    it comes to, or goes on with ids that are not strings; that is not
    followed here (see [Unshaped]). *)
Definition as_string (v : value) : option jsstring :=
  match v with VString s => Some s | _ => None end.

Definition as_array (v : value) : option (list value) :=
  match v with VArray l => Some l | _ => None end.

Definition asChecklistItem (v : value) : option ChecklistItem :=
  i ← as_string (prop v (js "id"));
  Some {| id := i; description := prop v (js "description") |}.

Definition asCategory (v : value) : option Category :=
  l ← as_array (prop v (js "items"));
  its ← mapM asChecklistItem l;
  Some {| name := prop v (js "name"); priority := prop v (js "priority");
          items := its |}.

Definition asChecklistFile (v : value) : option ChecklistDocument :=
  l ← as_array (prop v (js "categories"));
  cs ← mapM asCategory l;
  Some {| version := prop v (js "version"); categories := cs |}.

(** ** The world the script runs in *)

(** What a child process did: whether it ended with exit status zero within
    the time limit (anything else makes [execSync] throw), and what it wrote
    to the inherited standard streams. *)
Record ExecResult := { exit_zero : bool; output : jsstring }.

(** The working directory: its path, its entries by name, whether it can be
    listed (a directory may be searched by name and still refuse
    [readdirSync]), and the commands of the machine. *)
Record World := {
  cwd : jsstring;
  root : list (jsstring * node);
  listable : bool;
  execSync : jsstring -> ExecResult
}.

(** The working directory as [walk] meets it. *)
Definition root_node (w : World) : node :=
  if listable w then Dir (root w) else Sealed.

(** [exists(path.join(root, nm))] *)
Definition exists_ (w : World) (nm : jsstring) : bool :=
  existsSync (entry nm (root w)).

Section Script.
Context `{Engine}.

(** [readJSON(path.join(root, nm))] for an existing entry. *)
Definition readJSON (n : node) : thrown + value :=
  match n with
  | File (Some text) =>
      match JSON_parse text with
      | Some v => inr v
      | None => inl SyntaxError
      end
  | File None | Dir _ | Sealed | Broken => inl SystemError
  end.

(** [exists(packageJson) ? readJSON(packageJson) : null] *)
Definition packageObj (w : World) : thrown + value :=
  match entry (js "package.json") (root w) with
  | None | Some Broken => inr VNull
  | Some n => readJSON n
  end.

End Script.

(** ** The result list and the failure flag *)

(** [results] and [hasFail] are the script's two variables; [executed]
    (commands handed to [execSync]) and [opened] (paths handed to
    [readFileSync] by the secret scan) record its effects; [uncaught] is the
    exception on its way out of the script, if one was thrown and not
    caught. *)
Record State := {
  results : list Verdict;
  hasFail : bool;
  executed : list jsstring;
  opened : list jsstring;
  uncaught : option thrown
}.

Definition initial : State :=
  {| results := []; hasFail := false; executed := []; opened := [];
     uncaught := None |}.

Definition push (v : Verdict) (st : State) : State :=
  {| results := results st ++ [v]; hasFail := hasFail st;
     executed := executed st; opened := opened st; uncaught := uncaught st |}.

Definition fail (i reason : jsstring) (st : State) : State :=
  let st := push {| verdict_id := i; status := Fail; reason := reason |} st in
  {| results := results st; hasFail := true;
     executed := executed st; opened := opened st; uncaught := uncaught st |}.

Definition raise (e : thrown) (st : State) : State :=
  {| results := results st; hasFail := hasFail st;
     executed := executed st; opened := opened st; uncaught := Some e |}.

Definition pass (i reason : jsstring) (st : State) : State :=
  push {| verdict_id := i; status := Pass; reason := reason |} st.

Definition na (i reason : jsstring) (st : State) : State :=
  push {| verdict_id := i; status := NeedsAttention; reason := reason |} st.

Definition run_command (w : World) (cmd : jsstring) (st : State) : bool * State :=
  (exit_zero (execSync w cmd),
   {| results := results st; hasFail := hasFail st;
      executed := executed st ++ [cmd]; opened := opened st;
      uncaught := uncaught st |}).

(** [checklist.categories.some(c => c.items.some(i => i.id === x))] *)
Definition has_item (checklist : ChecklistDocument) (x : jsstring) : bool :=
  existsb (fun c => existsb (fun i => str_eqb (id i) x) (items c))
          (categories checklist).

(** ** [walk] and the path functions *)

(** [walk(dir, cb)]: the entries of a directory in order, directories
    entered as they are met, [cb] called on every other entry.  The callback
    receives, with the path, the text [readFileSync] would return for it.
    Neither [readdirSync] nor [statSync] is inside a [try]: at the first
    directory that cannot be listed, or entry that leads nowhere, the walk
    ends with the exception, which is returned beside what the callback had
    gathered until then. *)
Fixpoint walk_node {S : Type} (cb : jsstring -> option jsstring -> S -> S)
    (fp : jsstring) (n : node) (s : S) : S * option thrown :=
  match n with
  | File c => (cb fp c s, None)
  | Sealed | Broken => (s, Some SystemError)
  | Dir es =>
      (fix each (es : list (jsstring * node)) (s : S) : S * option thrown :=
         match es with
         | [] => (s, None)
         | (f, m) :: r =>
             match walk_node cb (path_join fp f) m s with
             | (s', None) => each r s'
             | (s', Some e) => (s', Some e)
             end
         end) es s
  end.

Definition walk {S : Type} (dir : jsstring) (n : node)
    (cb : jsstring -> option jsstring -> S -> S) (s : S) : S * option thrown :=
  walk_node cb dir n s.

(** [path.extname] (POSIX), by the loop of Node's implementation: the path
    is read from its last code unit backwards, up to the separator that
    starts the last component. *)
Record ExtScan := {
  startDot : Z;
  startPart : Z;
  endAt : Z;
  matchedSlash : bool;
  preDotState : Z;
  stopped : bool
}.

Definition ext_step (st : ExtScan) (i : Z) (code : N) : ExtScan :=
  if stopped st then st
  else if code =? 47 then
    if matchedSlash st then st
    else {| startDot := startDot st; startPart := (i + 1)%Z; endAt := endAt st;
            matchedSlash := matchedSlash st; preDotState := preDotState st;
            stopped := true |}
  else
    let e := if (endAt st =? -1)%Z then (i + 1)%Z else endAt st in
    let ms := if (endAt st =? -1)%Z then false else matchedSlash st in
    if code =? 46 then
      if (startDot st =? -1)%Z then
        {| startDot := i; startPart := startPart st; endAt := e;
           matchedSlash := ms; preDotState := preDotState st; stopped := false |}
      else
        {| startDot := startDot st; startPart := startPart st; endAt := e;
           matchedSlash := ms; preDotState := 1; stopped := false |}
    else if (startDot st =? -1)%Z then
      {| startDot := startDot st; startPart := startPart st; endAt := e;
         matchedSlash := ms; preDotState := preDotState st; stopped := false |}
    else
      {| startDot := startDot st; startPart := startPart st; endAt := e;
         matchedSlash := ms; preDotState := (-1)%Z; stopped := false |}.

(** [rs] is the path reversed, [i] the index of its head in the path. *)
Fixpoint ext_loop (rs : jsstring) (i : Z) (st : ExtScan) : ExtScan :=
  match rs with
  | [] => st
  | c :: r => ext_loop r (i - 1)%Z (ext_step st i c)
  end.

Definition slice (s : jsstring) (a b : Z) : jsstring :=
  take (Z.to_nat (b - a)) (drop (Z.to_nat a) s).

Definition extname (p : jsstring) : jsstring :=
  let st := ext_loop (rev p) (Z.of_nat (length p) - 1)%Z
              {| startDot := (-1)%Z; startPart := 0%Z; endAt := (-1)%Z;
                 matchedSlash := true; preDotState := 0%Z; stopped := false |} in
  if (startDot st =? -1)%Z || (endAt st =? -1)%Z || (preDotState st =? 0)%Z
     || ((preDotState st =? 1)%Z && (startDot st =? endAt st - 1)%Z
         && (startDot st =? startPart st + 1)%Z)
  then []
  else slice p (startDot st) (endAt st).

(** ** The secret pattern

    [/(api[_-]?key|secret|password|passwd|aws_secret|aws_access|SECRET_KEY|PRIVATE_KEY|TOKEN)/i]
    as a list of alternatives, each a sequence of atoms. *)
Inductive atom :=
| Lit (c : N)
| OptOneOf (cs : list N).

Definition lit (s : string) : list atom := List.map Lit (js s).

Definition secret_pattern : list (list atom) :=
  [ lit "api" ++ [OptOneOf [95; 45]] ++ lit "key";
    lit "secret"; lit "password"; lit "passwd"; lit "aws_secret";
    lit "aws_access"; lit "SECRET_KEY"; lit "PRIVATE_KEY"; lit "TOKEN" ].

Definition same_letter (x c : N) : bool := canonicalize x =? canonicalize c.

(** The atoms match a prefix of [s]. *)
Fixpoint match_here (re : list atom) (s : jsstring) : bool :=
  match re with
  | [] => true
  | Lit c :: re' =>
      match s with
      | x :: s' => same_letter x c && match_here re' s'
      | [] => false
      end
  | OptOneOf cs :: re' =>
      match s with
      | x :: s' => existsb (same_letter x) cs && match_here re' s'
      | [] => false
      end
      || match_here re' s
  end.

(** [re.test(s)]: some alternative matches at some position. *)
Fixpoint regex_test (re : list (list atom)) (s : jsstring) : bool :=
  existsb (fun alt => match_here alt s) re ||
  match s with
  | _ :: r => regex_test re r
  | [] => false
  end.

(** ** The four heuristics and the fallback *)

Definition test_exists (w : World) (pkg : value) (st : State) : State :=
  let hasTests :=
    exists_ w (js "test") || exists_ w (js "tests") || exists_ w (js "__tests__")
    || truthy (and_then pkg (fun p =>
         or_else
           (and_then (prop p (js "scripts")) (fun sc => prop sc (js "test")))
           (and_then (prop p (js "devDependencies")) (fun d => prop d (js "jest"))))) in
  if hasTests then pass (js "test_exists") (js "Tests folder or test script detected.") st
  else fail (js "test_exists") (js "No tests detected (no test folder or test script).") st.

Definition test_checks (w : World) (pkg : value) (st : State) : State :=
  if truthy (and_then pkg (fun p =>
       and_then (prop p (js "scripts")) (fun sc =>
         or_else (prop sc (js "lint"))
           (or_else (prop sc (js "test")) (prop sc (js "build"))))))
  then
    let scripts := prop pkg (js "scripts") in
    if truthy (prop scripts (js "lint")) then
      let '(ok, st) := run_command w (js "npm run lint --silent") st in
      if ok then pass (js "test_checks") (js "Lint passed.") st
      else fail (js "test_checks") (js "Lint/tests failed (see job logs).") st
    else if truthy (prop scripts (js "test")) then
      let '(ok, st) := run_command w (js "npm test --silent") st in
      if ok then pass (js "test_checks") (js "Tests passed.") st
      else fail (js "test_checks") (js "Lint/tests failed (see job logs).") st
    else na (js "test_checks") (js "No lint/test script found to run.") st
  else na (js "test_checks") (js "No package.json scripts to run (skipped).") st.

Definition skipped_extensions : list jsstring :=
  [js ".md"; js ".png"; js ".jpg"; js ".jpeg"; js ".gif"; js ".ico"; js ".bin"].

(** The callback of the scan, on the list [suspicious] and the log of the
    files it opens. *)
Definition scan_file (fp : jsstring) (content : option jsstring)
    (acc : list jsstring * list jsstring) : list jsstring * list jsstring :=
  let '(suspicious, log) := acc in
  if includes fp (js "node_modules") || includes fp (js ".git") then acc
  else if existsb (str_eqb (toLowerCase (extname fp))) skipped_extensions then acc
  else
    match content with
    | Some txt =>
        if regex_test secret_pattern txt then (suspicious ++ [fp], log ++ [fp])
        else (suspicious, log ++ [fp])
    | None => (suspicious, log ++ [fp])
    end.

(** The walk of the scan: the list [suspicious], the files opened, and the
    exception that ended the walk, if one did. *)
Definition scan (w : World) : (list jsstring * list jsstring) * option thrown :=
  walk (cwd w) (root_node w) scan_file ([], []).

Definition sec_secrets (w : World) (st : State) : State :=
  let '((suspicious, log), stop) := scan w in
  let st := {| results := results st; hasFail := hasFail st;
               executed := executed st; opened := opened st ++ log;
               uncaught := uncaught st |} in
  match stop with
  | Some e => raise e st
  | None =>
      if (0 <? length suspicious)%nat then
        fail (js "sec_secrets")
          (js "Potential secrets found in files: " ++ join (js ", ") (take 5 suspicious)) st
      else pass (js "sec_secrets") (js "No obvious hardcoded secrets found.") st
  end.

Definition read_format (w : World) (pkg : value) (st : State) : State :=
  let hasFormat :=
    exists_ w (js ".eslintrc") || exists_ w (js ".eslintrc.js")
    || exists_ w (js ".prettierrc")
    || truthy (and_then pkg (fun p =>
         and_then (prop p (js "devDependencies")) (fun d =>
           or_else (prop d (js "eslint")) (prop d (js "prettier"))))) in
  if hasFormat then pass (js "read_format") (js "Formatter/linter config detected.") st
  else na (js "read_format")
         (js "No linter/formatter config found (recommend adding ESLint/Prettier).") st.

Definition recognized : list jsstring :=
  [js "test_exists"; js "test_checks"; js "sec_secrets"; js "read_format"].

Definition manual_review : jsstring :=
  js "Automated check not available; manual review recommended.".

(** The body of the inner loop of the fallback, for one item. *)
Definition default_item (i : ChecklistItem) (st : State) : State :=
  if existsb (str_eqb (id i)) recognized then st
  else if existsb (fun r => str_eqb (verdict_id r) (id i)) (results st) then st
  else na (id i) manual_review st.

Definition default_items (checklist : ChecklistDocument) (st : State) : State :=
  fold_left (fun st cat => fold_left (fun st i => default_item i st) (items cat) st)
            (categories checklist) st.

Definition when (b : bool) (f : State -> State) (st : State) : State :=
  if b then f st else st.

(** One statement of the script after another: a statement runs unless an
    exception is already on its way out. *)
Definition step (f : State -> State) (st : State) : State :=
  match uncaught st with
  | Some _ => st
  | None => f st
  end.

(** Everything between loading the two files and leaving the process. *)
Definition audit (w : World) (checklist : ChecklistDocument) (pkg : value) : State :=
  let st := initial in
  let st := step (when (has_item checklist (js "test_exists")) (test_exists w pkg)) st in
  let st := step (when (has_item checklist (js "test_checks")) (test_checks w pkg)) st in
  let st := step (when (has_item checklist (js "sec_secrets")) (sec_secrets w)) st in
  let st := step (when (has_item checklist (js "read_format")) (read_format w pkg)) st in
  step (default_items checklist) st.

(** ** The process *)

(** How a run ends: [process.exit(code)], with the verdict list written to
    standard output before it if the run got that far; an exception nobody
    catches, on which Node ends the process with status 1 and nothing of the
    report written; or a checklist that has a [categories] array but is
    outside the declared shape further down, whose run is not followed. *)
Inductive Outcome :=
| Exit (code : Z) (printed : option (list Verdict))
| Uncaught (e : thrown)
| Unshaped.

Section Main.
Context `{Engine}.

Definition main (w : World) : Outcome :=
  match entry (js ".aicodechecklist.json") (root w) with
  | None | Some Broken => Exit 2 None
  | Some n =>
      match readJSON n with
      | inl e => Uncaught e
      | inr v =>
          match packageObj w with
          | inl e => Uncaught e
          | inr pkg =>
              match asChecklistFile v with
              | None =>
                  match as_array (prop v (js "categories")) with
                  | None => Uncaught TypeError
                  | Some _ => Unshaped
                  end
              | Some checklist =>
                  let st := audit w checklist pkg in
                  match uncaught st with
                  | Some e => Uncaught e
                  | None => Exit (if hasFail st then 1 else 0) (Some (results st))
                  end
              end
          end
      end
  end.

End Main.

End Audit.

(* ===================================================================== *)
(** * The editor extension ([out/extension.js]) *)
(* ===================================================================== *)

Module Extension.

(** ** The environment of a review *)

Record Folder := { fsPath : jsstring; files : list (jsstring * node) }.

Record Request := {
  url : jsstring;
  method : jsstring;
  headers : list (jsstring * jsstring);
  body : jsstring
}.

(** A response of the network layer: [text()] and [json()] may reject. *)
Record Response := {
  ok : bool;
  http_status : Z;
  text : option jsstring;
  json : option value
}.

(** [workspaceFolders] is [undefined] or an array; [OPENAI_API_KEY] is
    [undefined] or a string; [fetch] answers or rejects. *)
Record Env := {
  workspaceFolders : option (list Folder);
  OPENAI_API_KEY : option jsstring;
  fetch : Request -> option Response
}.

(** ** Reading fields of the response envelope *)

(** [v.k], which throws on [null] and [undefined]. *)
Definition member (v : value) (k : jsstring) : thrown + value :=
  match v with
  | VUndefined | VNull => inl TypeError
  | _ => inr (prop v k)
  end.

(** [v[0]] *)
Definition first (v : value) : thrown + value :=
  match v with
  | VUndefined | VNull => inl TypeError
  | VArray (x :: _) => inr x
  | VString (c :: _) => inr (VString [c])
  | VObject ms => inr (own (js "0") ms)
  | _ => inr VUndefined
  end.

Definition bind {A B : Type} (m : thrown + A) (f : A -> thrown + B) : thrown + B :=
  match m with
  | inl e => inl e
  | inr a => f a
  end.

(** [data.choices[0].message.content] *)
Definition completion (data : value) : thrown + value :=
  bind (member data (js "choices")) (fun choices =>
  bind (first choices) (fun choice =>
  bind (member choice (js "message")) (fun message =>
  member message (js "content")))).

(** ** Fence stripping *)

Definition fence : jsstring := js "```".
Definition fence_json : jsstring := js "```json".

(** [s.replace(/^<opening>\s*/, '')] for a text that begins with the opening:
    the opening goes and all white space after it. *)
Definition drop_opening (opening s : jsstring) : jsstring :=
  if startsWith s opening then trimStart (drop (length opening) s) else s.

(** [s.replace(/\s*```$/, '')]: the leftmost place from which the rest of the
    text is white space followed by a closing fence, if there is one. *)
Fixpoint drop_closing (s : jsstring) : jsstring :=
  if bool_decide (trimStart s = fence) then []
  else
    match s with
    | [] => []
    | c :: r => c :: drop_closing r
    end.

(** The first lines of the [try] block of [runLLMReview]: the text handed
    to [JSON.parse]. *)
Definition stripFence (content : jsstring) : jsstring :=
  let jsonString := trim content in
  if startsWith jsonString fence_json then
    drop_closing (drop_opening fence_json jsonString)
  else if startsWith jsonString fence then
    drop_closing (drop_opening fence jsonString)
  else jsonString.

Section Review.
Context `{Engine}.

(** ** [loadChecklist] *)

Definition loadChecklist (env : Env) : value :=
  match workspaceFolders env with
  | None | Some [] => VNull
  | Some (folder :: _) =>
      match entry (js ".aicodechecklist.json") (files folder) with
      | Some (File (Some content)) =>
          match JSON_parse content with
          | Some v => v
          | None => VNull
          end
      | _ => VNull
      end
  end.

(** ** [runLLMReview] *)

Definition prompt (code : jsstring) (checklist : value) : jsstring :=
  js "You are a senior software engineer doing a strict code review.

Here is the code to review:
---
" ++ code ++ js "
---

Here is a JSON checklist of review items:
---
" ++ JSON_stringify 2 checklist ++ jq "
---

For EACH checklist item, decide:
- status: 'Pass', 'Fail', or 'NeedsAttention'
- reason: short explanation (one or two sentences)

Return ONLY a JSON array of objects like:
[
  {
    'id': 'func_req',
    'status': 'Pass',
    'reason': 'Explanation.',
    'category': 'Functionality & Logic',
    'priority': 'Critical'
  }
]
".

Definition request (apiKey code : jsstring) (checklist : value) : Request :=
  {| url := js "https://api.openai.com/v1/chat/completions";
     method := js "POST";
     headers := [ (js "Content-Type", js "application/json");
                  (js "Authorization", js "Bearer " ++ apiKey) ];
     body := JSON_stringify 0
       (VObject [ (js "model", VString (js "gpt-4o-mini"));
                  (js "messages",
                   VArray [ VObject [ (js "role", VString (js "user"));
                                      (js "content", VString (prompt code checklist)) ] ]);
                  (js "temperature", VNumber (Number 1 (-1))) ]) |}.

(** The [try] block and its [catch]: a completion that is not a string has
    no [trim] to call, and the [catch] receives that as it receives a failed
    parse.  The message is put together inside the [catch], so a completion
    that cannot be converted to a string leaves with the [TypeError] of the
    concatenation. *)
Definition parseCompletion (content : value) : thrown + value :=
  match content with
  | VString c =>
      match JSON_parse (stripFence c) with
      | Some parsed => inr parsed
      | None => inl (Error (js "Failed to parse LLM JSON: " ++ c))
      end
  | _ =>
      match concat_value (js "Failed to parse LLM JSON: ") content with
      | inl e => inl e
      | inr message => inl (Error message)
      end
  end.

(** The requests sent, in order, and what the call returns or throws. *)
Definition runLLMReview (env : Env) (code : jsstring) (checklist : value)
  : list Request * (thrown + value) :=
  match OPENAI_API_KEY env with
  | None | Some [] =>
      ([], inl (Error (js "OPENAI_API_KEY environment variable not set.")))
  | Some apiKey =>
      let req := request apiKey code checklist in
      ([req],
       match fetch env req with
       | None => inl Rejected
       | Some response =>
           if ok response then
             match json response with
             | None => inl Rejected
             | Some data => bind (completion data) parseCompletion
             end
           else
             match text response with
             | None => inl Rejected
             | Some t =>
                 inl (Error (js "OpenAI API error: "
                             ++ js (pretty (http_status response)) ++ js " " ++ t))
             end
       end)
  end.

End Review.

End Extension.

(* ===================================================================== *)
(** * What the properties are stated with *)
(* ===================================================================== *)

Module Props.
Import Audit Extension.

(** The ids of the items of a checklist, in document order. *)
Definition item_ids (checklist : ChecklistDocument) : list jsstring :=
  flat_map (fun c => List.map id (items c)) (categories checklist).

(** The verdicts a run produced for one id. *)
Definition verdicts_for (x : jsstring) (rs : list Verdict) : list Verdict :=
  List.filter (fun r => str_eqb (verdict_id r) x) rs.

Definition any_fail (rs : list Verdict) : bool :=
  existsb (fun r => bool_decide (status r = Fail)) rs.

(** A tree the walk gets through: every directory in it can be listed and
    every name leads somewhere. *)
Fixpoint walkable_node (n : node) : bool :=
  match n with
  | File _ => true
  | Sealed | Broken => false
  | Dir es =>
      (fix all (es : list (jsstring * node)) : bool :=
         match es with
         | [] => true
         | (_, m) :: r => walkable_node m && all r
         end) es
  end.

Definition walkable (w : World) : bool := walkable_node (root_node w).

(** The scan, when the checklist asks for it, gets through the tree. *)
Definition gets_through (w : World) (checklist : ChecklistDocument) : bool :=
  negb (has_item checklist (js "sec_secrets")) || walkable w.

(** The files the walk meets under a directory, with their paths, in [walk]
    order: all of them in a tree the walk gets through, and otherwise the
    ones that come before the first entry it cannot pass. *)
Fixpoint files_under (fp : jsstring) (n : node) : list (jsstring * option jsstring) :=
  match n with
  | File c => [(fp, c)]
  | Sealed | Broken => []
  | Dir es =>
      (fix each (es : list (jsstring * node)) :=
         match es with
         | [] => []
         | (f, m) :: r =>
             files_under (path_join fp f) m
             ++ (if walkable_node m then each r else [])
         end) es
  end.

Definition files_of (w : World) : list (jsstring * option jsstring) :=
  files_under (cwd w) (root_node w).

(** Every file of a tree, in the same order. *)
Fixpoint all_files (fp : jsstring) (n : node) : list (jsstring * option jsstring) :=
  match n with
  | File c => [(fp, c)]
  | Sealed | Broken => []
  | Dir es =>
      (fix each (es : list (jsstring * node)) :=
         match es with
         | [] => []
         | (f, m) :: r => all_files (path_join fp f) m ++ each r
         end) es
  end.

(** The paths the scan collects. *)
Definition reported (w : World) : list jsstring := fst (fst (scan w)).

(** A path the secret scan leaves alone. *)
Definition excluded (fp : jsstring) : bool :=
  includes fp (js "node_modules") || includes fp (js ".git")
  || existsb (str_eqb (toLowerCase (extname fp))) skipped_extensions.

(** [txt] contains [t], letter case of ASCII letters aside. *)
Fixpoint ci_startsWith (txt t : jsstring) {struct t} : bool :=
  match t, txt with
  | [], _ => true
  | c :: t', x :: txt' => same_letter x c && ci_startsWith txt' t'
  | _ :: _, [] => false
  end.

Fixpoint ci_includes (txt t : jsstring) : bool :=
  ci_startsWith txt t ||
  match txt with
  | _ :: r => ci_includes r t
  | [] => false
  end.

(** The trigger substrings as the specification lists them, and as the
    pattern has them. *)
Definition listed_triggers : list jsstring :=
  [js "api_key"; js "api-key"; js "secret"; js "password"; js "passwd";
   js "aws_secret"; js "aws_access"; js "SECRET_KEY"; js "PRIVATE_KEY"; js "TOKEN"].

Definition pattern_triggers : list jsstring :=
  [js "api_key"; js "api-key"; js "apikey"; js "secret"; js "password";
   js "passwd"; js "aws_secret"; js "aws_access"; js "SECRET_KEY";
   js "PRIVATE_KEY"; js "TOKEN"].

(** A scanned, non-excluded file whose text contains one of [triggers]. *)
Definition flags (triggers : list jsstring) (f : jsstring * option jsstring) : bool :=
  negb (excluded (fst f)) &&
  match snd f with
  | Some txt => existsb (ci_includes txt) triggers
  | None => false
  end.

Definition flagged (triggers : list jsstring) (w : World) : list jsstring :=
  List.map fst (List.filter (flags triggers) (files_of w)).

(** Some scanned file that is not excluded contains one of [triggers]. *)
Definition contains_trigger (triggers : list jsstring) (w : World) : Prop :=
  exists fp txt,
    (fp, Some txt) ∈ files_of w /\ excluded fp = false
    /\ exists t, t ∈ triggers /\ ci_includes txt t = true.

(** [package.json] has a truthy script of that name: the parsed file, its
    [scripts] member and the member of that name are all truthy. *)
Definition truthy_script (pkg : value) (nm : jsstring) : bool :=
  truthy pkg && truthy (prop pkg (js "scripts"))
  && truthy (prop (prop pkg (js "scripts")) nm).

(** [package.json] declares a script, as the specification says it: its
    [scripts] object has a member of that name. *)
Definition declares_script (pkg : value) (nm : jsstring) : bool :=
  match prop pkg (js "scripts") with
  | VObject ms => has_key nm ms
  | _ => false
  end.

(** The script has a command to run: the member is a string that is not
    empty. *)
Definition runnable_script (pkg : value) (nm : jsstring) : bool :=
  match prop (prop pkg (js "scripts")) nm with
  | VString (_ :: _) => true
  | _ => false
  end.

(** The scripts [test_checks] looks at are as npm has them: absent, or a
    string. *)
Definition scripts_are_strings (pkg : value) : bool :=
  forallb (fun nm =>
             match prop (prop pkg (js "scripts")) nm with
             | VUndefined | VString _ => true
             | _ => false
             end)
          [js "lint"; js "test"; js "build"].

Definition declares_dev_dependency (pkg : value) (nm : jsstring) : bool :=
  truthy pkg && truthy (prop pkg (js "devDependencies"))
  && truthy (prop (prop pkg (js "devDependencies")) nm).

Definition is_directory (w : World) (nm : jsstring) : bool :=
  match entry nm (root w) with
  | Some (Dir _) | Some Sealed => true
  | _ => false
  end.

(** The condition of [test_exists] with a test directory, as specified, and
    with an entry of any kind, as the script tests it. *)
Definition tests_by_directory (w : World) (pkg : value) : bool :=
  is_directory w (js "test") || is_directory w (js "tests")
  || is_directory w (js "__tests__")
  || truthy_script pkg (js "test") || declares_dev_dependency pkg (js "jest").

Definition tests_by_entry (w : World) (pkg : value) : bool :=
  exists_ w (js "test") || exists_ w (js "tests") || exists_ w (js "__tests__")
  || truthy_script pkg (js "test") || declares_dev_dependency pkg (js "jest").

(** What [test_checks] runs and answers, by the truthy scripts, and what it
    is to run and to answer by the scripts that have a command. *)
Definition lint_command : jsstring := js "npm run lint --silent".
Definition test_command : jsstring := js "npm test --silent".

Definition ran_commands (pkg : value) : list jsstring :=
  if truthy_script pkg (js "lint") then [lint_command]
  else if truthy_script pkg (js "test") then [test_command]
  else [].

Definition checks_status (w : World) (pkg : value) : Status :=
  if runnable_script pkg (js "lint") then
    if exit_zero (execSync w lint_command) then Pass else Fail
  else if runnable_script pkg (js "test") then
    if exit_zero (execSync w test_command) then Pass else Fail
  else NeedsAttention.

Definition checks_commands (pkg : value) : list jsstring :=
  if runnable_script pkg (js "lint") then [lint_command]
  else if runnable_script pkg (js "test") then [test_command]
  else [].

(** The verdict each heuristic is to give. *)
Definition verdict (i : string) (s : Status) (r : string) : Verdict :=
  {| verdict_id := js i; status := s; reason := js r |}.

Definition expect_test_exists (w : World) (pkg : value) : Verdict :=
  if tests_by_entry w pkg
  then verdict "test_exists" Pass "Tests folder or test script detected."
  else verdict "test_exists" Fail "No tests detected (no test folder or test script).".

Definition expect_test_checks (w : World) (pkg : value) : Verdict :=
  if truthy_script pkg (js "lint") then
    if exit_zero (execSync w lint_command)
    then verdict "test_checks" Pass "Lint passed."
    else verdict "test_checks" Fail "Lint/tests failed (see job logs)."
  else if truthy_script pkg (js "test") then
    if exit_zero (execSync w test_command)
    then verdict "test_checks" Pass "Tests passed."
    else verdict "test_checks" Fail "Lint/tests failed (see job logs)."
  else if truthy_script pkg (js "build")
  then verdict "test_checks" NeedsAttention "No lint/test script found to run."
  else verdict "test_checks" NeedsAttention "No package.json scripts to run (skipped).".

Definition expect_sec_secrets (w : World) : Verdict :=
  match flagged pattern_triggers w with
  | [] => verdict "sec_secrets" Pass "No obvious hardcoded secrets found."
  | hits =>
      {| verdict_id := js "sec_secrets"; status := Fail;
         reason := js "Potential secrets found in files: "
                   ++ join (js ", ") (take 5 hits) |}
  end.

Definition format_config (w : World) (pkg : value) : bool :=
  exists_ w (js ".eslintrc") || exists_ w (js ".eslintrc.js")
  || exists_ w (js ".prettierrc")
  || declares_dev_dependency pkg (js "eslint")
  || declares_dev_dependency pkg (js "prettier").

Definition expect_read_format (w : World) (pkg : value) : Verdict :=
  if format_config w pkg
  then verdict "read_format" Pass "Formatter/linter config detected."
  else verdict "read_format" NeedsAttention
         "No linter/formatter config found (recommend adding ESLint/Prettier).".

(** The verdicts of the heuristics whose ids the checklist contains, in the
    order the script runs them. *)
Definition asked (checklist : ChecklistDocument) (i : string) (v : Verdict)
  : list Verdict :=
  if has_item checklist (js i) then [v] else [].

Definition heuristic_verdicts (w : World) (checklist : ChecklistDocument)
    (pkg : value) : list Verdict :=
  asked checklist "test_exists" (expect_test_exists w pkg)
  ++ asked checklist "test_checks" (expect_test_checks w pkg)
  ++ asked checklist "sec_secrets" (expect_sec_secrets w)
  ++ asked checklist "read_format" (expect_read_format w pkg).

(** The fallback verdict of an id no heuristic knows. *)
Definition is_fallback (checklist : ChecklistDocument) (r : Verdict) : Prop :=
  status r = NeedsAttention /\ reason r = manual_review
  /\ verdict_id r ∈ item_ids checklist /\ verdict_id r ∉ recognized.

(** The two files are there and can be used: the checklist parses to a
    document of the declared shape, [package.json] is absent or parses. *)
Definition loads `{Engine} (w : World) (checklist : ChecklistDocument)
    (pkg : value) : Prop :=
  exists n v,
    entry (js ".aicodechecklist.json") (root w) = Some n
    /\ readJSON n = inr v
    /\ asChecklistFile v = Some checklist
    /\ packageObj w = inr pkg.

(** A completion wrapped in a fenced block: the opening fence, a line break,
    the inner text, a line break, the closing fence. *)
Definition fenced (opening inner : jsstring) : jsstring :=
  opening ++ [10] ++ inner ++ [10] ++ fence.

(** A text without white space at its start, at its end. *)
Definition no_lead (s : jsstring) : Prop := trimStart s = s.
Definition no_trail (s : jsstring) : Prop := trimEnd s = s.

(** [f] appends the one verdict [v], raises the failure flag exactly when
    [v] fails, touches nothing else of the two variables and throws
    nothing. *)
Definition adds (f : State -> State) (v : Verdict) : Prop :=
  forall st,
    results (f st) = results st ++ [v]
    /\ hasFail (f st) = hasFail st || bool_decide (status v = Fail)
    /\ uncaught (f st) = uncaught st.

(** [part] occurs in [whole] as a run of consecutive code units. *)
Definition occurs_in (part whole : jsstring) : Prop :=
  exists before after, whole = before ++ part ++ after.

End Props.

(* ===================================================================== *)
(** * Concrete runs *)
(* ===================================================================== *)

Module Runs.
Import Audit Extension Props.

Definition checklist_name : jsstring := js ".aicodechecklist.json".

Definition no_commands (cmd : jsstring) : ExecResult :=
  {| exit_zero := true; output := [] |}.

Definition one_item (i : string) : jsstring :=
  jq "{'version':'1','categories':[{'name':'Tests','items':[{'id':'"
  ++ js i ++ jq "','description':'x'}]}]}".

(** The document that text parses to. *)
Definition one_item_doc (i : string) : ChecklistDocument :=
  {| version := VString (js "1");
     categories :=
       [ {| name := VString (js "Tests"); priority := VUndefined;
            items := [ {| id := js i; description := VString (js "x") |} ] |} ] |}.

(** Scenario A: [test_exists] asked for, no test directory, no package.json. *)
Definition repo_without_tests : World :=
  {| cwd := js "/work/repo"; listable := true;
     root := [ (checklist_name, File (Some (one_item "test_exists"))) ];
     execSync := no_commands |}.

(** Scenario B: the same with an empty [tests] directory. *)
Definition repo_with_tests_dir : World :=
  {| cwd := js "/work/repo"; listable := true;
     root := [ (checklist_name, File (Some (one_item "test_exists")));
               (js "tests", Dir []) ];
     execSync := no_commands |}.

(** Scenario C: one item no heuristic knows. *)
Definition repo_custom_item : World :=
  {| cwd := js "/work/repo"; listable := true;
     root := [ (checklist_name, File (Some (one_item "custom_x"))) ];
     execSync := no_commands |}.

(** A repository whose only entry named [test] is a regular file. *)
Definition repo_test_is_a_file : World :=
  {| cwd := js "/work/repo"; listable := true;
     root := [ (checklist_name, File (Some (one_item "test_exists")));
               (js "test", File (Some (js "scratch notes"))) ];
     execSync := no_commands |}.

(** No checklist file at all, and one that is not JSON. *)
Definition repo_no_checklist : World :=
  {| cwd := js "/work/repo"; listable := true;
     root := [ (js "index.js", File (Some (js "module.exports = 1;"))) ];
     execSync := no_commands |}.

Definition repo_bad_checklist : World :=
  {| cwd := js "/work/repo"; listable := true;
     root := [ (checklist_name, File (Some (js "{"))) ];
     execSync := no_commands |}.

(** A checklist that asks for [sec_secrets] with the id written with an
    escape, so that the checklist file itself holds none of the words, and a
    source file that says [apikey]. *)
Definition repo_apikey : World :=
  {| cwd := js "/work/repo"; listable := true;
     root := [ (checklist_name, File (Some (one_item "sec_\u0073ecrets")));
               (js "config.js", File (Some (js "const apikey = load();"))) ];
     execSync := no_commands |}.

(** A top-level [.gitignore] that mentions a password, beside a clean file. *)
Definition repo_gitignore : World :=
  {| cwd := js "/work/repo"; listable := true;
     root := [ (checklist_name, File (Some (one_item "sec_\u0073ecrets")));
               (js ".gitignore", File (Some (js "password.txt")));
               (js "main.js", File (Some (js "console.log(1);"))) ];
     execSync := no_commands |}.

(** [test_checks] asked for, a lint script declared, and a linter that
    fails. *)
Definition repo_lint_fails : World :=
  {| cwd := js "/work/repo"; listable := true;
     root := [ (checklist_name, File (Some (one_item "test_checks")));
               (js "package.json",
                File (Some (jq "{'scripts':{'lint':'eslint .','test':'jest'}}"))) ];
     execSync := fun cmd =>
       {| exit_zero := negb (str_eqb cmd lint_command); output := js "2 problems" |} |}.

Definition lint_package : value :=
  VObject [ (js "scripts",
             VObject [ (js "lint", VString (js "eslint ."));
                       (js "test", VString (js "jest")) ]) ].

(** A lint script declared with the empty string for its command, beside a
    test script; every command succeeds. *)
Definition repo_empty_lint : World :=
  {| cwd := js "/work/repo"; listable := true;
     root := [ (checklist_name, File (Some (one_item "test_checks")));
               (js "package.json",
                File (Some (jq "{'scripts':{'lint':'','test':'jest'}}"))) ];
     execSync := no_commands |}.

Definition empty_lint_package : value :=
  VObject [ (js "scripts",
             VObject [ (js "lint", VString []);
                       (js "test", VString (js "jest")) ]) ].

(** The same repository seen when the linter writes something else. *)
Definition repo_lint_fails_quietly : World :=
  {| cwd := cwd repo_lint_fails; listable := true;
     root := root repo_lint_fails;
     execSync := fun cmd =>
       {| exit_zero := negb (str_eqb cmd lint_command); output := [] |} |}.

(** The judge of scenario D, and one that answers with prose. *)
Definition answer (completion : jsstring) : value :=
  VObject [ (js "choices",
             VArray [ VObject [ (js "message",
               VObject [ (js "role", VString (js "assistant"));
                         (js "content", VString completion) ]) ] ]) ].

Definition judge (completion : jsstring) (key : option jsstring) : Env :=
  {| workspaceFolders := Some [ {| fsPath := js "/work/repo"; files := [] |} ];
     OPENAI_API_KEY := key;
     fetch := fun _ =>
       Some {| ok := true; http_status := 200; text := None;
               json := Some (answer completion) |} |}.

Definition fenced_verdicts : jsstring :=
  fenced fence_json (jq "[{'id':'a','status':'Pass','reason':'ok'}]").

Definition prose : jsstring := js "Sorry, I cannot review this file.".

Definition workspace (es : list (jsstring * node)) : Env :=
  {| workspaceFolders := Some [ {| fsPath := js "/work/repo"; files := es |} ];
     OPENAI_API_KEY := None;
     fetch := fun _ => None |}.

End Runs.

(* ===================================================================== *)
(** * The review command of the extension ([activate], [out/extension.js]) *)
(* ===================================================================== *)

Module Command.
Import Extension.

(** ** The host *)

(** The active editor's document: its text and the path of its file. *)
Record Editor := { getText : jsstring; document_path : jsstring }.

Record Host := {
  env : Env;
  activeTextEditor : option Editor
}.

(** What the command does to the window, in order: pop-up messages, and the
    calls on the output channel. *)
Inductive ui :=
| ShowInformationMessage (message : jsstring)
| ShowErrorMessage (message : jsstring)
| CreateOutputChannel (name : jsstring)
| Clear
| AppendLine (line : jsstring)
| ShowChannel.

Definition is_popup (e : ui) : bool :=
  match e with
  | ShowInformationMessage _ | ShowErrorMessage _ => true
  | _ => false
  end.

(** ** Pieces of the language the command uses *)

(** The strings a [for ... of] over a string yields: its code points, a
    surrogate pair taken as one. *)
Fixpoint codePoints (s : jsstring) : list jsstring :=
  match s with
  | [] => []
  | c :: r =>
      if (55296 <=? c) && (c <=? 56319) then
        match r with
        | d :: r' =>
            if (56320 <=? d) && (d <=? 57343) then [c; d] :: codePoints r'
            else [c] :: codePoints r
        | [] => [[c]]
        end
      else [c] :: codePoints r
  end.

(** What [for (const r of results)] goes through; anything but an array or a
    string is not iterable. *)
Definition iterate (results : value) : thrown + list value :=
  match results with
  | VArray l => inr l
  | VString s => inr (List.map VString (codePoints s))
  | _ => inl TypeError
  end.

(** [a ?? b] *)
Definition nullish (a b : value) : value :=
  match a with
  | VUndefined | VNull => b
  | _ => a
  end.

Section Handler.
Context `{Engine}.

(** [String(err)] for what the [catch] receives: an [Error] gives its name
    and message; the text of the other errors is the engine's, [describe]. *)
Variable describe : thrown -> jsstring.

Definition String_of (e : thrown) : jsstring :=
  match e with
  | Error m => if bool_decide (m = []) then js "Error" else js "Error: " ++ m
  | _ => describe e
  end.

(** The line of one result, a template literal: reading [r.status] throws
    on [null] and [undefined]; the five values are converted to strings from
    left to right, and a conversion that throws leaves the line unwritten. *)
Definition result_line (r : value) : thrown + jsstring :=
  match r with
  | VUndefined | VNull => inl TypeError
  | _ =>
      bind (to_text (prop r (js "status"))) (fun status =>
      bind (to_text (nullish (prop r (js "category")) (VString (js "Unknown"))))
        (fun category =>
      bind (to_text (nullish (prop r (js "priority")) (VString (js "-"))))
        (fun priority =>
      bind (to_text (prop r (js "id"))) (fun i =>
      bind (to_text (prop r (js "reason"))) (fun reason =>
      inr (js "- [" ++ status ++ js "] (" ++ category ++ js " / " ++ priority
           ++ js ") " ++ i ++ js ": " ++ reason))))))
  end.

(** The body of the loop over the results: the lines appended, and the
    exception that stopped it, if one did. *)
Fixpoint render (rs : list value) : list ui * option thrown :=
  match rs with
  | [] => ([], None)
  | r :: rest =>
      match result_line r with
      | inl e => ([], Some e)
      | inr line =>
          let '(evs, e) := render rest in (AppendLine line :: evs, e)
      end
  end.

(** The [catch] of the command. *)
Definition failure (e : thrown) : list ui :=
  [ AppendLine (js "LLM error: " ++ String_of e);
    ShowErrorMessage (js "Failed to run LLM review. See output for details.") ].

(** Step 2 of the command: the channel and its heading. *)
Definition heading (editor : Editor) (checklist : value) : list ui :=
  [ CreateOutputChannel (js "AI Checklist Review");
    Clear;
    AppendLine (js "AI Checklist Review");
    AppendLine (js "===================");
    AppendLine (js "File: " ++ document_path editor);
    AppendLine [];
    AppendLine (js "Loaded checklist:");
    AppendLine (JSON_stringify 2 checklist);
    AppendLine [];
    AppendLine (js "Code preview (first 200 chars):");
    AppendLine (take 200 (getText editor));
    AppendLine [];
    AppendLine (js "Running LLM review...");
    ShowChannel ].

Definition results_heading : list ui :=
  [ AppendLine []; AppendLine (js "AI Checklist Results:") ].

(** The command [ai-code-review.runChecklist]: what it shows, and the
    requests it sends. *)
Definition runChecklist (h : Host) : list ui * list Request :=
  match activeTextEditor h with
  | None => ([ShowInformationMessage (js "No active editor")], [])
  | Some editor =>
      let code := getText editor in
      let checklist := loadChecklist (env h) in
      if negb (truthy checklist) then
        ([ShowErrorMessage (js ".aicodechecklist.json not found in workspace root")], [])
      else
        let '(sent, outcome) := runLLMReview (env h) code checklist in
        (heading editor checklist ++
         match outcome with
         | inl e => failure e
         | inr results =>
             results_heading ++
             match iterate results with
             | inl e => failure e
             | inr rs =>
                 let '(lines, stopped) := render rs in
                 lines ++
                 match stopped with
                 | None => [ShowInformationMessage (js "AI checklist review completed.")]
                 | Some e => failure e
                 end
             end
         end,
         sent)
  end.

End Handler.

End Command.

(* ===================================================================== *)
(** * Further notions and runs *)
(* ===================================================================== *)

Module More.
Import Audit Extension Command Props Runs.

(** ** The order of a report *)

(** The ids of [l] in order, each at its first occurrence only and none
    that is in [seen]. *)
Fixpoint first_seen (seen l : list jsstring) : list jsstring :=
  match l with
  | [] => []
  | x :: r =>
      if existsb (str_eqb x) seen then first_seen seen r
      else x :: first_seen (seen ++ [x]) r
  end.

(** The ids of the heuristics the checklist asks for, in the order the
    script runs them, and the ids left to the fallback, in document order. *)
Definition asked_ids (checklist : ChecklistDocument) : list jsstring :=
  List.filter (has_item checklist) recognized.

Definition fallback_ids (checklist : ChecklistDocument) : list jsstring :=
  first_seen []
    (List.filter (fun i => negb (existsb (str_eqb i) recognized))
                 (item_ids checklist)).

(** The ids that can fail. *)
Definition failing_ids : list jsstring :=
  [js "test_exists"; js "test_checks"; js "sec_secrets"].

(** A code unit of a file name that is neither a dot nor a separator. *)
Definition plain (c : N) : bool := negb (c =? 46) && negb (c =? 47).

(** ** Repositories *)

Definition checklist_of (text : jsstring) (more : list (jsstring * node))
    (exec : jsstring -> ExecResult) : World :=
  {| cwd := js "/work/repo"; listable := true;
     root := (checklist_name, File (Some text)) :: more;
     execSync := exec |}.

(** A checklist that repeats ids, within a category and across two. *)
Definition repeated_text : jsstring :=
  jq "{'version':'1','categories':[{'name':'A','items':[{'id':'custom_x','description':'x'},{'id':'test_exists','description':'y'},{'id':'custom_x','description':'x'}]},{'name':'B','priority':'High','items':[{'id':'other','description':'v'},{'id':'test_exists','description':'w'},{'id':'custom_x','description':'z'}]}]}".

Definition repeated_doc : ChecklistDocument :=
  {| version := VString (js "1");
     categories :=
       [ {| name := VString (js "A"); priority := VUndefined;
            items := [ {| id := js "custom_x"; description := VString (js "x") |};
                       {| id := js "test_exists"; description := VString (js "y") |};
                       {| id := js "custom_x"; description := VString (js "x") |} ] |};
         {| name := VString (js "B"); priority := VString (js "High");
            items := [ {| id := js "other"; description := VString (js "v") |};
                       {| id := js "test_exists"; description := VString (js "w") |};
                       {| id := js "custom_x"; description := VString (js "z") |} ] |} ] |}.

Definition repo_repeated : World := checklist_of repeated_text [] no_commands.

(** [read_format] asked for, with a Prettier configuration at the root. *)
Definition repo_prettier : World :=
  checklist_of (one_item "read_format")
    [ (js ".prettierrc", File (Some (js "{}"))) ] no_commands.

(** A [package.json] that is not JSON. *)
Definition repo_bad_package : World :=
  checklist_of (one_item "custom_x")
    [ (js "package.json", File (Some (js "{ scripts: "))) ] no_commands.

(** A readme in capitals that mentions a password, an unreadable file, and a
    source file with a token after them. *)
Definition repo_readme : World :=
  checklist_of (one_item "sec_\u0073ecrets")
    [ (js "README.MD", File (Some (js "the password is hunter2")));
      (js "locked.txt", File None);
      (js "src", Dir [ (js "auth.js", File (Some (js "const TOKEN = 1;"))) ]) ]
    no_commands.

(** A link that leads nowhere, in a dependency directory, between a source
    file with a token and one with a password; a lint script that the
    checklist also asks to run. *)
Definition repo_dangling : World :=
  checklist_of
    (jq "{'categories':[{'items':[{'id':'test_checks'},{'id':'sec_\u0073ecrets'}]}]}")
    [ (js "package.json", File (Some (jq "{'scripts':{'lint':'eslint .'}}")));
      (js "a.js", File (Some (js "const TOKEN = 1;")));
      (js "node_modules", Dir [ (js "gone", Broken) ]);
      (js "b.js", File (Some (js "let password;"))) ]
    no_commands.

Definition dangling_doc : ChecklistDocument :=
  {| version := VUndefined;
     categories :=
       [ {| name := VUndefined; priority := VUndefined;
            items := [ {| id := js "test_checks"; description := VUndefined |};
                       {| id := js "sec_secrets"; description := VUndefined |} ] |} ] |}.

Definition lint_only_package : value :=
  VObject [ (js "scripts", VObject [ (js "lint", VString (js "eslint .")) ]) ].

(** A checklist file that holds an empty object. *)
Definition repo_empty_checklist : World :=
  {| cwd := js "/work/repo"; listable := true;
     root := [ (checklist_name, File (Some (js "{}"))) ];
     execSync := no_commands |}.

(** A dotfile with a secret in it. *)
Definition repo_env : World :=
  checklist_of (one_item "sec_\u0073ecrets")
    [ (js ".env", File (Some (js "DB_PASSWORD=hunter2"))) ] no_commands.

(** ** The command *)

(** The first workspace folder holds a checklist file that can be read and
    parses to a value that is truthy. *)
Definition usable_checklist `{Engine} (e : Env) : Prop :=
  exists folder rest content v,
    workspaceFolders e = Some (folder :: rest)
    /\ entry (js ".aicodechecklist.json") (files folder) = Some (File (Some content))
    /\ JSON_parse content = Some v
    /\ truthy v = true.

Definition is_nullish (v : value) : bool :=
  match v with
  | VUndefined | VNull => true
  | _ => false
  end.

(** A value whose conversion to a string does not throw: no object with a
    member of its own named [toString], at any depth of arrays. *)
Fixpoint convertible (v : value) : bool :=
  match v with
  | VArray es => forallb convertible es
  | VObject ms => negb (has_key (js "toString") ms)
  | _ => true
  end.

(** The text of a convertible value. *)
Definition as_text `{Engine} (v : value) : jsstring :=
  match to_text v with
  | inr t => t
  | inl _ => []
  end.

(** A result whose line can be written: it is neither [null] nor
    [undefined], and the five members the line shows are convertible. *)
Definition printable (r : value) : bool :=
  negb (is_nullish r)
  && forallb (fun k => convertible (prop r k))
       [js "status"; js "category"; js "priority"; js "id"; js "reason"].

(** The line of a printable result. *)
Definition line_of `{Engine} (r : value) : jsstring :=
  js "- [" ++ as_text (prop r (js "status")) ++ js "] ("
  ++ as_text (nullish (prop r (js "category")) (VString (js "Unknown"))) ++ js " / "
  ++ as_text (nullish (prop r (js "priority")) (VString (js "-"))) ++ js ") "
  ++ as_text (prop r (js "id")) ++ js ": " ++ as_text (prop r (js "reason")).

Definition not_found : ui :=
  ShowErrorMessage (js ".aicodechecklist.json not found in workspace root").

Definition completed : ui :=
  ShowInformationMessage (js "AI checklist review completed.").

(** ** Judges and hosts *)

(** A judge that answers every request with [response]. *)
Definition judge_raw (response : Response) (key : option jsstring) : Env :=
  {| workspaceFolders := Some [ {| fsPath := js "/work/repo"; files := [] |} ];
     OPENAI_API_KEY := key;
     fetch := fun _ => Some response |}.

Definition unauthorized : Response :=
  {| ok := false; http_status := 401;
     text := Some (jq "{'error':'invalid key'}");
     json := Some (VObject [ (js "error", VString (js "invalid key")) ]) |}.

Definition no_choices : Response :=
  {| ok := true; http_status := 200; text := None;
     json := Some (VObject [ (js "choices", VArray []) ]) |}.

Definition null_content : Response :=
  {| ok := true; http_status := 200; text := None;
     json := Some (VObject [ (js "choices",
              VArray [ VObject [ (js "message",
                VObject [ (js "content", VNull) ]) ] ]) ]) |}.

(** A completion that is an object hiding the inherited [toString]. *)
Definition poisoned : value := VObject [ (js "toString", VNumber (Number 1 0)) ].

Definition poisoned_content : Response :=
  {| ok := true; http_status := 200; text := None;
     json := Some (VObject [ (js "choices",
              VArray [ VObject [ (js "message",
                VObject [ (js "content", poisoned) ]) ] ]) ]) |}.

(** A workspace with a usable checklist, a given credential and a judge that
    answers with [completion]. *)
Definition workspace_judge (completion : jsstring) (key : option jsstring) : Env :=
  {| workspaceFolders :=
       Some [ {| fsPath := js "/work/repo";
                 files := [ (checklist_name, File (Some (one_item "custom_x"))) ] |} ];
     OPENAI_API_KEY := key;
     fetch := fun _ =>
       Some {| ok := true; http_status := 200; text := None;
               json := Some (answer completion) |} |}.

Definition an_editor : Editor :=
  {| getText := js "let x = 1;"; document_path := js "/work/repo/x.js" |}.

(** A completion with two verdicts, and one whose second element is
    [null]. *)
Definition two_verdicts : jsstring :=
  jq "[{'id':'a','status':'Pass','reason':'ok','category':'Tests','priority':'High'},{'id':'b','status':'Fail','reason':'no'}]".

Definition null_verdict : jsstring :=
  jq "[{'id':'a','status':'Pass','reason':'ok'},null,{'id':'c','status':'Pass','reason':'ok'}]".

(** A completion whose second element has a status that cannot be converted
    to a string. *)
Definition poisoned_verdict : jsstring :=
  jq "[{'id':'a','status':'Pass','reason':'ok'},{'id':'b','status':{'toString':1},'reason':'no'},{'id':'c','status':'Pass','reason':'ok'}]".

(** A checklist file that holds the JSON value [false]. *)
Definition workspace_false : Env :=
  workspace [ (checklist_name, File (Some (js "false"))) ].

(** The engine's text for the errors that are not an [Error]. *)
Definition describe_plainly (e : thrown) : jsstring :=
  match e with
  | TypeError => js "TypeError: not an object"
  | SyntaxError => js "SyntaxError: not JSON"
  | SystemError => js "Error: file system"
  | Rejected => js "FetchError: request failed"
  | Error m => m
  end.

(** The value a text parses to with the reference reader ([null] if it does
    not parse). *)
Definition parsed (text : jsstring) : value :=
  match Reference.parse text with
  | Some v => v
  | None => VNull
  end.

(** The elements of an answer that can be iterated. *)
Definition elements (v : value) : list value :=
  match iterate v with
  | inr l => l
  | inl _ => []
  end.

(** A window with [an_editor] open, in environment [e]. *)
Definition host (e : Env) : Host :=
  {| env := e; activeTextEditor := Some an_editor |}.

End More.

(* ===================================================================== *)
(** * Facts about strings *)
(* ===================================================================== *)

Module StringFacts.

Lemma startsWith_app (p s : jsstring) : startsWith (p ++ s) p = true.
Proof.
  induction p as [|a p IH]; simpl; [done|].
  by rewrite N.eqb_refl, IH.
Qed.

Lemma startsWith_inv (s p : jsstring) :
  startsWith s p = true -> s = p ++ drop (length p) s.
Proof.
  revert s. induction p as [|a p IH]; intros [|b s]; simpl; try done.
  intros [Hab Hs]%andb_prop. apply N.eqb_eq in Hab as ->.
  f_equal. by apply IH.
Qed.

Lemma startsWith_trans (s p q : jsstring) :
  startsWith s p = false -> startsWith q p = true -> startsWith s q = false.
Proof.
  intros Hsp Hqp. destruct (startsWith s q) eqn:Hsq; [|done].
  apply startsWith_inv in Hsq. apply startsWith_inv in Hqp.
  rewrite Hsq, Hqp, <- app_assoc, startsWith_app in Hsp. done.
Qed.

Lemma includes_here (s p : jsstring) : includes (p ++ s) p = true.
Proof. destruct p; simpl; [by destruct s|]. by rewrite N.eqb_refl, startsWith_app. Qed.

Lemma includes_app_r (a b p : jsstring) :
  includes b p = true -> includes (a ++ b) p = true.
Proof.
  intros Hb. induction a as [|x a IH]; simpl; [done|].
  rewrite IH. apply orb_true_r.
Qed.

Lemma includes_middle (a p b : jsstring) : includes (a ++ p ++ b) p = true.
Proof. apply includes_app_r, includes_here. Qed.

(** ** White space at the two ends *)

Lemma forallb_rev {A} (f : A -> bool) (l : list A) :
  forallb f (rev l) = forallb f l.
Proof.
  induction l as [|x l IH]; simpl; [done|].
  rewrite forallb_app, IH. simpl. rewrite andb_true_r. apply andb_comm.
Qed.

Lemma trimStart_blank (s : jsstring) :
  forallb is_space s = true -> trimStart s = [].
Proof.
  induction s as [|c s IH]; simpl; [done|].
  intros [-> Hs]%andb_prop. by apply IH.
Qed.

Lemma trimStart_app (a b : jsstring) :
  trimStart (a ++ b) =
  if forallb is_space a then trimStart b else trimStart a ++ b.
Proof.
  induction a as [|c a IH]; simpl; [done|].
  destruct (is_space c); simpl; [apply IH|done].
Qed.

Lemma trimStart_split (s : jsstring) :
  exists w, s = w ++ trimStart s /\ forallb is_space w = true.
Proof.
  induction s as [|c s (w & Hw & Hws)]; [by exists []|].
  simpl. destruct (is_space c) eqn:Hc.
  - exists (c :: w). simpl. rewrite Hc, Hws. split; [by f_equal|done].
  - by exists [].
Qed.

Lemma trimStart_idem (s : jsstring) : trimStart (trimStart s) = trimStart s.
Proof.
  induction s as [|c s IH]; simpl; [done|].
  destruct (is_space c) eqn:Hc; [done|]. simpl. by rewrite Hc.
Qed.

Lemma trimEnd_cons (c : N) (s : jsstring) :
  trimEnd (c :: s) =
  if forallb is_space (c :: s) then [] else c :: trimEnd s.
Proof.
  unfold trimEnd. simpl rev. rewrite trimStart_app, forallb_rev. simpl.
  destruct (forallb is_space s) eqn:Hs.
  - rewrite (trimStart_blank (rev s)) by by rewrite forallb_rev.
    rewrite andb_true_r. by destruct (is_space c).
  - rewrite andb_false_r, rev_app_distr. done.
Qed.

Lemma trimEnd_blank (s : jsstring) :
  forallb is_space s = true -> trimEnd s = [].
Proof.
  intros Hs. unfold trimEnd. rewrite trimStart_blank; [done|].
  by rewrite forallb_rev.
Qed.

Lemma trimEnd_split (s : jsstring) : exists w, s = trimEnd s ++ w.
Proof.
  destruct (trimStart_split (rev s)) as (w & Hw & _).
  exists (rev w). unfold trimEnd. rewrite <- rev_app_distr, <- Hw.
  by rewrite rev_involutive.
Qed.

End StringFacts.

(* ===================================================================== *)
(** * The remote-judge path *)
(* ===================================================================== *)

Module ExtensionFacts.
Import Extension Props Runs StringFacts.

(** ** The closing fence *)

Lemma drop_closing_eq (s : jsstring) :
  drop_closing s =
  if bool_decide (trimStart s = fence) then []
  else match s with [] => [] | c :: r => c :: drop_closing r end.
Proof. by destruct s. Qed.

Lemma trimStart_fence_tail (w : jsstring) :
  forallb is_space w = true -> trimStart (w ++ fence) = fence.
Proof. intros Hw. rewrite trimStart_app, Hw. done. Qed.

Lemma trimStart_length (s : jsstring) : (length (trimStart s) <= length s)%nat.
Proof.
  destruct (trimStart_split s) as (w & Hw & _).
  rewrite Hw at 2. rewrite length_app. lia.
Qed.

Lemma trimStart_nonblank (s : jsstring) :
  forallb is_space s = false -> trimStart s <> [].
Proof.
  induction s as [|c s IH]; simpl; [done|].
  destruct (is_space c); simpl; [apply IH|done].
Qed.

(** The closing fence goes with the white space before it, and nothing
    else does. *)
Lemma drop_closing_app (s w : jsstring) :
  forallb is_space w = true -> drop_closing (s ++ w ++ fence) = trimEnd s.
Proof.
  intros Hw. induction s as [|c s IH].
  - simpl app. rewrite drop_closing_eq, trimStart_fence_tail by done.
    by rewrite bool_decide_eq_true_2.
  - rewrite drop_closing_eq, trimEnd_cons.
    change ((c :: s) ++ w ++ fence) with (c :: (s ++ w ++ fence)).
    rewrite <- IH.
    assert (trimStart (c :: s ++ w ++ fence) =
            if forallb is_space (c :: s) then trimStart (w ++ fence)
            else trimStart (c :: s) ++ w ++ fence) as Hts
      by apply (trimStart_app (c :: s) (w ++ fence)).
    destruct (forallb is_space (c :: s)) eqn:Hcs.
    + rewrite bool_decide_eq_true_2; [done|].
      by rewrite Hts, trimStart_fence_tail.
    + rewrite bool_decide_eq_false_2; [done|].
      rewrite Hts. intros Heq.
      pose proof (trimStart_nonblank _ Hcs) as Hne.
      destruct (trimStart (c :: s)) as [|x t]; [done|].
      apply (f_equal length) in Heq.
      rewrite !length_app in Heq. simpl in Heq. lia.
Qed.

Lemma drop_closing_prefix (s : jsstring) : exists post, s = drop_closing s ++ post.
Proof.
  induction s as [|c s (post & Hpost)].
  - by exists [].
  - rewrite drop_closing_eq. case_bool_decide.
    + by exists (c :: s).
    + exists post. simpl. by f_equal.
Qed.

(** ** Texts without white space at an end *)

Lemma no_trail_tail (c : N) (s : jsstring) : no_trail (c :: s) -> no_trail s.
Proof.
  unfold no_trail. rewrite trimEnd_cons.
  destruct (forallb is_space (c :: s)); [done|]. by intros [= ->].
Qed.

Lemma no_trail_nonblank (c : N) (s : jsstring) :
  no_trail (c :: s) -> forallb is_space (c :: s) = false.
Proof.
  unfold no_trail. rewrite trimEnd_cons.
  by destruct (forallb is_space (c :: s)).
Qed.

Lemma no_trail_suffix (a s : jsstring) : no_trail (a ++ s) -> no_trail s.
Proof.
  induction a as [|c a IH]; [done|].
  intros Hcs. apply IH. by apply no_trail_tail in Hcs.
Qed.

Lemma no_trail_trimStart (s : jsstring) : no_trail s -> no_trail (trimStart s).
Proof.
  destruct (trimStart_split s) as (w & Hw & _). intros Hs.
  rewrite Hw in Hs. by apply no_trail_suffix in Hs.
Qed.

Lemma no_trail_drop (k : nat) (s : jsstring) : no_trail s -> no_trail (drop k s).
Proof.
  intros Hs. rewrite <- (take_drop k s) in Hs. by apply no_trail_suffix in Hs.
Qed.

Lemma no_trail_trimEnd (s : jsstring) : no_trail (trimEnd s).
Proof.
  unfold no_trail, trimEnd. rewrite rev_involutive, trimStart_idem. done.
Qed.

Lemma no_lead_trimEnd (s : jsstring) : no_lead s -> no_lead (trimEnd s).
Proof.
  unfold no_lead. destruct s as [|c s]; [done|].
  rewrite trimEnd_cons. simpl.
  destruct (is_space c) eqn:Hc; simpl.
  - intros Heq. apply (f_equal length) in Heq.
    pose proof (trimStart_length s). simpl in Heq. lia.
  - by rewrite Hc.
Qed.

Lemma trim_fixed (s : jsstring) : no_lead s -> no_trail s -> trim s = s.
Proof. unfold trim. intros -> ->. done. Qed.

Lemma trim_no_lead (s : jsstring) : no_lead (trim s).
Proof. apply no_lead_trimEnd. apply trimStart_idem. Qed.

Lemma trim_no_trail (s : jsstring) : no_trail (trim s).
Proof. apply no_trail_trimEnd. Qed.

Lemma no_lead_drop_closing (s : jsstring) : no_lead s -> no_lead (drop_closing s).
Proof.
  unfold no_lead. destruct s as [|c s]; [done|].
  rewrite drop_closing_eq. case_bool_decide; [done|].
  simpl. destruct (is_space c); [|done].
  intros Heq. apply (f_equal length) in Heq.
  pose proof (trimStart_length s). simpl in Heq. lia.
Qed.

Lemma drop_closing_blank (s : jsstring) :
  no_trail s -> forallb is_space (drop_closing s) = true -> drop_closing s = [].
Proof.
  induction s as [|c s IH]; [done|].
  intros Hcs. rewrite drop_closing_eq. case_bool_decide as Hm; [done|].
  simpl. intros [Hc Hs]%andb_prop. exfalso.
  pose proof (no_trail_tail _ _ Hcs) as Htl.
  specialize (IH Htl Hs).
  rewrite drop_closing_eq in IH. case_bool_decide as Hm'.
  - apply Hm. simpl. by rewrite Hc.
  - destruct s; [|done].
    apply no_trail_nonblank in Hcs. simpl in Hcs. by rewrite Hc in Hcs.
Qed.

Lemma no_trail_drop_closing (s : jsstring) : no_trail s -> no_trail (drop_closing s).
Proof.
  induction s as [|c s IH]; [done|].
  intros Hcs. pose proof (drop_closing_blank _ Hcs) as Hblank.
  rewrite drop_closing_eq in Hblank |- *. case_bool_decide as Hm; [done|].
  unfold no_trail. rewrite trimEnd_cons.
  destruct (forallb is_space (c :: drop_closing s)) eqn:Hall.
  - by specialize (Hblank eq_refl).
  - f_equal. apply IH. by apply no_trail_tail in Hcs.
Qed.

(** ** Stripping *)

Lemma no_trail_snoc (s : jsstring) (c : N) : is_space c = false -> no_trail (s ++ [c]).
Proof.
  intros Hc. unfold no_trail, trimEnd.
  rewrite rev_app_distr. simpl. rewrite Hc. simpl.
  by rewrite rev_involutive.
Qed.

Lemma fenced_trimmed (opening inner : jsstring) :
  no_lead opening -> opening <> [] -> trim (fenced opening inner) = fenced opening inner.
Proof.
  intros Hlead Hne. apply trim_fixed.
  - unfold no_lead, fenced in *. destruct opening as [|c o]; [done|].
    simpl in *. destruct (is_space c); [|done].
    apply (f_equal length) in Hlead. pose proof (trimStart_length o).
    simpl in Hlead. lia.
  - replace (fenced opening inner)
      with ((opening ++ [10] ++ inner ++ [10] ++ [96; 96]) ++ [96])
      by (unfold fenced; by rewrite <- !app_assoc).
    by apply no_trail_snoc.
Qed.

(** After the opening fence and the line break of a fenced text. *)
Lemma after_opening (inner : jsstring) :
  drop_closing (trimStart ([10] ++ inner ++ [10] ++ fence)) = trim inner.
Proof.
  change (trimStart ([10] ++ inner ++ [10] ++ fence))
    with (trimStart (inner ++ [10] ++ fence)).
  rewrite trimStart_app. unfold trim.
  destruct (forallb is_space inner) eqn:Hin.
  - rewrite (trimStart_blank inner Hin). done.
  - by apply drop_closing_app.
Qed.

Lemma stripFence_json (inner : jsstring) :
  stripFence (fenced fence_json inner) = trim inner.
Proof.
  unfold stripFence. rewrite fenced_trimmed by done.
  unfold fenced at 1. rewrite startsWith_app.
  unfold drop_opening, fenced. rewrite startsWith_app, drop_app_length.
  apply after_opening.
Qed.

Lemma stripFence_plain (inner : jsstring) :
  stripFence (fenced fence inner) = trim inner.
Proof.
  unfold stripFence. rewrite fenced_trimmed by done.
  replace (startsWith (fenced fence inner) fence_json) with false by done.
  unfold fenced at 1. rewrite startsWith_app.
  unfold drop_opening, fenced. rewrite startsWith_app, drop_app_length.
  apply after_opening.
Qed.

Lemma stripFence_unfenced (s : jsstring) :
  startsWith (trim s) fence = false -> stripFence s = trim s.
Proof.
  intros Hs. unfold stripFence. rewrite Hs.
  by rewrite (startsWith_trans (trim s) fence fence_json).
Qed.

Lemma stripFence_trimmed (c : jsstring) : trim (stripFence c) = stripFence c.
Proof.
  pose proof (trim_no_lead c) as Hl. pose proof (trim_no_trail c) as Ht.
  assert (forall o, trim (drop_closing (drop_opening o (trim c)))
                    = drop_closing (drop_opening o (trim c))) as Hfenced.
  { intros o. apply trim_fixed.
    - apply no_lead_drop_closing. unfold drop_opening.
      destruct (startsWith (trim c) o); [apply trimStart_idem|done].
    - apply no_trail_drop_closing. unfold drop_opening.
      destruct (startsWith (trim c) o); [|done].
      by apply no_trail_trimStart, no_trail_drop. }
  unfold stripFence.
  destruct (startsWith (trim c) fence_json); [apply Hfenced|].
  destruct (startsWith (trim c) fence); [apply Hfenced|].
  by apply trim_fixed.
Qed.

Lemma stripFence_twice (c : jsstring) :
  startsWith (stripFence c) fence = false ->
  stripFence (stripFence c) = stripFence c.
Proof.
  intros Hc. rewrite stripFence_unfenced; rewrite stripFence_trimmed; done.
Qed.

Lemma occurs_in_refl (s : jsstring) : occurs_in s s.
Proof. exists [], []. by rewrite app_nil_r. Qed.

Lemma occurs_in_trans (a b c : jsstring) :
  occurs_in a b -> occurs_in b c -> occurs_in a c.
Proof.
  intros (p & q & ->) (p' & q' & ->).
  exists (p' ++ p), (q ++ q'). by rewrite <- !app_assoc.
Qed.

Lemma trim_occurs (s : jsstring) : occurs_in (trim s) s.
Proof.
  destruct (trimStart_split s) as (w & Hw & _).
  destruct (trimEnd_split (trimStart s)) as (v & Hv).
  exists w, v. unfold trim. by rewrite <- Hv.
Qed.

Lemma stripFence_occurs (c : jsstring) : occurs_in (stripFence c) c.
Proof.
  assert (forall o s, occurs_in (drop_closing (drop_opening o s)) s) as Hfenced.
  { intros o s.
    destruct (drop_closing_prefix (drop_opening o s)) as (post & Hpost).
    unfold drop_opening in *. destruct (startsWith s o).
    - destruct (trimStart_split (drop (length o) s)) as (w & Hw & _).
      exists (take (length o) s ++ w), post.
      rewrite <- app_assoc, <- Hpost, <- Hw. by rewrite take_drop.
    - by exists [], post. }
  apply occurs_in_trans with (trim c); [|apply trim_occurs].
  unfold stripFence.
  destruct (startsWith (trim c) fence_json); [apply Hfenced|].
  destruct (startsWith (trim c) fence); [apply Hfenced|].
  apply occurs_in_refl.
Qed.

Section Review.
Context `{Engine}.

(** ** The checklist loader of the extension *)

Lemma loadChecklist_missing (env : Env) (folder : Folder) (rest : list Folder) :
  workspaceFolders env = Some (folder :: rest) ->
  entry (js ".aicodechecklist.json") (files folder) = None ->
  loadChecklist env = VNull.
Proof. unfold loadChecklist. by intros -> ->. Qed.

Lemma loadChecklist_malformed (env : Env) (folder : Folder) (rest : list Folder)
    (content : jsstring) :
  workspaceFolders env = Some (folder :: rest) ->
  entry (js ".aicodechecklist.json") (files folder) = Some (File (Some content)) ->
  JSON_parse content = None ->
  loadChecklist env = VNull.
Proof. unfold loadChecklist. by intros -> -> ->. Qed.

(** C6 (as amended). For an inner text whose trimmed form does not begin
    with a fence marker, the completion fenced with the [json] tag, fenced
    without a tag and not fenced at all strip to the same text, the trimmed
    inner text, and so parse to the same JSON value; and stripping a stripped
    text again changes nothing whenever the stripped text does not itself
    begin with a fence marker. *)
Theorem fence_stripping_tolerant (inner c : jsstring) :
  startsWith (trim inner) fence = false ->
  startsWith (stripFence c) fence = false ->
  stripFence (fenced fence_json inner) = trim inner
  /\ stripFence (fenced fence inner) = trim inner
  /\ stripFence inner = trim inner
  /\ JSON_parse (stripFence (fenced fence_json inner)) = JSON_parse (stripFence inner)
  /\ JSON_parse (stripFence (fenced fence inner)) = JSON_parse (stripFence inner)
  /\ stripFence (stripFence c) = stripFence c.
Proof.
  intros Hinner Hc.
  rewrite stripFence_json, stripFence_plain, (stripFence_unfenced inner Hinner).
  repeat split. by apply stripFence_twice.
Qed.

(** C7. When the completion, fences stripped, is not JSON, the call throws
    an error whose message ends with the completion exactly as the judge sent
    it, of which the stripped text is a part; one request was sent, and
    nothing is returned, an empty verdict list included. *)
Theorem malformed_completion_is_reported (env : Env) (code : jsstring)
    (checklist : value) (apiKey : jsstring) (response : Response)
    (data : value) (c : jsstring) :
  OPENAI_API_KEY env = Some apiKey ->
  apiKey <> [] ->
  fetch env (request apiKey code checklist) = Some response ->
  ok response = true ->
  json response = Some data ->
  completion data = inr (VString c) ->
  JSON_parse (stripFence c) = None ->
  runLLMReview env code checklist =
    ([request apiKey code checklist],
     inl (Error (js "Failed to parse LLM JSON: " ++ c)))
  /\ occurs_in (stripFence c) c
  /\ (forall v, snd (runLLMReview env code checklist) <> inr v).
Proof.
  intros Hkey Hne Hfetch Hok Hjson Hcompletion Hparse.
  assert (runLLMReview env code checklist =
    ([request apiKey code checklist],
     inl (Error (js "Failed to parse LLM JSON: " ++ c)))) as Hrun.
  { unfold runLLMReview. rewrite Hkey. destruct apiKey as [|k ks]; [done|].
    rewrite Hfetch, Hok, Hjson, Hcompletion. simpl. by rewrite Hparse. }
  split; [done|]. split; [apply stripFence_occurs|].
  intros v. by rewrite Hrun.
Qed.

(** C8. Without the credential (the variable unset, or set to the empty
    string) the call throws before any request is made; with it, exactly one
    request is made, whatever comes back. *)
Theorem credential_gate (env : Env) (code : jsstring) (checklist : value) :
  (OPENAI_API_KEY env = None \/ OPENAI_API_KEY env = Some [] ->
   runLLMReview env code checklist =
     ([], inl (Error (js "OPENAI_API_KEY environment variable not set."))))
  /\ (forall apiKey, OPENAI_API_KEY env = Some apiKey -> apiKey <> [] ->
       fst (runLLMReview env code checklist) = [request apiKey code checklist]).
Proof.
  unfold runLLMReview. split.
  - by intros [-> | ->].
  - intros apiKey -> Hne. by destruct apiKey.
Qed.

End Review.

(** C6 as stated fails: the text [``` ```a] strips to [```a], which strips
    again to [a]; and a completion that is itself a fenced block parses once
    it is stripped, but not when it is the inner text of another fence. *)
Lemma stripping_twice_differs :
  stripFence (stripFence (js "``` ```a")) <> stripFence (js "``` ```a")
  /\ Reference.parse (stripFence (fenced fence_json (fenced fence_json (js "[1]")))) = None
  /\ Reference.parse (stripFence (fenced fence_json (js "[1]")))
     = Some (VArray [VNumber (Number 1 0)]).
Proof. split; [|split]; by vm_compute. Qed.

(** Scenario D of the specification. *)
Example scenario_D :
  @runLLMReview Reference.engine (judge fenced_verdicts (Some (js "sk-test")))
    (js "let x = 1;") VNull
  = ([@request Reference.engine (js "sk-test") (js "let x = 1;") VNull],
     inr (VArray [ VObject [ (js "id", VString (js "a"));
                             (js "status", VString (js "Pass"));
                             (js "reason", VString (js "ok")) ] ])).
Proof. by vm_compute. Qed.

Lemma fence_stripping_tolerant_witness :
  startsWith (trim (jq "[{'id':'a','status':'Pass','reason':'ok'}]")) fence = false
  /\ startsWith (stripFence fenced_verdicts) fence = false
  /\ stripFence fenced_verdicts = trim (jq "[{'id':'a','status':'Pass','reason':'ok'}]")
  /\ Reference.parse (stripFence fenced_verdicts)
     = Reference.parse (stripFence (jq "[{'id':'a','status':'Pass','reason':'ok'}]"))
  /\ stripFence (stripFence fenced_verdicts) = stripFence fenced_verdicts.
Proof.
  split; [by vm_compute|]. split; [by vm_compute|].
  destruct (@fence_stripping_tolerant Reference.engine
              (jq "[{'id':'a','status':'Pass','reason':'ok'}]") fenced_verdicts)
    as (Hjson & _ & _ & Hparse & _ & Htwice); [by vm_compute|by vm_compute|].
  split; [exact Hjson|]. split; [exact Hparse|exact Htwice].
Defined.

Lemma malformed_completion_is_reported_witness :
  Reference.parse (stripFence prose) = None
  /\ @runLLMReview Reference.engine (judge prose (Some (js "sk-test")))
       (js "let x = 1;") VNull
     = ([@request Reference.engine (js "sk-test") (js "let x = 1;") VNull],
        inl (Error (js "Failed to parse LLM JSON: " ++ prose)))
  /\ occurs_in (stripFence prose) prose.
Proof.
  split; [by vm_compute|].
  destruct (@malformed_completion_is_reported Reference.engine
    (judge prose (Some (js "sk-test"))) (js "let x = 1;") VNull (js "sk-test")
    {| ok := true; http_status := 200; text := None; json := Some (answer prose) |}
    (answer prose) prose) as (Hrun & Hocc & _); [by vm_compute ..|].
  split; [exact Hrun|exact Hocc].
Defined.

Lemma credential_gate_witness :
  @runLLMReview Reference.engine (judge prose None) (js "let x = 1;") VNull
  = ([], inl (Error (js "OPENAI_API_KEY environment variable not set.")))
  /\ fst (@runLLMReview Reference.engine (judge prose (Some (js "sk-test")))
            (js "let x = 1;") VNull)
     = [@request Reference.engine (js "sk-test") (js "let x = 1;") VNull].
Proof.
  split.
  - apply (@credential_gate Reference.engine (judge prose None)). by left.
  - apply (@credential_gate Reference.engine (judge prose (Some (js "sk-test")))).
    + reflexivity.
    + discriminate.
Defined.

End ExtensionFacts.

(* ===================================================================== *)
(** * The batch auditor *)
(* ===================================================================== *)

Module AuditFacts.
Import Audit Extension Props Runs StringFacts.

(** ** Truthiness *)

Lemma truthy_and_then (a : value) (f : value -> value) :
  truthy (and_then a f) = truthy a && truthy (f a).
Proof. unfold and_then. by destruct (truthy a) eqn:Ha. Qed.

Lemma truthy_or_else (a b : value) :
  truthy (or_else a b) = truthy a || truthy b.
Proof. unfold or_else. by destruct (truthy a) eqn:Ha. Qed.

(** ** The heuristics, one verdict each *)

Lemma test_exists_adds (w : World) (pkg : value) :
  adds (test_exists w pkg) (expect_test_exists w pkg).
Proof.
  intros st. unfold test_exists, expect_test_exists, tests_by_entry,
    truthy_script, declares_dev_dependency.
  rewrite truthy_and_then, truthy_or_else, !truthy_and_then.
  destruct (truthy pkg); simpl.
  - rewrite !orb_assoc.
    destruct (_ || _)%bool; simpl; by rewrite ?orb_false_r, ?orb_true_r.
  - rewrite !orb_false_r.
    destruct (_ || _)%bool; simpl; by rewrite ?orb_false_r, ?orb_true_r.
Qed.

Lemma test_checks_adds (w : World) (pkg : value) :
  adds (test_checks w pkg) (expect_test_checks w pkg).
Proof.
  intros st. unfold test_checks, expect_test_checks, truthy_script,
    run_command, lint_command, test_command.
  rewrite !truthy_and_then, !truthy_or_else.
  destruct (truthy pkg), (truthy (prop pkg (js "scripts"))),
    (truthy (prop (prop pkg (js "scripts")) (js "lint"))),
    (truthy (prop (prop pkg (js "scripts")) (js "test"))),
    (truthy (prop (prop pkg (js "scripts")) (js "build")));
    simpl;
    try destruct (exit_zero (execSync w (js "npm run lint --silent")));
    try destruct (exit_zero (execSync w (js "npm test --silent")));
    simpl; by rewrite ?orb_false_r, ?orb_true_r.
Qed.

Lemma test_checks_executed (w : World) (pkg : value) (st : State) :
  executed (test_checks w pkg st) = executed st ++ ran_commands pkg
  /\ opened (test_checks w pkg st) = opened st.
Proof.
  unfold test_checks, ran_commands, truthy_script,
    run_command, lint_command, test_command.
  rewrite !truthy_and_then, !truthy_or_else.
  destruct (truthy pkg), (truthy (prop pkg (js "scripts"))),
    (truthy (prop (prop pkg (js "scripts")) (js "lint"))),
    (truthy (prop (prop pkg (js "scripts")) (js "test"))),
    (truthy (prop (prop pkg (js "scripts")) (js "build")));
    simpl;
    try destruct (exit_zero (execSync w (js "npm run lint --silent")));
    try destruct (exit_zero (execSync w (js "npm test --silent")));
    simpl; by rewrite ?app_nil_r.
Qed.

Lemma read_format_adds (w : World) (pkg : value) :
  adds (read_format w pkg) (expect_read_format w pkg).
Proof.
  intros st. unfold read_format, expect_read_format, format_config,
    declares_dev_dependency.
  rewrite !truthy_and_then, truthy_or_else.
  destruct (truthy pkg), (truthy (prop pkg (js "devDependencies"))),
    (truthy (prop (prop pkg (js "devDependencies")) (js "eslint"))),
    (truthy (prop (prop pkg (js "devDependencies")) (js "prettier"))),
    (exists_ w (js ".eslintrc")), (exists_ w (js ".eslintrc.js")),
    (exists_ w (js ".prettierrc")); simpl; by rewrite ?orb_false_r.
Qed.

(** ** The secret pattern, as a list of words *)

Lemma ci_startsWith_app (s a b : jsstring) :
  ci_startsWith s (a ++ b) = ci_startsWith s a && ci_startsWith (drop (length a) s) b.
Proof.
  revert s. induction a as [|c a IH]; intros s; simpl; [done|].
  destruct s as [|x s]; simpl; [done|].
  by rewrite IH, andb_assoc.
Qed.

Lemma match_here_lit (l : jsstring) (re : list atom) (s : jsstring) :
  match_here (List.map Lit l ++ re) s
  = ci_startsWith s l && match_here re (drop (length l) s).
Proof.
  revert s. induction l as [|c l IH]; intros s; simpl; [done|].
  destruct s as [|x s]; simpl; [done|].
  by rewrite IH, andb_assoc.
Qed.

Lemma match_here_word (l : jsstring) (s : jsstring) :
  match_here (List.map Lit l) s = ci_startsWith s l.
Proof.
  rewrite <- (app_nil_r (List.map Lit l)), match_here_lit. simpl.
  apply andb_true_r.
Qed.

Lemma match_here_opt (cs : list N) (re : list atom) (s : jsstring) :
  match_here (OptOneOf cs :: re) s
  = match s with
    | x :: s' => existsb (same_letter x) cs && match_here re s'
    | [] => false
    end || match_here re s.
Proof. done. Qed.

Lemma match_here_api_key (s : jsstring) :
  match_here (lit "api" ++ [OptOneOf [95; 45]] ++ lit "key") s
  = ci_startsWith s (js "api_key") || ci_startsWith s (js "api-key")
    || ci_startsWith s (js "apikey").
Proof.
  unfold lit.
  change ([OptOneOf [95; 45]] ++ List.map Lit (js "key"))
    with (OptOneOf [95; 45] :: List.map Lit (js "key")).
  rewrite match_here_lit, match_here_opt, !match_here_word.
  change (js "api_key") with (js "api" ++ [95] ++ js "key").
  change (js "api-key") with (js "api" ++ [45] ++ js "key").
  change (js "apikey") with (js "api" ++ js "key").
  rewrite !ci_startsWith_app.
  generalize (drop (length (js "api")) s). intros t.
  destruct (ci_startsWith s (js "api")); cbn [andb orb]; [|done].
  destruct t as [|x t]; cbn [drop length].
  - by destruct (ci_startsWith [] (js "key")).
  - rewrite match_here_word, drop_0.
    generalize (ci_startsWith t (js "key")) (ci_startsWith (x :: t) (js "key")).
    intros k1 k2. cbn [ci_startsWith existsb].
    by destruct (same_letter x 95), (same_letter x 45), k1, k2.
Qed.

Lemma pattern_here (s : jsstring) :
  existsb (fun alt => match_here alt s) secret_pattern
  = existsb (ci_startsWith s) pattern_triggers.
Proof.
  unfold secret_pattern, pattern_triggers. cbn [existsb].
  rewrite match_here_api_key. unfold lit. rewrite !match_here_word.
  by rewrite <- !orb_assoc.
Qed.

Lemma existsb_orb {A} (f g : A -> bool) (l : list A) :
  existsb (fun x => f x || g x) l = existsb f l || existsb g l.
Proof.
  induction l as [|x l IH]; simpl; [done|]. rewrite IH.
  destruct (f x), (g x), (existsb f l), (existsb g l); done.
Qed.

(** The pattern matches a text exactly when the text contains one of its
    eleven words, letter case aside. *)
Lemma regex_test_words (s : jsstring) :
  regex_test secret_pattern s = existsb (ci_includes s) pattern_triggers.
Proof.
  induction s as [|x s IH].
  - cbn [regex_test]. rewrite pattern_here.
    cbn [ci_includes]. by rewrite existsb_orb.
  - cbn [regex_test]. rewrite pattern_here, IH.
    cbn [ci_includes]. by rewrite existsb_orb.
Qed.

(** ** The walk *)

Lemma walk_node_files {S : Type} (cb : jsstring -> option jsstring -> S -> S) :
  forall (n : node) (fp : jsstring) (s : S),
    walk_node cb fp n s
    = (fold_left (fun s f => cb (fst f) (snd f) s) (files_under fp n) s,
       if walkable_node n then None else Some SystemError).
Proof.
  fix IH 1. intros [c|es| |] fp s; [done| |done|done].
  cbn [walk_node files_under walkable_node]. revert s.
  induction es as [|[f m] r IHr]; intros s; [done|].
  rewrite IH, fold_left_app.
  destruct (walkable_node m); cbn [andb fold_left]; [apply IHr|done].
Qed.

Lemma scan_files (fs : list (jsstring * option jsstring))
    (suspicious log : list jsstring) :
  fold_left (fun acc f => scan_file (fst f) (snd f) acc) fs (suspicious, log)
  = (suspicious ++ List.map fst (List.filter (flags pattern_triggers) fs),
     log ++ List.map fst (List.filter (fun f => negb (excluded (fst f))) fs)).
Proof.
  revert suspicious log. induction fs as [|[fp c] fs IH]; intros suspicious log.
  - simpl. by rewrite !app_nil_r.
  - cbn [fold_left List.filter fst snd]. unfold scan_file at 2, flags, excluded.
    cbn [fst snd].
    destruct (includes fp (js "node_modules") || includes fp (js ".git"))%bool;
      cbn [orb negb andb]; [apply IH|].
    destruct (existsb _ skipped_extensions); cbn [negb andb]; [apply IH|].
    destruct c as [txt|].
    + rewrite regex_test_words.
      destruct (existsb (ci_includes txt) pattern_triggers);
        rewrite IH; cbn [List.map fst]; by rewrite <- !app_assoc.
    + rewrite IH. cbn [List.map fst]. by rewrite <- !app_assoc.
Qed.

(** What the scan gathers: the flagged files and the files opened among the
    ones the walk meets, and the exception of a tree it cannot get
    through. *)
Lemma scan_world (w : World) :
  scan w
  = ((flagged pattern_triggers w,
      List.map fst (List.filter (fun f => negb (excluded (fst f))) (files_of w))),
     if walkable w then None else Some SystemError).
Proof. unfold scan, walk. rewrite walk_node_files. f_equal. apply scan_files. Qed.

Lemma sec_secrets_adds (w : World) :
  walkable w = true -> adds (sec_secrets w) (expect_sec_secrets w).
Proof.
  intros Hw st. unfold sec_secrets, expect_sec_secrets. rewrite scan_world, Hw.
  destruct (flagged pattern_triggers w); simpl;
    by rewrite ?orb_false_r, ?orb_true_r.
Qed.

(** In a tree the walk cannot get through the scan adds no verdict and
    leaves with the exception of the file system. *)
Lemma sec_secrets_stops (w : World) (st : State) :
  walkable w = false ->
  results (sec_secrets w st) = results st
  /\ hasFail (sec_secrets w st) = hasFail st
  /\ uncaught (sec_secrets w st) = Some SystemError.
Proof. intros Hw. unfold sec_secrets. by rewrite scan_world, Hw. Qed.

Lemma sec_secrets_opened (w : World) (st : State) :
  executed (sec_secrets w st) = executed st
  /\ opened (sec_secrets w st)
     = opened st
       ++ List.map fst (List.filter (fun f => negb (excluded (fst f))) (files_of w)).
Proof.
  unfold sec_secrets. rewrite scan_world.
  by destruct (walkable w), (flagged pattern_triggers w).
Qed.

(** ** The fallback loop *)

Lemma existsb_str_eqb (x : jsstring) (l : list jsstring) :
  existsb (str_eqb x) l = true <-> x ∈ l.
Proof.
  rewrite existsb_exists. setoid_rewrite <- list_elem_of_In.
  unfold str_eqb. split.
  - intros (y & Hy & Heq). by apply bool_decide_eq_true in Heq as ->.
  - intros Hx. exists x. split; [done|]. by apply bool_decide_eq_true.
Qed.

Lemma existsb_verdict_id (x : jsstring) (rs : list Verdict) :
  existsb (fun r => str_eqb (verdict_id r) x) rs = true
  <-> x ∈ verdict_id <$> rs.
Proof.
  rewrite existsb_exists, list_elem_of_fmap.
  setoid_rewrite <- list_elem_of_In. unfold str_eqb. split.
  - intros (r & Hr & Heq). apply bool_decide_eq_true in Heq. by exists r.
  - intros (r & -> & Hr). exists r. split; [done|]. by apply bool_decide_eq_true.
Qed.

Lemma has_item_ids (checklist : ChecklistDocument) (x : jsstring) :
  has_item checklist x = true <-> x ∈ item_ids checklist.
Proof.
  unfold has_item, item_ids. rewrite existsb_exists, list_elem_of_In, in_flat_map.
  split.
  - intros (c & Hc & Hex). exists c. split; [done|].
    apply existsb_exists in Hex as (i & Hi & Heq).
    apply bool_decide_eq_true in Heq as <-. by apply in_map.
  - intros (c & Hc & Hin). exists c. split; [done|].
    apply in_map_iff in Hin as (i & <- & Hi).
    apply existsb_exists. exists i. split; [done|]. by apply bool_decide_eq_true.
Qed.

Lemma default_items_flat (checklist : ChecklistDocument) (st : State) :
  default_items checklist st
  = fold_left (fun st i => default_item i st)
      (flat_map items (categories checklist)) st.
Proof.
  unfold default_items. revert st.
  induction (categories checklist) as [|c cs IH]; intros st; [done|].
  simpl. by rewrite fold_left_app, IH.
Qed.

Lemma item_ids_flat (checklist : ChecklistDocument) :
  item_ids checklist = List.map id (flat_map items (categories checklist)).
Proof.
  unfold item_ids.
  induction (categories checklist) as [|c cs IH]; [done|].
  simpl. by rewrite map_app, IH.
Qed.

(** What the loop appends: for every id that no heuristic knows and that has
    no verdict yet, one verdict asking for manual review. *)
Lemma default_fold (its : list ChecklistItem) (st : State) :
  let st' := fold_left (fun st i => default_item i st) its st in
  exists extra,
    results st' = results st ++ extra
    /\ hasFail st' = hasFail st
    /\ executed st' = executed st
    /\ opened st' = opened st
    /\ Forall (fun r => status r = NeedsAttention /\ reason r = manual_review
                        /\ verdict_id r ∈ List.map id its
                        /\ verdict_id r ∉ recognized) extra
    /\ (forall i, i ∈ its -> id i ∉ recognized ->
          id i ∈ verdict_id <$> results st').
Proof.
  revert st. induction its as [|i its IH]; intros st; simpl.
  - exists []. rewrite app_nil_r. repeat split; try done.
    intros i Hi. by apply elem_of_nil in Hi.
  - destruct (IH (default_item i st)) as (extra & Hres & Hfail & Hex & Hop & Hall & Hcov).
    assert (Forall (fun r => status r = NeedsAttention /\ reason r = manual_review
                        /\ verdict_id r ∈ id i :: List.map id its
                        /\ verdict_id r ∉ recognized) extra) as Hall'.
    { eapply Forall_impl; [exact Hall|]. intros r (? & ? & ? & ?).
      repeat split; try done. by apply list_elem_of_further. }
    assert (forall j, j ∈ i :: its ->
              id j ∈ verdict_id <$> results (default_item i st) ->
              id j ∈ verdict_id <$> results
                (fold_left (fun st i => default_item i st) its (default_item i st)))
      as Hkeep.
    { intros j _ Hj. rewrite Hres, fmap_app. apply elem_of_app. by left. }
    unfold default_item in *.
    destruct (existsb (str_eqb (id i)) recognized) eqn:Hrec.
    + exists extra. repeat split; try done.
      intros j [->|Hj]%elem_of_cons Hnr; [|by apply Hcov].
      by apply existsb_str_eqb in Hrec.
    + destruct (existsb (fun r => str_eqb (verdict_id r) (id i)) (results st)) eqn:Hseen.
      * exists extra. repeat split; try done.
        intros j [->|Hj]%elem_of_cons Hnr; [|by apply Hcov].
        apply Hkeep; [apply list_elem_of_here|]. by apply existsb_verdict_id.
      * exists ({| verdict_id := id i; status := NeedsAttention;
                   reason := manual_review |} :: extra).
        cbn [na push results hasFail executed opened] in Hres, Hfail, Hex, Hop.
        rewrite Hres, <- app_assoc. repeat split; try done.
        -- constructor; [|done]. repeat split; try done.
           ++ apply list_elem_of_here.
           ++ cbn [verdict_id]. intros Hin. apply existsb_str_eqb in Hin.
              by rewrite Hin in Hrec.
        -- intros j [->|Hj]%elem_of_cons Hnr; [|rewrite app_assoc, <- Hres; by apply Hcov].
           rewrite fmap_app. apply elem_of_app. right. csimpl.
           apply list_elem_of_here.
Qed.

(** ** The whole audit *)

Lemma default_fold_uncaught (its : list ChecklistItem) (st : State) :
  uncaught (fold_left (fun st i => default_item i st) its st) = uncaught st.
Proof.
  revert st. induction its as [|i its IH]; intros st; [done|].
  cbn [fold_left]. rewrite IH. unfold default_item.
  by repeat match goal with |- context [if ?b then _ else _] => destruct b end.
Qed.

Lemma when_adds (b : bool) (f : State -> State) (v : Verdict) (st : State) :
  (b = true -> adds f v) ->
  results (when b f st) = results st ++ (if b then [v] else [])
  /\ hasFail (when b f st) = hasFail st || any_fail (if b then [v] else [])
  /\ uncaught (when b f st) = uncaught st.
Proof.
  intros Hf. destruct b; simpl.
  - destruct (Hf eq_refl st) as (-> & -> & ->). by rewrite orb_false_r.
  - by rewrite app_nil_r, orb_false_r.
Qed.

Lemma step_run (f : State -> State) (st : State) :
  uncaught st = None -> step f st = f st.
Proof. unfold step. by intros ->. Qed.

Lemma step_skip (f : State -> State) (st : State) (e : thrown) :
  uncaught st = Some e -> step f st = st.
Proof. unfold step. by intros ->. Qed.

Lemma any_fail_app (a b : list Verdict) :
  any_fail (a ++ b) = any_fail a || any_fail b.
Proof. apply existsb_app. Qed.

Lemma heuristic_ids (w : World) (checklist : ChecklistDocument) (pkg : value) :
  Forall (fun r => verdict_id r ∈ recognized /\ verdict_id r ∈ item_ids checklist)
         (heuristic_verdicts w checklist pkg).
Proof.
  unfold heuristic_verdicts, asked.
  repeat (apply Forall_app; split);
    (destruct (has_item checklist _) eqn:Hhas; [|by constructor]);
    apply has_item_ids in Hhas; (constructor; [|by constructor]).
  - unfold expect_test_exists. destruct (tests_by_entry w pkg);
      (split; [by apply existsb_str_eqb|done]).
  - unfold expect_test_checks.
    repeat match goal with |- context [if ?b then _ else _] => destruct b end;
      (split; [by apply existsb_str_eqb|done]).
  - unfold expect_sec_secrets. destruct (flagged pattern_triggers w);
      (split; [by apply existsb_str_eqb|done]).
  - unfold expect_read_format. destruct (format_config w pkg);
      (split; [by apply existsb_str_eqb|done]).
Qed.

(** The two heuristics that come before the scan. *)
Lemma before_scan (w : World) (checklist : ChecklistDocument) (pkg : value) :
  let st :=
    when (has_item checklist (js "test_checks")) (test_checks w pkg)
      (when (has_item checklist (js "test_exists")) (test_exists w pkg) initial) in
  results st
  = asked checklist "test_exists" (expect_test_exists w pkg)
    ++ asked checklist "test_checks" (expect_test_checks w pkg)
  /\ hasFail st
     = any_fail (asked checklist "test_exists" (expect_test_exists w pkg)
                 ++ asked checklist "test_checks" (expect_test_checks w pkg))
  /\ uncaught st = None
  /\ step (when (has_item checklist (js "test_checks")) (test_checks w pkg))
       (step (when (has_item checklist (js "test_exists")) (test_exists w pkg))
          initial) = st.
Proof.
  intros st. subst st. unfold asked.
  destruct (when_adds (has_item checklist (js "test_exists")) _ _ initial
              (fun _ => test_exists_adds w pkg)) as (R1 & F1 & U1).
  destruct (when_adds (has_item checklist (js "test_checks")) _ _
              (when (has_item checklist (js "test_exists")) (test_exists w pkg) initial)
              (fun _ => test_checks_adds w pkg)) as (R2 & F2 & U2).
  rewrite R2, R1, F2, F1, U2, U1. cbn [results hasFail uncaught initial].
  rewrite any_fail_app, (step_run _ initial) by done.
  by rewrite step_run by (by rewrite U1).
Qed.

(** A run whose scan gets through the tree is the four heuristics the
    checklist asks for, one after the other, and then the fallback loop. *)
Lemma audit_heuristics (w : World) (checklist : ChecklistDocument) (pkg : value) :
  gets_through w checklist = true ->
  let st :=
    when (has_item checklist (js "read_format")) (read_format w pkg)
      (when (has_item checklist (js "sec_secrets")) (sec_secrets w)
        (when (has_item checklist (js "test_checks")) (test_checks w pkg)
          (when (has_item checklist (js "test_exists")) (test_exists w pkg)
            initial))) in
  results st = heuristic_verdicts w checklist pkg
  /\ hasFail st = any_fail (heuristic_verdicts w checklist pkg)
  /\ uncaught st = None
  /\ audit w checklist pkg = default_items checklist st.
Proof.
  intros Hg st. subst st. unfold heuristic_verdicts.
  destruct (before_scan w checklist pkg) as (R2 & F2 & U2 & E2).
  cbn zeta in R2, F2, U2, E2.
  assert (has_item checklist (js "sec_secrets") = true ->
          adds (sec_secrets w) (expect_sec_secrets w)) as Hss.
  { intros Hb. apply sec_secrets_adds. unfold gets_through in Hg.
    by rewrite Hb in Hg. }
  destruct (when_adds (has_item checklist (js "sec_secrets")) _ _
              (when (has_item checklist (js "test_checks")) (test_checks w pkg)
                (when (has_item checklist (js "test_exists")) (test_exists w pkg) initial))
              Hss) as (R3 & F3 & U3).
  destruct (when_adds (has_item checklist (js "read_format")) _ _
              (when (has_item checklist (js "sec_secrets")) (sec_secrets w)
                (when (has_item checklist (js "test_checks")) (test_checks w pkg)
                  (when (has_item checklist (js "test_exists")) (test_exists w pkg) initial)))
              (fun _ => read_format_adds w pkg)) as (R4 & F4 & U4).
  split; [|split; [|split]].
  - rewrite R4, R3, R2. unfold asked. by rewrite <- !app_assoc.
  - rewrite F4, F3, F2. unfold asked.
    by rewrite !any_fail_app, <- !orb_assoc.
  - by rewrite U4, U3, U2.
  - unfold audit. rewrite E2.
    rewrite (step_run (when (has_item checklist (js "sec_secrets")) _)) by done.
    rewrite (step_run (when (has_item checklist (js "read_format")) _))
      by (by rewrite U3).
    by rewrite step_run by (by rewrite U4, U3).
Qed.

(** A run whose scan does not get through the tree ends in the scan. *)
Lemma audit_stopped (w : World) (checklist : ChecklistDocument) (pkg : value) :
  gets_through w checklist = false ->
  has_item checklist (js "sec_secrets") = true
  /\ walkable w = false
  /\ audit w checklist pkg
     = sec_secrets w
         (when (has_item checklist (js "test_checks")) (test_checks w pkg)
           (when (has_item checklist (js "test_exists")) (test_exists w pkg) initial))
  /\ uncaught (audit w checklist pkg) = Some SystemError.
Proof.
  unfold gets_through. intros Hg.
  destruct (has_item checklist (js "sec_secrets")) eqn:Hss; [|done].
  destruct (walkable w) eqn:Hw; [done|].
  destruct (before_scan w checklist pkg) as (_ & _ & U2 & E2). cbn zeta in U2, E2.
  assert (audit w checklist pkg
          = sec_secrets w
              (when (has_item checklist (js "test_checks")) (test_checks w pkg)
                (when (has_item checklist (js "test_exists")) (test_exists w pkg)
                   initial))) as Ha.
  { unfold audit. rewrite E2, Hss. cbn [when].
    rewrite (step_run (sec_secrets w)) by done.
    destruct (sec_secrets_stops w
                (when (has_item checklist (js "test_checks")) (test_checks w pkg)
                  (when (has_item checklist (js "test_exists")) (test_exists w pkg)
                     initial)) Hw) as (_ & _ & U3).
    rewrite (step_skip (when _ _) _ SystemError U3).
    by rewrite (step_skip _ _ SystemError U3). }
  split; [done|]. split; [done|]. split; [done|]. rewrite Ha.
  by apply sec_secrets_stops.
Qed.

Lemma audit_uncaught (w : World) (checklist : ChecklistDocument) (pkg : value) :
  uncaught (audit w checklist pkg)
  = if gets_through w checklist then None else Some SystemError.
Proof.
  destruct (gets_through w checklist) eqn:Hg.
  - destruct (audit_heuristics w checklist pkg Hg) as (_ & _ & U & ->).
    rewrite default_items_flat, default_fold_uncaught. exact U.
  - by destruct (audit_stopped w checklist pkg Hg) as (_ & _ & _ & ->).
Qed.

(** The results of a run that gets through: the verdicts of the heuristics
    asked for, then the fallback verdicts, which cover every other id of the
    checklist. *)
Lemma audit_results (w : World) (checklist : ChecklistDocument) (pkg : value) :
  gets_through w checklist = true ->
  exists extra,
    results (audit w checklist pkg) = heuristic_verdicts w checklist pkg ++ extra
    /\ Forall (is_fallback checklist) extra
    /\ (forall i, i ∈ item_ids checklist -> i ∉ recognized ->
          i ∈ verdict_id <$> extra)
    /\ hasFail (audit w checklist pkg)
       = any_fail (heuristic_verdicts w checklist pkg ++ extra).
Proof.
  intros Hg.
  destruct (audit_heuristics w checklist pkg Hg) as (Hres & Hfail & _ & ->).
  cbn zeta in Hres, Hfail. rewrite default_items_flat.
  match goal with |- context [fold_left _ _ ?st] =>
    destruct (default_fold (flat_map items (categories checklist)) st)
      as (extra & Hr & Hf & _ & _ & Hall & Hcov) end.
  simpl in Hr, Hf, Hcov. rewrite Hres in Hr. rewrite Hfail in Hf.
  exists extra. rewrite Hr, Hf. rewrite <- item_ids_flat in Hall.
  assert (Forall (is_fallback checklist) extra) as Hfb.
  { eapply Forall_impl; [exact Hall|]. by intros r (? & ? & ? & ?). }
  repeat split; try done.
  - intros i Hi Hnr. rewrite item_ids_flat in Hi.
    apply list_elem_of_fmap in Hi as (it & -> & Hit).
    specialize (Hcov it Hit Hnr). rewrite Hr, fmap_app in Hcov.
    apply elem_of_app in Hcov as [Hh|He]; [|done].
    apply list_elem_of_fmap in Hh as (r & Hid & Hr').
    pose proof (heuristic_ids w checklist pkg) as Hids.
    rewrite Forall_forall in Hids. destruct (Hids r Hr') as [Hrec _].
    by rewrite <- Hid in Hrec.
  - rewrite any_fail_app.
    replace (any_fail extra) with false; [by rewrite orb_false_r|].
    symmetry. apply not_true_is_false. unfold any_fail.
    rewrite existsb_exists. intros (r & Hr' & Hs).
    apply list_elem_of_In in Hr'. rewrite Forall_forall in Hfb.
    destruct (Hfb r Hr') as (Hna & _). rewrite Hna in Hs. done.
Qed.

(** The effects of a run, whether the scan gets through or not. *)
Lemma audit_effects (w : World) (checklist : ChecklistDocument) (pkg : value) :
  executed (audit w checklist pkg)
    = (if has_item checklist (js "test_checks") then ran_commands pkg else [])
  /\ opened (audit w checklist pkg)
    = (if has_item checklist (js "sec_secrets")
       then List.map fst (List.filter (fun f => negb (excluded (fst f))) (files_of w))
       else []).
Proof.
  assert (forall st, executed (test_exists w pkg st) = executed st
                     /\ opened (test_exists w pkg st) = opened st) as Hte.
  { intros st. unfold test_exists. by destruct (_ || _)%bool. }
  assert (forall st, executed (read_format w pkg st) = executed st
                     /\ opened (read_format w pkg st) = opened st) as Hrf.
  { intros st. unfold read_format. by destruct (_ || _)%bool. }
  destruct (gets_through w checklist) eqn:Hg.
  - destruct (audit_heuristics w checklist pkg Hg) as (_ & _ & _ & ->).
    rewrite default_items_flat.
    match goal with |- context [fold_left _ _ ?st] =>
      destruct (default_fold (flat_map items (categories checklist)) st)
        as (extra & _ & _ & He & Ho & _ & _) end.
    simpl in He, Ho. rewrite He, Ho. clear He Ho.
    unfold when.
    destruct (has_item checklist (js "read_format"));
      [rewrite (proj1 (Hrf _)), (proj2 (Hrf _))|];
      (destruct (has_item checklist (js "sec_secrets"));
       [rewrite (proj1 (sec_secrets_opened w _)), (proj2 (sec_secrets_opened w _))|]);
      (destruct (has_item checklist (js "test_checks"));
       [rewrite (proj1 (test_checks_executed w pkg _)),
                (proj2 (test_checks_executed w pkg _))|]);
      (destruct (has_item checklist (js "test_exists"));
       [rewrite (proj1 (Hte _)), (proj2 (Hte _))|]);
      done.
  - destruct (audit_stopped w checklist pkg Hg) as (-> & _ & -> & _).
    rewrite (proj1 (sec_secrets_opened w _)), (proj2 (sec_secrets_opened w _)).
    unfold when.
    (destruct (has_item checklist (js "test_checks"));
     [rewrite (proj1 (test_checks_executed w pkg _)),
              (proj2 (test_checks_executed w pkg _))|]);
      (destruct (has_item checklist (js "test_exists"));
       [rewrite (proj1 (Hte _)), (proj2 (Hte _))|]);
      done.
Qed.

(** ** The verdicts for one id *)

Lemma verdicts_for_app (x : jsstring) (a b : list Verdict) :
  verdicts_for x (a ++ b) = verdicts_for x a ++ verdicts_for x b.
Proof. apply List.filter_app. Qed.

Lemma verdicts_for_fallback (checklist : ChecklistDocument) (x : jsstring)
    (extra : list Verdict) :
  x ∈ recognized -> Forall (is_fallback checklist) extra -> verdicts_for x extra = [].
Proof.
  intros Hx. induction 1 as [|r extra (_ & _ & _ & Hr) _ IH]; [done|].
  simpl. rewrite IH. unfold str_eqb. rewrite bool_decide_eq_false_2; [done|].
  intros Heq. by rewrite Heq in Hr.
Qed.

Lemma expect_ids (w : World) (pkg : value) :
  verdict_id (expect_test_exists w pkg) = js "test_exists"
  /\ verdict_id (expect_test_checks w pkg) = js "test_checks"
  /\ verdict_id (expect_sec_secrets w) = js "sec_secrets"
  /\ verdict_id (expect_read_format w pkg) = js "read_format".
Proof.
  unfold expect_test_exists, expect_test_checks, expect_sec_secrets,
    expect_read_format.
  repeat split;
    repeat match goal with
           | |- context [if ?b then _ else _] => destruct b
           | |- context [match ?l with [] => _ | _ :: _ => _ end] => destruct l
           end; done.
Qed.

Lemma verdicts_for_one (x : jsstring) (v : Verdict) (b : bool) :
  verdicts_for x (if b then [v] else [])
  = if b && str_eqb (verdict_id v) x then [v] else [].
Proof. destruct b; simpl; [|done]. by destruct (str_eqb (verdict_id v) x). Qed.

(** Among the verdicts of the heuristics, the ones for a given id. *)
Lemma verdicts_for_heuristics (w : World) (checklist : ChecklistDocument)
    (pkg : value) (x : jsstring) :
  verdicts_for x (heuristic_verdicts w checklist pkg)
  = (if has_item checklist (js "test_exists") && str_eqb (js "test_exists") x
     then [expect_test_exists w pkg] else [])
    ++ (if has_item checklist (js "test_checks") && str_eqb (js "test_checks") x
        then [expect_test_checks w pkg] else [])
    ++ (if has_item checklist (js "sec_secrets") && str_eqb (js "sec_secrets") x
        then [expect_sec_secrets w] else [])
    ++ (if has_item checklist (js "read_format") && str_eqb (js "read_format") x
        then [expect_read_format w pkg] else []).
Proof.
  unfold heuristic_verdicts, asked. rewrite !verdicts_for_app, !verdicts_for_one.
  destruct (expect_ids w pkg) as (-> & -> & -> & ->). done.
Qed.

(** The verdicts of the two heuristics that come before the scan are in
    the result list whether the scan gets through or not. *)
Lemma audit_early (w : World) (checklist : ChecklistDocument) (pkg : value)
    (x : jsstring) :
  x = js "test_exists" \/ x = js "test_checks" ->
  verdicts_for x (results (audit w checklist pkg))
  = (if has_item checklist (js "test_exists") && str_eqb (js "test_exists") x
     then [expect_test_exists w pkg] else [])
    ++ (if has_item checklist (js "test_checks") && str_eqb (js "test_checks") x
        then [expect_test_checks w pkg] else []).
Proof.
  intros Hx.
  assert (str_eqb (js "sec_secrets") x = false
          /\ str_eqb (js "read_format") x = false) as [Hss Hrf]
    by (destruct Hx as [->| ->]; by vm_compute).
  destruct (gets_through w checklist) eqn:Hg.
  - destruct (audit_results w checklist pkg Hg) as (extra & -> & Hfb & _ & _).
    rewrite verdicts_for_app, (verdicts_for_fallback checklist x extra);
      [|destruct Hx as [->| ->]; by apply existsb_str_eqb|done].
    rewrite verdicts_for_heuristics, Hss, Hrf, !andb_false_r.
    by rewrite !app_nil_r.
  - destruct (audit_stopped w checklist pkg Hg) as (_ & Hw & -> & _).
    destruct (sec_secrets_stops w
                (when (has_item checklist (js "test_checks")) (test_checks w pkg)
                  (when (has_item checklist (js "test_exists")) (test_exists w pkg)
                     initial)) Hw) as (-> & _ & _).
    destruct (before_scan w checklist pkg) as (R & _). cbn zeta in R. rewrite R.
    unfold asked. rewrite verdicts_for_app, !verdicts_for_one.
    by destruct (expect_ids w pkg) as (-> & -> & _ & _).
Qed.

Section Main.
Context `{Engine}.

Lemma main_audit (w : World) (checklist : ChecklistDocument) (pkg : value) :
  loads w checklist pkg ->
  main w = match uncaught (audit w checklist pkg) with
           | Some e => Uncaught e
           | None => Exit (if hasFail (audit w checklist pkg) then 1 else 0)
                          (Some (results (audit w checklist pkg)))
           end.
Proof.
  intros (n & v & Hn & Hv & Hc & Hp). unfold main. rewrite Hn.
  destruct n as [[text|]|es| |]; try done; by rewrite Hv, Hp, Hc.
Qed.

Lemma main_loads (w : World) (checklist : ChecklistDocument) (pkg : value) :
  loads w checklist pkg -> gets_through w checklist = true ->
  main w = Exit (if hasFail (audit w checklist pkg) then 1 else 0)
                (Some (results (audit w checklist pkg))).
Proof.
  intros Hl Hg. rewrite (main_audit _ _ _ Hl). by rewrite audit_uncaught, Hg.
Qed.

Lemma main_stopped (w : World) (checklist : ChecklistDocument) (pkg : value) :
  loads w checklist pkg -> gets_through w checklist = false ->
  main w = Uncaught SystemError.
Proof.
  intros Hl Hg. rewrite (main_audit _ _ _ Hl). by rewrite audit_uncaught, Hg.
Qed.

Lemma main_unparsable_checklist (w : World) (text : jsstring) :
  entry (js ".aicodechecklist.json") (root w) = Some (File (Some text)) ->
  JSON_parse text = None ->
  main w = Uncaught SyntaxError.
Proof. intros Hn Hp. unfold main. rewrite Hn. simpl. by rewrite Hp. Qed.

Lemma main_heuristic (w : World) (checklist : ChecklistDocument) (pkg : value)
    (x : jsstring) :
  loads w checklist pkg -> gets_through w checklist = true -> x ∈ recognized ->
  exists code rs,
    main w = Exit code (Some rs)
    /\ rs = results (audit w checklist pkg)
    /\ verdicts_for x rs = verdicts_for x (heuristic_verdicts w checklist pkg).
Proof.
  intros Hl Hg Hx. rewrite (main_loads _ _ _ Hl Hg).
  destruct (audit_results w checklist pkg Hg) as (extra & Hr & Hfb & _ & _).
  eexists _, _. split; [done|]. split; [done|].
  rewrite Hr, verdicts_for_app, (verdicts_for_fallback checklist x extra) by done.
  by rewrite app_nil_r.
Qed.

(** C1. A complete run on a checklist of the declared shape (the two files
    load and the scan, if asked for, gets through the tree) ends with a
    verdict list whose ids are exactly the ids of the checklist's items:
    every item id has a verdict, no verdict carries an id the document
    lacks, a verdict with an id the heuristics know is the verdict of its
    heuristic, and a verdict with any other id is the fallback,
    NeedsAttention with the reason [manual_review]. *)
Theorem verdict_ids_are_item_ids (w : World) (checklist : ChecklistDocument)
    (pkg : value) :
  loads w checklist pkg ->
  gets_through w checklist = true ->
  exists code rs,
    main w = Exit code (Some rs)
    /\ (list_to_set (verdict_id <$> rs) : gset jsstring)
       = list_to_set (item_ids checklist)
    /\ (forall i, i ∈ item_ids checklist -> exists r, r ∈ rs /\ verdict_id r = i)
    /\ (forall r, r ∈ rs -> verdict_id r ∈ item_ids checklist)
    /\ (forall r, r ∈ rs -> verdict_id r ∈ recognized ->
          r ∈ heuristic_verdicts w checklist pkg)
    /\ (forall r, r ∈ rs -> verdict_id r ∉ recognized ->
          status r = NeedsAttention /\ reason r = manual_review).
Proof.
  intros Hl Hg. rewrite (main_loads _ _ _ Hl Hg).
  destruct (audit_results w checklist pkg Hg) as (extra & Hr & Hfb & Hcov & _).
  pose proof (heuristic_ids w checklist pkg) as Hids.
  rewrite Forall_forall in Hids, Hfb.
  eexists _, _. split; [done|]. rewrite Hr.
  assert (forall i, i ∈ item_ids checklist ->
            exists r, r ∈ heuristic_verdicts w checklist pkg ++ extra
                      /\ verdict_id r = i) as Hall.
  { intros i Hi. destruct (decide (i ∈ recognized)) as [Hrec|Hrec].
    - assert (verdicts_for i (heuristic_verdicts w checklist pkg) <> []) as Hne.
      { rewrite verdicts_for_heuristics. apply has_item_ids in Hi.
        unfold recognized in Hrec.
        repeat (apply elem_of_cons in Hrec as [->|Hrec]);
          [..|by apply elem_of_nil in Hrec]; rewrite Hi;
          unfold str_eqb; rewrite (bool_decide_eq_true_2 _ eq_refl);
          simpl; try done;
          repeat (match goal with
                  | |- context [if ?b then _ else _] => destruct b
                  end; try done). }
      destruct (verdicts_for i (heuristic_verdicts w checklist pkg))
        as [|r rest] eqn:Hv; [done|].
      assert (In r (verdicts_for i (heuristic_verdicts w checklist pkg))) as Hin
        by (rewrite Hv; by left).
      apply filter_In in Hin as [Hin Heq]. apply bool_decide_eq_true in Heq.
      exists r. split; [|done]. apply elem_of_app. left. by apply list_elem_of_In.
    - apply Hcov in Hi; [|done].
      apply list_elem_of_fmap in Hi as (r & -> & Hr').
      exists r. split; [|done]. apply elem_of_app. by right. }
  assert (forall r, r ∈ heuristic_verdicts w checklist pkg ++ extra ->
            verdict_id r ∈ item_ids checklist) as Hback.
  { intros r [Hh|He]%elem_of_app.
    - by destruct (Hids r Hh).
    - by destruct (Hfb r He) as (_ & _ & ? & _). }
  split; [|split; [done|split; [done|split]]].
  - apply set_eq. intros x. rewrite !elem_of_list_to_set. split.
    + intros (r & -> & Hin)%list_elem_of_fmap. by apply Hback.
    + intros Hx. destruct (Hall x Hx) as (r & Hin & <-).
      by apply list_elem_of_fmap_2.
  - intros r [Hh|He]%elem_of_app Hrec; [done|].
    by destruct (Hfb r He) as (_ & _ & _ & ?).
  - intros r [Hh|He]%elem_of_app Hnr.
    + by destruct (Hids r Hh).
    + by destruct (Hfb r He) as (? & ? & _).
Qed.

(** C4. Without a checklist file the process leaves with code 2 and prints
    no verdicts.  A complete run (the two files usable, the scan, if asked
    for, through the tree) prints the verdicts and leaves with code 1 when
    one of them is a Fail, with code 0 when all of them are Pass or
    NeedsAttention. *)
Theorem exit_code_reports_failure (w : World) :
  (exists_ w (js ".aicodechecklist.json") = false -> main w = Exit 2 None)
  /\ (forall checklist pkg,
       loads w checklist pkg -> gets_through w checklist = true ->
       exists code rs,
         main w = Exit code (Some rs)
         /\ (code = 1%Z <-> exists r, r ∈ rs /\ status r = Fail)
         /\ (code = 0%Z <->
               forall r, r ∈ rs -> status r = Pass \/ status r = NeedsAttention)
         /\ (code = 0%Z \/ code = 1%Z)).
Proof.
  split.
  - unfold exists_, existsSync, main.
    by destruct (entry (js ".aicodechecklist.json") (root w)) as [[| | |]|].
  - intros checklist pkg Hl Hg. rewrite (main_loads _ _ _ Hl Hg).
    destruct (audit_results w checklist pkg Hg) as (extra & Hr & _ & _ & Hf).
    rewrite <- Hr in Hf. rewrite Hf. clear Hr Hf.
    eexists _, _. split; [done|].
    generalize (results (audit w checklist pkg)). intros rs.
    assert (any_fail rs = true <-> exists r, r ∈ rs /\ status r = Fail) as Hany.
    { unfold any_fail. rewrite existsb_exists. split.
      - intros (r & Hin & Hs). exists r. split; [by apply list_elem_of_In|].
        by apply bool_decide_eq_true in Hs.
      - intros (r & Hin & Hs). exists r. split; [by apply list_elem_of_In|].
        by apply bool_decide_eq_true. }
    assert (any_fail rs = false <->
            forall r, r ∈ rs -> status r = Pass \/ status r = NeedsAttention)
      as Hnone.
    { split.
      - intros Hf r Hin. destruct (status r) eqn:Hs; [by left| |by right].
        assert (any_fail rs = true) as Ht by (apply Hany; by exists r).
        by rewrite Hf in Ht.
      - intros Hall. apply not_true_is_false. intros (r & Hin & Hs)%Hany.
        destruct (Hall r Hin) as [Hp|Hp]; by rewrite Hs in Hp. }
    destruct (any_fail rs).
    + split; [|split; [|by right]].
      * split; [intros _; by apply Hany|done].
      * split; [done|]. intros Hall. by apply Hnone in Hall.
    + split; [|split; [|by left]].
      * split; [done|]. intros Hex. by apply Hany in Hex.
      * split; [intros _; by apply Hnone|done].
Qed.

Lemma flagged_nonempty (triggers : list jsstring) (w : World) :
  flagged triggers w <> [] <-> contains_trigger triggers w.
Proof.
  unfold flagged, contains_trigger. split.
  - intros Hne.
    destruct (List.filter (flags triggers) (files_of w)) as [|[fp c] l] eqn:Hf;
      [done|].
    assert (In (fp, c) (List.filter (flags triggers) (files_of w))) as Hin
      by (rewrite Hf; by left).
    apply filter_In in Hin as [Hin Hflag]. unfold flags in Hflag. simpl in Hflag.
    apply andb_prop in Hflag as [Hex Htxt]. destruct c as [txt|]; [|done].
    exists fp, txt. split; [by apply list_elem_of_In|].
    split; [by apply negb_true_iff|].
    apply existsb_exists in Htxt as (t & Ht & Hinc).
    exists t. split; [by apply list_elem_of_In|done].
  - intros (fp & txt & Hin & Hex & t & Ht & Hinc) Hnil.
    assert (In (fp, Some txt) (List.filter (flags triggers) (files_of w))) as Hf.
    { apply filter_In. split; [by apply list_elem_of_In|].
      unfold flags. simpl. rewrite Hex. simpl.
      apply existsb_exists. exists t. split; [by apply list_elem_of_In|done]. }
    apply (in_map fst) in Hf. by rewrite Hnil in Hf.
Qed.

(** C2 (as amended). When the scan gets through the tree, the
    [sec_secrets] verdict is Fail exactly when some scanned file that is not
    excluded contains, letter case aside, one of the words [api_key],
    [api-key], [apikey], [secret], [password], [passwd], [aws_secret],
    [aws_access], [SECRET_KEY], [PRIVATE_KEY], [TOKEN], and Pass otherwise;
    on Fail the reason lists the first five such paths at most. *)
Theorem secret_scan_verdict (w : World) (checklist : ChecklistDocument)
    (pkg : value) :
  loads w checklist pkg ->
  has_item checklist (js "sec_secrets") = true ->
  walkable w = true ->
  exists code rs v,
    main w = Exit code (Some rs)
    /\ verdicts_for (js "sec_secrets") rs = [v]
    /\ (status v = Fail <-> contains_trigger pattern_triggers w)
    /\ (status v = Pass <-> ~ contains_trigger pattern_triggers w)
    /\ (status v = Fail ->
         reason v = js "Potential secrets found in files: "
                    ++ join (js ", ") (take 5 (flagged pattern_triggers w))
         /\ (length (take 5 (flagged pattern_triggers w)) <= 5)%nat).
Proof.
  intros Hl Hhas Hw.
  assert (gets_through w checklist = true) as Hg
    by (unfold gets_through; by rewrite Hw, orb_true_r).
  destruct (main_heuristic w checklist pkg (js "sec_secrets") Hl Hg)
    as (code & rs & Hmain & _ & Hv); [by apply existsb_str_eqb|].
  rewrite verdicts_for_heuristics, Hhas in Hv.
  rewrite !andb_false_r in Hv. simpl in Hv.
  exists code, rs, (expect_sec_secrets w). split; [done|]. split; [done|].
  rewrite <- flagged_nonempty. unfold expect_sec_secrets.
  destruct (flagged pattern_triggers w) as [|h hits]; simpl.
  - split; [split; done|]. split; [|done]. split; [by intros _ ?|done].
  - split; [split; done|]. split.
    + split; [done|]. intros Hno. by destruct Hno.
    + intros _. split; [done|]. rewrite length_take. lia.
Qed.

(** C3 (as amended). The [test_exists] verdict is Pass when the root has an
    entry, directory or not, named [test], [tests] or [__tests__], or
    [package.json] has a truthy [scripts.test] or a truthy
    [devDependencies.jest]; it is Fail otherwise.  The verdict is decided
    before the scan; it is printed, with the rest of the list, when the run
    is complete. *)
Theorem test_exists_verdict (w : World) (checklist : ChecklistDocument)
    (pkg : value) :
  loads w checklist pkg ->
  has_item checklist (js "test_exists") = true ->
  exists v,
    verdicts_for (js "test_exists") (results (audit w checklist pkg)) = [v]
    /\ (status v = Pass <-> tests_by_entry w pkg = true)
    /\ (status v = Fail <-> tests_by_entry w pkg = false)
    /\ (gets_through w checklist = true ->
        exists code rs,
          main w = Exit code (Some rs)
          /\ verdicts_for (js "test_exists") rs = [v]).
Proof.
  intros Hl Hhas.
  assert (verdicts_for (js "test_exists") (results (audit w checklist pkg))
          = [expect_test_exists w pkg]) as Hv.
  { rewrite audit_early by (by left). rewrite Hhas.
    by rewrite andb_false_r. }
  exists (expect_test_exists w pkg). split; [done|].
  split; [|split].
  - unfold expect_test_exists. by destruct (tests_by_entry w pkg).
  - unfold expect_test_exists. by destruct (tests_by_entry w pkg).
  - intros Hg. rewrite (main_loads _ _ _ Hl Hg). by eexists _, _.
Qed.

Lemma step_when_ext (b : bool) (f g : State -> State) (st : State) :
  (forall st, f st = g st) -> step (when b f) st = step (when b g) st.
Proof. intros Hfg. unfold step, when. destruct (uncaught st), b; by rewrite ?Hfg. Qed.

Lemma audit_same_exits (w w' : World) (checklist : ChecklistDocument) (pkg : value) :
  cwd w' = cwd w -> root w' = root w -> listable w' = listable w ->
  (forall cmd, exit_zero (execSync w' cmd) = exit_zero (execSync w cmd)) ->
  audit w' checklist pkg = audit w checklist pkg.
Proof.
  destruct w as [d es l ex], w' as [d' es' l' ex']. simpl.
  intros -> -> -> Hexit.
  assert (forall st,
            test_checks {| cwd := d; root := es; listable := l; execSync := ex' |} pkg st
            = test_checks {| cwd := d; root := es; listable := l; execSync := ex |} pkg st)
    as Htc.
  { intros st. unfold test_checks, run_command. simpl. by rewrite !Hexit. }
  unfold audit.
  by rewrite (step_when_ext _ _ _ _ Htc).
Qed.

Lemma main_same_exits (w w' : World) :
  cwd w' = cwd w -> root w' = root w -> listable w' = listable w ->
  (forall cmd, exit_zero (execSync w' cmd) = exit_zero (execSync w cmd)) ->
  main w' = main w.
Proof.
  intros Hcwd Hroot Hlist Hexit.
  assert (forall c p, audit w' c p = audit w c p) as Ha
    by (intros c p; by apply audit_same_exits).
  unfold main, packageObj. rewrite Hroot.
  repeat first
    [ progress rewrite Ha
    | match goal with
      | |- context [match ?x with _ => _ end] => destruct x
      end ];
    done.
Qed.

(** Where the scripts are strings, a script is truthy exactly when it has a
    command. *)
Lemma truthy_runnable (pkg : value) (nm : jsstring) :
  match prop (prop pkg (js "scripts")) nm with
  | VUndefined | VString _ => true
  | _ => false
  end = true ->
  truthy_script pkg nm = runnable_script pkg nm.
Proof.
  unfold truthy_script, runnable_script.
  destruct pkg as [| |b|n|t|l|ms]; cbn [prop truthy];
    rewrite ?andb_false_r; try done.
  destruct (own (js "scripts") ms) as [| |b|n|t|l|sc]; cbn [prop truthy andb];
    rewrite ?andb_false_r; try done.
  by destruct (own nm sc) as [| | | |[|c t]| |].
Qed.

Lemma scripts_runnable (pkg : value) :
  scripts_are_strings pkg = true ->
  truthy_script pkg (js "lint") = runnable_script pkg (js "lint")
  /\ truthy_script pkg (js "test") = runnable_script pkg (js "test")
  /\ truthy_script pkg (js "build") = runnable_script pkg (js "build").
Proof.
  unfold scripts_are_strings. cbn [forallb].
  intros [Hl [Ht [Hb _]%andb_prop]%andb_prop]%andb_prop.
  repeat split; by apply truthy_runnable.
Qed.

(** C9 (as amended). With [test_checks] in the checklist and a
    [package.json] whose scripts are strings: a lint script with a command
    (a string that is not empty) is run and the verdict is Pass when it
    exits with zero and Fail when it does not; without one, a test script
    with a command is run the same way; without either, nothing is run and
    the verdict is NeedsAttention.  A command that fails is the only way to
    a Fail, and what the command writes plays no part: two worlds whose
    commands end alike run alike.  The verdict is decided before the scan;
    it is printed, with the rest of the list, when the run is complete. *)
Theorem test_checks_verdict (w : World) (checklist : ChecklistDocument)
    (pkg : value) :
  loads w checklist pkg ->
  has_item checklist (js "test_checks") = true ->
  scripts_are_strings pkg = true ->
  exists v,
    verdicts_for (js "test_checks") (results (audit w checklist pkg)) = [v]
    /\ status v = checks_status w pkg
    /\ executed (audit w checklist pkg) = checks_commands pkg
    /\ (status v = Fail <->
         exists cmd, checks_commands pkg = [cmd]
                     /\ exit_zero (execSync w cmd) = false)
    /\ (gets_through w checklist = true ->
        exists code rs,
          main w = Exit code (Some rs)
          /\ verdicts_for (js "test_checks") rs = [v])
    /\ (forall w', cwd w' = cwd w -> root w' = root w ->
          listable w' = listable w ->
          (forall cmd, exit_zero (execSync w' cmd) = exit_zero (execSync w cmd)) ->
          main w' = main w).
Proof.
  intros Hl Hhas Hs.
  assert (verdicts_for (js "test_checks") (results (audit w checklist pkg))
          = [expect_test_checks w pkg]) as Hv.
  { rewrite audit_early by (by right). rewrite Hhas.
    by rewrite andb_false_r. }
  exists (expect_test_checks w pkg). split; [done|].
  cut ((status (expect_test_checks w pkg) = checks_status w pkg
        /\ executed (audit w checklist pkg) = checks_commands pkg
        /\ (status (expect_test_checks w pkg) = Fail <->
            exists cmd, checks_commands pkg = [cmd]
                        /\ exit_zero (execSync w cmd) = false))
       /\ (gets_through w checklist = true ->
           exists code rs,
             main w = Exit code (Some rs)
             /\ verdicts_for (js "test_checks") rs = [expect_test_checks w pkg])
       /\ (forall w', cwd w' = cwd w -> root w' = root w ->
             listable w' = listable w ->
             (forall cmd, exit_zero (execSync w' cmd) = exit_zero (execSync w cmd)) ->
             main w' = main w)); [tauto|].
  split; [|split; [intros Hg; rewrite (main_loads _ _ _ Hl Hg); by eexists _, _
                  |intros w'; apply main_same_exits]].
  destruct (audit_effects w checklist pkg) as [He _]. rewrite Hhas in He.
  destruct (scripts_runnable pkg Hs) as (Hlint & Htest & Hbuild).
  unfold ran_commands in He. rewrite Hlint, Htest in He.
  unfold expect_test_checks, checks_status, checks_commands.
  rewrite Hlint, Htest, Hbuild.
  split; [|split; [done|]].
  - repeat match goal with |- context [if ?b then _ else _] => destruct b end;
      done.
  - destruct (runnable_script pkg (js "lint")).
    { destruct (exit_zero (execSync w lint_command)) eqn:Hx; simpl.
      - split; [done|]. intros (cmd & [= <-] & Hc). by rewrite Hx in Hc.
      - split; [|done]. intros _. by exists lint_command. }
    destruct (runnable_script pkg (js "test")).
    { destruct (exit_zero (execSync w test_command)) eqn:Hx; simpl.
      - split; [done|]. intros (cmd & [= <-] & Hc). by rewrite Hx in Hc.
      - split; [|done]. intros _. by exists test_command. }
    destruct (runnable_script pkg (js "build")); simpl;
      (split; [done|]); by intros (cmd & ? & _).
Qed.

End Main.

(** C10. The scan decides by substring of the whole path: a file whose path
    contains [node_modules] or [.git] anywhere is neither opened nor
    reported.  The path of a top-level [.gitignore] contains [.git], so that
    file is never opened, whatever it holds. *)
Theorem excluded_by_substring (w : World) (checklist : ChecklistDocument)
    (pkg : value) (fp : jsstring) :
  (includes fp (js "node_modules") || includes fp (js ".git")) = true ->
  ((fp ∉ opened (audit w checklist pkg)) /\ (fp ∉ flagged pattern_triggers w))
  /\ includes (path_join (cwd w) (js ".gitignore")) (js ".git") = true
  /\ (path_join (cwd w) (js ".gitignore") ∉ opened (audit w checklist pkg)).
Proof.
  assert (forall p, (includes p (js "node_modules") || includes p (js ".git")) = true ->
            p ∉ opened (audit w checklist pkg)) as Hopen.
  { intros p Hp. destruct (audit_effects w checklist pkg) as [_ ->].
    destruct (has_item checklist (js "sec_secrets")); [|by intros ?%elem_of_nil].
    intros Hin%list_elem_of_In. apply in_map_iff in Hin as ([q c] & Heq & Hq).
    simpl in Heq. subst q.
    apply filter_In in Hq as [_ Hq]. simpl in Hq. unfold excluded in Hq.
    by rewrite Hp in Hq. }
  assert (includes (path_join (cwd w) (js ".gitignore")) (js ".git") = true) as Hgit.
  { unfold path_join. case_bool_decide.
    - by apply includes_app_r.
    - by apply includes_app_r, includes_app_r. }
  intros Hfp. split; [split|split]; [by apply Hopen| |done|].
  - unfold flagged. intros Hin%list_elem_of_In.
    apply in_map_iff in Hin as ([q c] & Heq & Hq). simpl in Heq. subst q.
    apply filter_In in Hq as [_ Hq]. unfold flags, excluded in Hq. simpl in Hq.
    by rewrite Hfp in Hq.
  - apply Hopen. by rewrite Hgit, orb_true_r.
Qed.

(** ** Worked runs *)

Ltac run := eexists _, _; repeat split; by vm_compute.

(** Scenarios A, B and C of the specification. *)
Example scenario_A :
  @main Reference.engine repo_without_tests
  = Exit 1 (Some [verdict "test_exists" Fail
                    "No tests detected (no test folder or test script)."]).
Proof. by vm_compute. Qed.

Example scenario_B :
  @main Reference.engine repo_with_tests_dir
  = Exit 0 (Some [verdict "test_exists" Pass
                    "Tests folder or test script detected."]).
Proof. by vm_compute. Qed.

Example scenario_C :
  @main Reference.engine repo_custom_item
  = Exit 0 (Some [verdict "custom_x" NeedsAttention
                    "Automated check not available; manual review recommended."]).
Proof. by vm_compute. Qed.

Lemma verdict_ids_are_item_ids_witness :
  @loads Reference.engine repo_custom_item (one_item_doc "custom_x") VNull
  /\ exists code rs,
       @main Reference.engine repo_custom_item = Exit code (Some rs)
       /\ (list_to_set (verdict_id <$> rs) : gset jsstring)
          = list_to_set (item_ids (one_item_doc "custom_x"))
       /\ (forall i, i ∈ item_ids (one_item_doc "custom_x") ->
             exists r, r ∈ rs /\ verdict_id r = i)
       /\ (forall r, r ∈ rs -> verdict_id r ∈ item_ids (one_item_doc "custom_x"))
       /\ (forall r, r ∈ rs -> verdict_id r ∈ recognized ->
             r ∈ heuristic_verdicts repo_custom_item (one_item_doc "custom_x") VNull)
       /\ (forall r, r ∈ rs -> verdict_id r ∉ recognized ->
             status r = NeedsAttention /\ reason r = manual_review).
Proof.
  assert (@loads Reference.engine repo_custom_item (one_item_doc "custom_x") VNull)
    as Hl by run.
  split; [exact Hl|].
  apply (@verdict_ids_are_item_ids Reference.engine repo_custom_item
           (one_item_doc "custom_x") VNull Hl).
  by vm_compute.
Defined.

Lemma exit_code_reports_failure_witness :
  @main Reference.engine repo_no_checklist = Exit 2 None
  /\ exists code rs,
       @main Reference.engine repo_without_tests = Exit code (Some rs)
       /\ (code = 1%Z <-> exists r, r ∈ rs /\ status r = Fail)
       /\ (code = 0%Z <->
             forall r, r ∈ rs -> status r = Pass \/ status r = NeedsAttention)
       /\ (code = 0%Z \/ code = 1%Z).
Proof.
  split.
  - apply (proj1 (@exit_code_reports_failure Reference.engine repo_no_checklist)).
    by vm_compute.
  - apply (proj2 (@exit_code_reports_failure Reference.engine repo_without_tests)
             (one_item_doc "test_exists") VNull); [run|by vm_compute].
Defined.

(** C2 as stated fails: the checklist file holds none of the listed words
    (its one id is written with an escape), [config.js] holds [apikey] and
    none of the listed words, and the verdict is Fail. *)
Lemma apikey_is_reported :
  @main Reference.engine repo_apikey
  = Exit 1 (Some [ {| verdict_id := js "sec_secrets"; status := Fail;
                      reason := js "Potential secrets found in files: /work/repo/config.js" |} ])
  /\ ~ contains_trigger listed_triggers repo_apikey.
Proof.
  split; [by vm_compute|].
  intros Hex%flagged_nonempty. apply Hex. by vm_compute.
Qed.

Lemma secret_scan_verdict_witness :
  @loads Reference.engine repo_apikey (one_item_doc "sec_secrets") VNull
  /\ has_item (one_item_doc "sec_secrets") (js "sec_secrets") = true
  /\ exists code rs v,
       @main Reference.engine repo_apikey = Exit code (Some rs)
       /\ verdicts_for (js "sec_secrets") rs = [v]
       /\ (status v = Fail <-> contains_trigger pattern_triggers repo_apikey)
       /\ (status v = Pass <-> ~ contains_trigger pattern_triggers repo_apikey)
       /\ (status v = Fail ->
            reason v = js "Potential secrets found in files: "
                       ++ join (js ", ") (take 5 (flagged pattern_triggers repo_apikey))
            /\ (length (take 5 (flagged pattern_triggers repo_apikey)) <= 5)%nat).
Proof.
  assert (@loads Reference.engine repo_apikey (one_item_doc "sec_secrets") VNull)
    as Hl by run.
  split; [exact Hl|]. split; [by vm_compute|].
  apply (@secret_scan_verdict Reference.engine repo_apikey
           (one_item_doc "sec_secrets") VNull Hl); by vm_compute.
Defined.

(** C3 as stated fails: the root has no directory named [test], [tests] or
    [__tests__] and no [package.json], only a regular file named [test], and
    the verdict is Pass. *)
Lemma file_named_test_passes :
  @main Reference.engine repo_test_is_a_file
  = Exit 0 (Some [verdict "test_exists" Pass "Tests folder or test script detected."])
  /\ @packageObj Reference.engine repo_test_is_a_file = inr VNull
  /\ tests_by_directory repo_test_is_a_file VNull = false.
Proof. repeat split; by vm_compute. Qed.

Lemma test_exists_verdict_witness :
  @loads Reference.engine repo_with_tests_dir (one_item_doc "test_exists") VNull
  /\ has_item (one_item_doc "test_exists") (js "test_exists") = true
  /\ exists code rs v,
       @main Reference.engine repo_with_tests_dir = Exit code (Some rs)
       /\ verdicts_for (js "test_exists") rs = [v]
       /\ (status v = Pass <-> tests_by_entry repo_with_tests_dir VNull = true)
       /\ (status v = Fail <-> tests_by_entry repo_with_tests_dir VNull = false).
Proof.
  assert (@loads Reference.engine repo_with_tests_dir (one_item_doc "test_exists") VNull)
    as Hl by run.
  split; [exact Hl|]. split; [by vm_compute|].
  destruct (@test_exists_verdict Reference.engine repo_with_tests_dir
              (one_item_doc "test_exists") VNull Hl)
    as (v & _ & Hpass & Hfail & Hprinted); [by vm_compute|].
  destruct Hprinted as (code & rs & Hmain & Hv); [by vm_compute|].
  by exists code, rs, v.
Defined.

Lemma test_checks_verdict_witness :
  @loads Reference.engine repo_lint_fails (one_item_doc "test_checks") lint_package
  /\ has_item (one_item_doc "test_checks") (js "test_checks") = true
  /\ checks_status repo_lint_fails lint_package = Fail
  /\ exists code rs v,
       @main Reference.engine repo_lint_fails = Exit code (Some rs)
       /\ verdicts_for (js "test_checks") rs = [v]
       /\ status v = checks_status repo_lint_fails lint_package
       /\ executed (audit repo_lint_fails (one_item_doc "test_checks") lint_package)
          = checks_commands lint_package
       /\ (status v = Fail <->
            exists cmd, checks_commands lint_package = [cmd]
                        /\ exit_zero (execSync repo_lint_fails cmd) = false)
       /\ (forall w', cwd w' = cwd repo_lint_fails -> root w' = root repo_lint_fails ->
             listable w' = listable repo_lint_fails ->
             (forall cmd, exit_zero (execSync w' cmd)
                          = exit_zero (execSync repo_lint_fails cmd)) ->
             @main Reference.engine w' = @main Reference.engine repo_lint_fails).
Proof.
  assert (@loads Reference.engine repo_lint_fails (one_item_doc "test_checks")
            lint_package) as Hl by run.
  split; [exact Hl|]. split; [by vm_compute|]. split; [by vm_compute|].
  destruct (@test_checks_verdict Reference.engine repo_lint_fails
              (one_item_doc "test_checks") lint_package Hl)
    as (v & _ & Hs & He & Hf & Hprinted & Hsame); [by vm_compute..|].
  destruct Hprinted as (code & rs & Hmain & Hv); [by vm_compute|].
  by exists code, rs, v.
Defined.

(** C9 as stated fails: [package.json] declares a lint script, with the
    empty string for its command, and a test script; the lint script is not
    run, the tests are, and the verdict is theirs. *)
Lemma empty_lint_is_not_run :
  @main Reference.engine repo_empty_lint
  = Exit 0 (Some [verdict "test_checks" Pass "Tests passed."])
  /\ @packageObj Reference.engine repo_empty_lint = inr empty_lint_package
  /\ declares_script empty_lint_package (js "lint") = true
  /\ executed (audit repo_empty_lint (one_item_doc "test_checks") empty_lint_package)
     = [test_command].
Proof. repeat split; by vm_compute. Qed.

(** The linter's output is not looked at: the run is the same when it
    writes nothing. *)
Example output_is_not_inspected :
  @main Reference.engine repo_lint_fails_quietly = @main Reference.engine repo_lint_fails.
Proof. by apply main_same_exits. Qed.

Lemma excluded_by_substring_witness :
  (includes (js "/work/repo/.gitignore") (js "node_modules")
   || includes (js "/work/repo/.gitignore") (js ".git")) = true
  /\ (js "/work/repo/.gitignore"
        ∉ opened (audit repo_gitignore (one_item_doc "sec_secrets") VNull))
  /\ (js "/work/repo/.gitignore" ∉ flagged pattern_triggers repo_gitignore)
  /\ @main Reference.engine repo_gitignore
     = Exit 0 (Some [verdict "sec_secrets" Pass "No obvious hardcoded secrets found."]).
Proof.
  assert ((includes (js "/work/repo/.gitignore") (js "node_modules")
           || includes (js "/work/repo/.gitignore") (js ".git")) = true) as Hp
    by (by vm_compute).
  split; [exact Hp|].
  destruct (excluded_by_substring repo_gitignore (one_item_doc "sec_secrets") VNull
              (js "/work/repo/.gitignore") Hp) as [[Ho Hf] _].
  split; [exact Ho|]. split; [exact Hf|]. by vm_compute.
Defined.

(** C5 at a checklist file that holds [{]: the extension's loader answers
    [null] as it does when the file is missing, but the batch auditor, which
    leaves with code 2 when the file is missing, here ends on the
    [SyntaxError] of [JSON.parse] that nothing catches. *)
Theorem malformed_checklist_is_not_absence :
  @loadChecklist Reference.engine (workspace (root repo_bad_checklist)) = VNull
  /\ @loadChecklist Reference.engine (workspace (root repo_no_checklist)) = VNull
  /\ @main Reference.engine repo_no_checklist = Exit 2 None
  /\ @main Reference.engine repo_bad_checklist = Uncaught SyntaxError.
Proof. repeat split; by vm_compute. Qed.

End AuditFacts.

(* ===================================================================== *)
(** * More about the batch auditor *)
(* ===================================================================== *)

Module AuditMore.
Import Audit Extension Props Runs More StringFacts AuditFacts.

(** ** One verdict for each id *)

Lemma default_fold_nodup (its : list ChecklistItem) (st : State) :
  NoDup (verdict_id <$> results st) ->
  NoDup (verdict_id <$> results (fold_left (fun st i => default_item i st) its st)).
Proof.
  revert st. induction its as [|i its IH]; intros st Hnd; [done|].
  simpl. apply IH. unfold default_item.
  destruct (existsb (str_eqb (id i)) recognized); [done|].
  destruct (existsb (fun r => str_eqb (verdict_id r) (id i)) (results st)) eqn:Hseen;
    [done|].
  cbn [na push results]. rewrite fmap_app. apply NoDup_app.
  split; [done|]. split.
  - intros x Hx [->|[]%elem_of_nil]%elem_of_cons. cbn [verdict_id] in Hx.
    apply existsb_verdict_id in Hx. by rewrite Hx in Hseen.
  - apply NoDup_singleton.
Qed.

Lemma heuristic_verdict_ids (w : World) (checklist : ChecklistDocument) (pkg : value) :
  verdict_id <$> heuristic_verdicts w checklist pkg = asked_ids checklist.
Proof.
  unfold heuristic_verdicts, asked, asked_ids, recognized.
  destruct (expect_ids w pkg) as (H1 & H2 & H3 & H4).
  cbn [List.filter].
  destruct (has_item checklist (js "test_exists")),
    (has_item checklist (js "test_checks")),
    (has_item checklist (js "sec_secrets")),
    (has_item checklist (js "read_format"));
    cbn [app fmap list_fmap]; by rewrite ?H1, ?H2, ?H3, ?H4.
Qed.

Lemma asked_ids_nodup (checklist : ChecklistDocument) : NoDup (asked_ids checklist).
Proof.
  unfold asked_ids, recognized. cbn [List.filter].
  destruct (has_item checklist (js "test_exists")),
    (has_item checklist (js "test_checks")),
    (has_item checklist (js "sec_secrets")),
    (has_item checklist (js "read_format"));
    by apply (bool_decide_unpack _).
Qed.

(** The state the fallback loop starts from. *)
Lemma audit_unfold (w : World) (checklist : ChecklistDocument) (pkg : value) :
  gets_through w checklist = true ->
  exists st,
    audit w checklist pkg
    = fold_left (fun st i => default_item i st)
        (flat_map items (categories checklist)) st
    /\ results st = heuristic_verdicts w checklist pkg.
Proof.
  intros Hg. destruct (audit_heuristics w checklist pkg Hg) as (Hr & _ & _ & ->).
  rewrite default_items_flat. eexists. split; [done|]. exact Hr.
Qed.

(** ** The order of the report *)

Lemma existsb_seen (x : jsstring) (rs : list Verdict) :
  existsb (str_eqb x) (verdict_id <$> rs)
  = existsb (fun r => str_eqb (verdict_id r) x) rs.
Proof.
  apply Bool.eq_iff_eq_true. by rewrite existsb_str_eqb, existsb_verdict_id.
Qed.

Lemma default_fold_ids (its : list ChecklistItem) (st : State) :
  verdict_id <$> results (fold_left (fun st i => default_item i st) its st)
  = (verdict_id <$> results st)
    ++ first_seen (verdict_id <$> results st)
         (List.filter (fun i => negb (existsb (str_eqb i) recognized))
                      (List.map id its)).
Proof.
  revert st. induction its as [|i its IH]; intros st.
  - simpl. by rewrite app_nil_r.
  - cbn [fold_left List.map List.filter]. rewrite IH. unfold default_item.
    destruct (existsb (str_eqb (id i)) recognized); cbn [negb]; [done|].
    cbn [first_seen]. rewrite existsb_seen.
    destruct (existsb (fun r => str_eqb (verdict_id r) (id i)) (results st));
      [done|].
    cbn [na push results]. rewrite fmap_app, <- app_assoc. done.
Qed.

Lemma first_seen_ext (l seen seen' : list jsstring) :
  (forall x, x ∈ l -> x ∈ seen <-> x ∈ seen') ->
  first_seen seen l = first_seen seen' l.
Proof.
  revert seen seen'. induction l as [|x l IH]; intros seen seen' Hs; [done|].
  cbn [first_seen].
  assert (existsb (str_eqb x) seen = existsb (str_eqb x) seen') as ->.
  { apply Bool.eq_iff_eq_true. rewrite !existsb_str_eqb.
    apply Hs, list_elem_of_here. }
  destruct (existsb (str_eqb x) seen').
  - apply IH. intros y Hy. by apply Hs, list_elem_of_further.
  - f_equal. apply IH. intros y Hy. rewrite !elem_of_app.
    by rewrite (Hs y (list_elem_of_further _ _ _ Hy)).
Qed.

Lemma first_seen_covers (l seen : list jsstring) (x : jsstring) :
  x ∈ l -> x ∉ seen -> x ∈ first_seen seen l.
Proof.
  revert seen. induction l as [|y l IH]; intros seen Hx Hs.
  - by apply elem_of_nil in Hx.
  - cbn [first_seen]. apply elem_of_cons in Hx as [->|Hx].
    + destruct (existsb (str_eqb y) seen) eqn:Hy.
      * by apply existsb_str_eqb in Hy.
      * apply list_elem_of_here.
    + destruct (existsb (str_eqb y) seen) eqn:Hy; [by apply IH|].
      destruct (decide (x = y)) as [->|Hne]; [apply list_elem_of_here|].
      apply list_elem_of_further, IH; [done|].
      intros [?|[?|[]%elem_of_nil]%elem_of_cons]%elem_of_app; done.
Qed.

Lemma unrecognized_filter (l : list jsstring) (x : jsstring) :
  x ∈ List.filter (fun i => negb (existsb (str_eqb i) recognized)) l
  <-> x ∈ l /\ x ∉ recognized.
Proof.
  split.
  - intros Hin%list_elem_of_In. apply filter_In in Hin as [Hin Hx].
    split; [by apply list_elem_of_In|].
    intros Hrec%existsb_str_eqb. by rewrite Hrec in Hx.
  - intros [Hin Hx]. apply list_elem_of_In, filter_In.
    split; [by apply list_elem_of_In|].
    destruct (existsb (str_eqb x) recognized) eqn:Hrec; [|done].
    by apply existsb_str_eqb in Hrec.
Qed.

Lemma audit_ids (w : World) (checklist : ChecklistDocument) (pkg : value) :
  gets_through w checklist = true ->
  verdict_id <$> results (audit w checklist pkg)
  = asked_ids checklist ++ fallback_ids checklist.
Proof.
  intros Hg. destruct (audit_unfold w checklist pkg Hg) as (st & -> & Hst).
  rewrite default_fold_ids, Hst, heuristic_verdict_ids, <- item_ids_flat.
  f_equal. apply first_seen_ext.
  intros x [_ Hx]%unrecognized_filter. split.
  - intros Hin%list_elem_of_In. apply filter_In in Hin as [Hin _].
    by apply list_elem_of_In in Hin.
  - by intros ?%elem_of_nil.
Qed.

Lemma audit_nodup (w : World) (checklist : ChecklistDocument) (pkg : value) :
  gets_through w checklist = true ->
  NoDup (verdict_id <$> results (audit w checklist pkg)).
Proof.
  intros Hg. destruct (audit_unfold w checklist pkg Hg) as (st & -> & Hst).
  apply default_fold_nodup. rewrite Hst, heuristic_verdict_ids.
  apply asked_ids_nodup.
Qed.

Lemma verdicts_for_nodup (rs : list Verdict) (i : jsstring) :
  NoDup (verdict_id <$> rs) -> i ∈ verdict_id <$> rs ->
  exists v, verdicts_for i rs = [v] /\ v ∈ rs /\ verdict_id v = i.
Proof.
  induction rs as [|r rs IH]; intros Hnd Hi.
  - by apply elem_of_nil in Hi.
  - rewrite fmap_cons in Hnd, Hi. apply NoDup_cons in Hnd as [Hr Hnd].
    cbn [verdicts_for List.filter]. unfold str_eqb. case_bool_decide as Heq.
    + exists r. split; [|split; [apply list_elem_of_here|done]].
      f_equal. rewrite <- Heq in *.
      destruct (List.filter (fun r0 => bool_decide (verdict_id r0 = verdict_id r)) rs)
        as [|r' l] eqn:Hf; [done|].
      assert (In r' (List.filter
                (fun r0 => bool_decide (verdict_id r0 = verdict_id r)) rs)) as Hin
        by (rewrite Hf; by left).
      apply filter_In in Hin as [Hin Hr']. apply bool_decide_eq_true in Hr'.
      exfalso. apply Hr. rewrite <- Hr'.
      by apply list_elem_of_fmap_2, list_elem_of_In.
    + apply elem_of_cons in Hi as [->|Hi]; [done|].
      destruct (IH Hnd Hi) as (v & Hv & Hin & Hid).
      exists v. split; [done|]. split; [by apply list_elem_of_further|done].
Qed.

Section Main.
Context `{Engine}.

(** X1. In a complete run (the two files load and the scan, if asked for,
    gets through the tree) every id of the checklist gets exactly one
    verdict, however often the document repeats it: the ids of the printed
    verdicts are pairwise distinct. *)
Theorem one_verdict_per_id (w : World) (checklist : ChecklistDocument)
    (pkg : value) :
  loads w checklist pkg ->
  gets_through w checklist = true ->
  exists code rs,
    main w = Exit code (Some rs)
    /\ NoDup (verdict_id <$> rs)
    /\ (forall i, i ∈ item_ids checklist ->
          exists v, verdicts_for i rs = [v] /\ v ∈ rs /\ verdict_id v = i).
Proof.
  intros Hl Hg. rewrite (main_loads _ _ _ Hl Hg). eexists _, _. split; [done|].
  pose proof (audit_nodup w checklist pkg Hg) as Hnd. split; [done|].
  intros i Hi. apply verdicts_for_nodup; [done|].
  rewrite audit_ids by done. apply elem_of_app.
  destruct (decide (i ∈ recognized)) as [Hrec|Hrec].
  - left. unfold asked_ids. apply list_elem_of_In, filter_In.
    split; [by apply list_elem_of_In|]. by apply has_item_ids.
  - right. apply first_seen_covers; [|by intros ?%elem_of_nil].
    by apply unrecognized_filter.
Qed.

(** X2. The report of a complete run has a fixed order: first the verdicts
    of the heuristics the checklist asks for, in the order [test_exists],
    [test_checks], [sec_secrets], [read_format], wherever their items stand
    in the document; then the fallback verdicts, in the order in which their
    ids first occur in the document. *)
Theorem report_order (w : World) (checklist : ChecklistDocument) (pkg : value) :
  loads w checklist pkg ->
  gets_through w checklist = true ->
  exists code rs,
    main w = Exit code (Some rs)
    /\ verdict_id <$> rs = asked_ids checklist ++ fallback_ids checklist.
Proof.
  intros Hl Hg. rewrite (main_loads _ _ _ Hl Hg). eexists _, _. split; [done|].
  by apply audit_ids.
Qed.

(** X3. In a complete run the [read_format] verdict is Pass when the root
    has [.eslintrc], [.eslintrc.js] or [.prettierrc], or [package.json] has
    a truthy [devDependencies.eslint] or [devDependencies.prettier];
    otherwise it is NeedsAttention.  It is never Fail. *)
Theorem read_format_verdict (w : World) (checklist : ChecklistDocument)
    (pkg : value) :
  loads w checklist pkg ->
  has_item checklist (js "read_format") = true ->
  gets_through w checklist = true ->
  exists code rs v,
    main w = Exit code (Some rs)
    /\ verdicts_for (js "read_format") rs = [v]
    /\ (status v = Pass <-> format_config w pkg = true)
    /\ (status v = NeedsAttention <-> format_config w pkg = false)
    /\ status v <> Fail.
Proof.
  intros Hl Hhas Hg.
  destruct (main_heuristic w checklist pkg (js "read_format") Hl Hg)
    as (code & rs & Hmain & _ & Hv); [by apply existsb_str_eqb|].
  rewrite verdicts_for_heuristics, Hhas in Hv.
  rewrite !andb_false_r in Hv. simpl in Hv.
  exists code, rs, (expect_read_format w pkg). split; [done|]. split; [done|].
  unfold expect_read_format. by destruct (format_config w pkg).
Qed.

(** X4. When the two files load, only three ids can fail a run: in a
    complete run a verdict that is Fail belongs to [test_exists],
    [test_checks] or [sec_secrets]; and with a checklist that has none of
    the three the run is complete and leaves with code 0, whatever the tree
    holds, for it is not walked. *)
Theorem only_three_ids_fail (w : World) (checklist : ChecklistDocument)
    (pkg : value) :
  loads w checklist pkg ->
  (gets_through w checklist = true ->
   exists code rs,
     main w = Exit code (Some rs)
     /\ (forall r, r ∈ rs -> status r = Fail -> verdict_id r ∈ failing_ids))
  /\ ((forall i, i ∈ failing_ids -> i ∉ item_ids checklist) ->
      exists rs, main w = Exit 0 (Some rs)).
Proof.
  intros Hl.
  assert (gets_through w checklist = true ->
          exists extra,
            main w = Exit (if any_fail (heuristic_verdicts w checklist pkg ++ extra)
                           then 1 else 0)
                          (Some (heuristic_verdicts w checklist pkg ++ extra))
            /\ (forall r, r ∈ heuristic_verdicts w checklist pkg ++ extra ->
                  status r = Fail ->
                  verdict_id r ∈ failing_ids /\ verdict_id r ∈ item_ids checklist))
    as Hrun.
  { intros Hg. rewrite (main_loads _ _ _ Hl Hg).
    destruct (audit_results w checklist pkg Hg) as (extra & Hr & Hfb & _ & Hf).
    rewrite Forall_forall in Hfb. exists extra. rewrite Hf, Hr. split; [done|].
    pose proof (heuristic_ids w checklist pkg) as Hids. rewrite Forall_forall in Hids.
    intros r [Hh|He]%elem_of_app Hs.
    - split; [|by destruct (Hids r Hh)].
      unfold heuristic_verdicts, asked in Hh.
      destruct (expect_ids w pkg) as (H1 & H2 & H3 & _).
      repeat (apply elem_of_app in Hh as [Hh|Hh]);
        (destruct (has_item checklist _); [|by apply elem_of_nil in Hh]);
        apply elem_of_cons in Hh as [->|Hh]; try (by apply elem_of_nil in Hh).
      + rewrite H1. by apply existsb_str_eqb.
      + rewrite H2. by apply existsb_str_eqb.
      + rewrite H3. by apply existsb_str_eqb.
      + unfold expect_read_format in Hs. by destruct (format_config w pkg).
    - destruct (Hfb r He) as (Hna & _). by rewrite Hna in Hs. }
  split.
  - intros Hg. destruct (Hrun Hg) as (extra & -> & Honly).
    eexists _, _. split; [done|]. intros r Hr Hs. by destruct (Honly r Hr Hs).
  - intros Hnone.
    assert (gets_through w checklist = true) as Hg.
    { unfold gets_through.
      destruct (has_item checklist (js "sec_secrets")) eqn:Hss; [|done].
      apply has_item_ids in Hss. exfalso. apply (Hnone (js "sec_secrets")); [|done].
      by apply existsb_str_eqb. }
    destruct (Hrun Hg) as (extra & -> & Honly).
    destruct (any_fail (heuristic_verdicts w checklist pkg ++ extra)) eqn:Hany;
      [|by eexists].
    exfalso. unfold any_fail in Hany. apply existsb_exists in Hany as (r & Hin & Hs).
    apply bool_decide_eq_true in Hs. apply list_elem_of_In in Hin.
    destruct (Honly r Hin Hs) as [Hf Hi]. by apply (Hnone (verdict_id r)).
Qed.

(** X5. A [package.json] that exists but cannot be used ends the run before
    any check: one that is not JSON on the [SyntaxError] of [JSON.parse], one
    that cannot be read as a file on the error of the file system.  No
    verdict is printed, whatever the checklist holds. *)
Theorem unusable_package_aborts (w : World) (n m : node) (v : value) :
  entry (js ".aicodechecklist.json") (root w) = Some n ->
  readJSON n = inr v ->
  entry (js "package.json") (root w) = Some m ->
  (forall text, m = File (Some text) -> JSON_parse text = None ->
     main w = Uncaught SyntaxError)
  /\ (m = File None \/ (exists es, m = Dir es) \/ m = Sealed ->
      main w = Uncaught SystemError).
Proof.
  intros Hn Hv Hm. unfold main, packageObj. rewrite Hn, Hm.
  destruct n as [[text'|]|es'| |]; try done; rewrite Hv; split.
  - intros text -> Hp. simpl. by rewrite Hp.
  - by intros [->|[[es ->]| ->]].
Qed.

(** X24. A checklist file that parses but holds no [categories] array (an
    empty object, [null], a number, an array) ends the run with an uncaught
    [TypeError] at the first test of the checklist, after [package.json] has
    been read: it does not count as a missing checklist, and a [package.json]
    that cannot be used is reported first. *)
Theorem checklist_without_categories (w : World) (n : node) (v : value) :
  entry (js ".aicodechecklist.json") (root w) = Some n ->
  readJSON n = inr v ->
  (forall l, prop v (js "categories") <> VArray l) ->
  main w = match packageObj w with
           | inl e => Uncaught e
           | inr _ => Uncaught TypeError
           end.
Proof.
  intros Hn Hv Hc. unfold main. rewrite Hn.
  destruct n as [[text'|]|es'| |]; try done; rewrite Hv.
  destruct (packageObj w) as [e|pkg]; [done|].
  unfold asChecklistFile.
  destruct (prop v (js "categories")) as [| | | | |l|]; try done.
  by destruct (Hc l).
Qed.

(** X23. When the two files load, the run is complete exactly when the
    scan is not asked for or gets through the tree.  With [sec_secrets] in
    the checklist and a tree the walk cannot get through (a directory that
    cannot be listed, a link that leads nowhere, anywhere in the tree), the
    run ends on the uncaught error of the file system and prints no verdict
    at all; the command of [test_checks], which comes before the scan, has
    run by then. *)
Theorem unwalkable_tree_aborts (w : World) (checklist : ChecklistDocument)
    (pkg : value) :
  loads w checklist pkg ->
  ((exists code rs, main w = Exit code (Some rs)) <-> gets_through w checklist = true)
  /\ (has_item checklist (js "sec_secrets") = true -> walkable w = false ->
      main w = Uncaught SystemError
      /\ executed (audit w checklist pkg)
         = (if has_item checklist (js "test_checks") then ran_commands pkg else [])).
Proof.
  intros Hl. split.
  - split.
    + intros (code & rs & Hmain).
      destruct (gets_through w checklist) eqn:Hg; [done|].
      by rewrite (main_stopped _ _ _ Hl Hg) in Hmain.
    + intros Hg. rewrite (main_loads _ _ _ Hl Hg). by eexists _, _.
  - intros Hss Hw. split; [|by destruct (audit_effects w checklist pkg)].
    apply (main_stopped _ _ _ Hl). unfold gets_through. by rewrite Hss, Hw.
Qed.

End Main.

(** X6. The effects of a run are gated by the checklist: no command is run
    unless [test_checks] is asked for, and then at most one, which is
    [npm run lint --silent] or [npm test --silent]; no file is opened to be
    scanned unless [sec_secrets] is asked for. *)
Theorem effects_are_gated (w : World) (checklist : ChecklistDocument)
    (pkg : value) :
  (has_item checklist (js "test_checks") = false ->
   executed (audit w checklist pkg) = [])
  /\ (length (executed (audit w checklist pkg)) <= 1)%nat
  /\ (forall cmd, cmd ∈ executed (audit w checklist pkg) ->
        cmd = lint_command \/ cmd = test_command)
  /\ (has_item checklist (js "sec_secrets") = false ->
      opened (audit w checklist pkg) = []).
Proof.
  destruct (audit_effects w checklist pkg) as [-> ->].
  split; [by intros ->|]. split; [|split; [|by intros ->]].
  - destruct (has_item checklist (js "test_checks")); [|simpl; lia].
    unfold ran_commands.
    repeat match goal with |- context [if ?b then _ else _] => destruct b end;
      simpl; lia.
  - intros cmd. destruct (has_item checklist (js "test_checks"));
      [|by intros ?%elem_of_nil].
    unfold ran_commands.
    repeat match goal with |- context [if ?b then _ else _] => destruct b end;
      intros Hc; try (by apply elem_of_nil in Hc);
      apply elem_of_cons in Hc as [->|Hc]; try (by apply elem_of_nil in Hc).
    + by left.
    + by right.
Qed.

Lemma files_under_all (n : node) (fp : jsstring) :
  walkable_node n = true -> files_under fp n = all_files fp n.
Proof.
  revert n fp. fix IH 1. intros [c|es| |] fp; [done| |done|done].
  cbn [walkable_node files_under all_files].
  induction es as [|[f m] r IHr]; [done|].
  intros [Hm Hr]%andb_prop. by rewrite Hm, (IH m _ Hm), (IHr Hr).
Qed.

(** X7. The walk of the scan ends with an exception exactly when the tree
    holds, anywhere, a directory that cannot be listed or a name that leads
    nowhere; otherwise it meets every file of the tree.  The scan reports a
    path exactly when the walk meets a file of that path that is not
    excluded, can be read and matches the pattern.  A file that cannot be
    read is passed over: it is never reported, and it neither stops the walk
    nor hides the files after it. *)
Theorem scan_reports (w : World) :
  (snd (scan w) = None <-> walkable w = true)
  /\ (snd (scan w) = Some SystemError <-> walkable w = false)
  /\ (walkable w = true -> files_of w = all_files (cwd w) (root_node w))
  /\ (forall fp,
        fp ∈ reported w
        <-> exists txt, (fp, Some txt) ∈ files_of w /\ excluded fp = false
                        /\ regex_test secret_pattern txt = true).
Proof.
  unfold reported. rewrite scan_world. cbn [fst snd].
  split; [by destruct (walkable w)|]. split; [by destruct (walkable w)|].
  split; [apply files_under_all|].
  intros fp. unfold flagged.
  rewrite list_elem_of_In, in_map_iff. split.
  - intros ([q c] & Heq & Hq). simpl in Heq. subst q.
    apply filter_In in Hq as [Hin Hflag]. unfold flags in Hflag.
    cbn [fst snd] in Hflag.
    apply andb_prop in Hflag as [Hex Htxt]. destruct c as [txt|]; [|done].
    exists txt. split; [by apply list_elem_of_In|].
    split; [by apply negb_true_iff|]. by rewrite regex_test_words.
  - intros (txt & Hin & Hex & Hre). exists (fp, Some txt). split; [done|].
    apply filter_In. split; [by apply list_elem_of_In|].
    unfold flags. cbn [fst snd]. by rewrite Hex, <- regex_test_words.
Qed.

(** ** Extensions *)

#[local] Abbreviation ended E :=
  {| startDot := (-1)%Z; startPart := 0%Z; endAt := E; matchedSlash := false;
     preDotState := 0%Z; stopped := false |}.

#[local] Abbreviation dotted j E :=
  {| startDot := j; startPart := 0%Z; endAt := E; matchedSlash := false;
     preDotState := 0%Z; stopped := false |}.

Lemma ext_loop_app (x y : jsstring) (i : Z) (st : ExtScan) :
  ext_loop (x ++ y) i st = ext_loop y (i - Z.of_nat (length x))%Z (ext_loop x i st).
Proof.
  revert i st. induction x as [|c x IH]; intros i st; cbn [app ext_loop].
  - f_equal. cbn [length]. lia.
  - rewrite IH. f_equal. cbn [length]. lia.
Qed.

Lemma plain_inv (c : N) : plain c = true -> (c =? 46) = false /\ (c =? 47) = false.
Proof. unfold plain. by destruct (c =? 46), (c =? 47). Qed.

Lemma ext_loop_ended (l : jsstring) (i E : Z) :
  E <> (-1)%Z -> forallb plain l = true -> ext_loop l i (ended E) = ended E.
Proof.
  intros HE. revert i. induction l as [|c l IH]; intros i Hl; [done|].
  cbn [forallb] in Hl. apply andb_prop in Hl as [[Hd Hs]%plain_inv Hl].
  cbn [ext_loop]. unfold ext_step at 1. cbn [stopped endAt startDot matchedSlash].
  rewrite Hs, Hd, (proj2 (Z.eqb_neq E (-1)) HE). cbn. by apply IH.
Qed.

Lemma ext_step_first (i : Z) (c : N) :
  plain c = true ->
  ext_step {| startDot := (-1)%Z; startPart := 0%Z; endAt := (-1)%Z;
              matchedSlash := true; preDotState := 0%Z; stopped := false |} i c
  = ended (i + 1)%Z.
Proof. intros [Hd Hs]%plain_inv. unfold ext_step. cbn. by rewrite Hs, Hd. Qed.

Lemma ext_step_dot (j E : Z) :
  E <> (-1)%Z -> ext_step (ended E) j 46 = dotted j E.
Proof.
  intros HE. unfold ext_step. cbn. by rewrite (proj2 (Z.eqb_neq E (-1)) HE).
Qed.

(** The components of a name read from its end: the part after the last
    dot, all of it plain, then the dot. *)
Lemma ext_loop_suffix (e : jsstring) (i : Z) :
  e <> [] -> forallb plain e = true -> (0 <= i)%Z ->
  ext_loop (rev e ++ [46]) i
    {| startDot := (-1)%Z; startPart := 0%Z; endAt := (-1)%Z; matchedSlash := true;
       preDotState := 0%Z; stopped := false |}
  = dotted (i - Z.of_nat (length e))%Z (i + 1)%Z.
Proof.
  intros Hne He Hi. rewrite ext_loop_app, length_rev.
  rewrite <- forallb_rev in He.
  destruct (rev e) as [|c t] eqn:Hrev.
  { apply (f_equal (@rev N)) in Hrev. rewrite rev_involutive in Hrev. done. }
  cbn [forallb] in He. apply andb_prop in He as [Hc Ht].
  cbn [ext_loop]. rewrite ext_step_first by done.
  rewrite ext_loop_ended by (done || lia).
  by rewrite ext_step_dot by lia.
Qed.

Lemma ext_loop_stopped (l : jsstring) (i : Z) (st : ExtScan) :
  stopped st = true -> ext_loop l i st = st.
Proof.
  revert i. induction l as [|c l IH]; intros i Hst; [done|].
  cbn [ext_loop]. unfold ext_step. rewrite Hst. by apply IH.
Qed.

Lemma ext_step_keeps (st : ExtScan) (i : Z) (c : N) :
  startDot st <> (-1)%Z -> endAt st <> (-1)%Z -> preDotState st <> 0%Z ->
  startDot (ext_step st i c) = startDot st
  /\ endAt (ext_step st i c) = endAt st
  /\ preDotState (ext_step st i c) <> 0%Z.
Proof.
  intros Hd He Hp. unfold ext_step.
  rewrite (proj2 (Z.eqb_neq _ _) Hd), (proj2 (Z.eqb_neq _ _) He).
  destruct (stopped st), (c =? 47), (matchedSlash st), (c =? 46); done.
Qed.

Lemma ext_loop_keeps (l : jsstring) (i : Z) (st : ExtScan) :
  startDot st <> (-1)%Z -> endAt st <> (-1)%Z -> preDotState st <> 0%Z ->
  startDot (ext_loop l i st) = startDot st
  /\ endAt (ext_loop l i st) = endAt st
  /\ preDotState (ext_loop l i st) <> 0%Z.
Proof.
  revert i st. induction l as [|c l IH]; intros i st Hd He Hp; [done|].
  cbn [ext_loop]. destruct (ext_step_keeps st i c Hd He Hp) as (Hd' & He' & Hp').
  destruct (IH (i - 1)%Z (ext_step st i c)) as (-> & -> & ?); try congruence.
  by rewrite Hd', He'.
Qed.

(** A name with something before its last dot and something plain after it
    has that dot and what follows as its extension. *)
Lemma extname_suffix (a : jsstring) (c : N) (e : jsstring) :
  c <> 47 -> e <> [] -> forallb plain e = true ->
  extname (a ++ [c] ++ [46] ++ e) = [46] ++ e.
Proof.
  intros Hc Hne He. unfold extname.
  set (p := a ++ [c] ++ [46] ++ e).
  assert (Z.of_nat (length p) = Z.of_nat (length a) + 2 + Z.of_nat (length e))%Z
    as Hlen by (unfold p; rewrite !length_app; cbn [length]; lia).
  assert (rev p = (rev e ++ [46]) ++ [c] ++ rev a) as ->.
  { unfold p. rewrite !rev_app_distr. cbn [rev app]. by rewrite <- !app_assoc. }
  rewrite ext_loop_app, ext_loop_suffix by (done || lia).
  rewrite length_app, length_rev. cbn [length app ext_loop].
  set (j := (Z.of_nat (length p) - 1 - Z.of_nat (length e))%Z).
  set (st3 := ext_step _ _ c).
  assert (startDot st3 = j /\ endAt st3 = Z.of_nat (length p)
          /\ preDotState st3 <> 0%Z) as (Hd3 & He3 & Hp3).
  { unfold st3, ext_step. cbn [stopped endAt startDot matchedSlash].
    rewrite (proj2 (N.eqb_neq c 47) Hc).
    rewrite (proj2 (Z.eqb_neq (Z.of_nat (length p) - 1 + 1) (-1))) by lia.
    rewrite (proj2 (Z.eqb_neq j (-1))) by (unfold j; lia).
    destruct (c =? 46); cbn; repeat split; try done; lia. }
  match goal with |- context [ext_loop ?l ?i st3] =>
    destruct (ext_loop_keeps l i st3) as (Hd & He' & Hp);
      [rewrite Hd3; unfold j; lia | rewrite He3; lia | done |];
      set (st := ext_loop l i st3) in * end.
  rewrite Hd, He', Hd3, He3.
  rewrite (proj2 (Z.eqb_neq j (-1))) by (unfold j; lia).
  rewrite (proj2 (Z.eqb_neq (Z.of_nat (length p)) (-1))) by lia.
  rewrite (proj2 (Z.eqb_neq (preDotState st) 0)) by done.
  rewrite (proj2 (Z.eqb_neq j (Z.of_nat (length p) - 1))), andb_false_r
    by (unfold j; destruct e; [done|cbn [length]; lia]).
  cbn [orb andb]. unfold slice.
  replace (Z.to_nat (Z.of_nat (length p) - j)) with (S (length e))
    by (unfold j; lia).
  replace (Z.to_nat j) with (length (a ++ [c]))
    by (unfold j; rewrite length_app; cbn [length]; lia).
  unfold p. rewrite app_assoc, drop_app_length. apply take_ge.
  cbn [app length]. lia.
Qed.

(** A name that begins with its only dot has no extension. *)
Lemma extname_dotfile (a e : jsstring) :
  e <> [] -> forallb plain e = true ->
  extname (a ++ [47] ++ [46] ++ e) = [].
Proof.
  intros Hne He. unfold extname.
  set (p := a ++ [47] ++ [46] ++ e).
  assert (Z.of_nat (length p) = Z.of_nat (length a) + 2 + Z.of_nat (length e))%Z
    as Hlen by (unfold p; rewrite !length_app; cbn [length]; lia).
  assert (rev p = (rev e ++ [46]) ++ [47] ++ rev a) as ->.
  { unfold p. rewrite !rev_app_distr. cbn [rev app]. by rewrite <- !app_assoc. }
  rewrite ext_loop_app, ext_loop_suffix by (done || lia).
  cbn [app ext_loop].
  match goal with |- context [ext_step ?s ?i 47] => set (st := ext_step s i 47) end.
  assert (stopped st = true /\ preDotState st = 0%Z) as [Hs Hp] by done.
  rewrite !ext_loop_stopped, Hp by done.
  by destruct (_ =? _)%Z, (_ =? _)%Z.
Qed.

Lemma excluded_not_opened (w : World) (checklist : ChecklistDocument)
    (pkg : value) (fp : jsstring) :
  excluded fp = true ->
  (fp ∉ opened (audit w checklist pkg)) /\ (fp ∉ reported w).
Proof.
  intros Hex. split.
  - destruct (audit_effects w checklist pkg) as [_ ->].
    destruct (has_item checklist (js "sec_secrets")); [|by intros ?%elem_of_nil].
    intros Hin%list_elem_of_In. apply in_map_iff in Hin as ([q c] & Heq & Hq).
    simpl in Heq. subst q. apply filter_In in Hq as [_ Hq]. simpl in Hq.
    by rewrite Hex in Hq.
  - unfold reported. rewrite scan_world. cbn [fst]. unfold flagged.
    intros Hin%list_elem_of_In.
    apply in_map_iff in Hin as ([q c] & Heq & Hq). simpl in Heq. subst q.
    apply filter_In in Hq as [_ Hq]. unfold flags in Hq. cbn [fst] in Hq.
    by rewrite Hex in Hq.
Qed.

(** X8. A file whose name has something before its last dot and, after it,
    one of [md], [png], [jpg], [jpeg], [gif], [ico], [bin] in any letter case
    is never opened by the scan and never reported. *)
Theorem skipped_extensions_are_not_opened (w : World)
    (checklist : ChecklistDocument) (pkg : value) (a : jsstring) (c : N)
    (e : jsstring) :
  c <> 47 -> e <> [] -> forallb plain e = true ->
  toLowerCase ([46] ++ e) ∈ skipped_extensions ->
  (a ++ [c] ++ [46] ++ e ∉ opened (audit w checklist pkg))
  /\ (a ++ [c] ++ [46] ++ e ∉ reported w).
Proof.
  intros Hc Hne He Hskip. apply excluded_not_opened.
  unfold excluded. rewrite extname_suffix by done.
  replace (existsb _ skipped_extensions) with true; [apply orb_true_r|].
  symmetry. by apply existsb_str_eqb.
Qed.

(** X9. A dotfile, whose name begins with its only dot ([.env], [.npmrc],
    and a file named just [.md] too), has no extension for the scan: when
    [sec_secrets] is asked for and the path contains neither [node_modules]
    nor [.git], the file is opened. *)
Theorem dotfiles_are_opened (w : World) (checklist : ChecklistDocument)
    (pkg : value) (a e : jsstring) (content : option jsstring) :
  has_item checklist (js "sec_secrets") = true ->
  e <> [] -> forallb plain e = true ->
  (a ++ [47] ++ [46] ++ e, content) ∈ files_of w ->
  includes (a ++ [47] ++ [46] ++ e) (js "node_modules") = false ->
  includes (a ++ [47] ++ [46] ++ e) (js ".git") = false ->
  a ++ [47] ++ [46] ++ e ∈ opened (audit w checklist pkg).
Proof.
  intros Hhas Hne He Hin Hnm Hgit.
  destruct (audit_effects w checklist pkg) as [_ ->]. rewrite Hhas.
  apply list_elem_of_In, in_map_iff.
  exists (a ++ [47] ++ [46] ++ e, content). split; [done|].
  apply filter_In. split; [by apply list_elem_of_In|].
  cbn [fst]. unfold excluded. rewrite Hnm, Hgit, extname_dotfile by done. done.
Qed.

(** ** Worked runs *)

Lemma one_verdict_per_id_witness :
  @loads Reference.engine repo_repeated repeated_doc VNull
  /\ exists code rs,
       @main Reference.engine repo_repeated = Exit code (Some rs)
       /\ NoDup (verdict_id <$> rs)
       /\ (forall i, i ∈ item_ids repeated_doc ->
             exists v, verdicts_for i rs = [v] /\ v ∈ rs /\ verdict_id v = i).
Proof.
  assert (@loads Reference.engine repo_repeated repeated_doc VNull) as Hl by run.
  split; [exact Hl|].
  apply (@one_verdict_per_id Reference.engine repo_repeated repeated_doc VNull Hl).
  by vm_compute.
Defined.

(** The repeated checklist: the heuristic first although its item comes
    second, then [custom_x] and [other] as they first occur. *)
Example repeated_report :
  option_map (fmap verdict_id)
    match @main Reference.engine repo_repeated with
    | Exit _ printed => printed
    | _ => None
    end
  = Some [js "test_exists"; js "custom_x"; js "other"].
Proof. by vm_compute. Qed.

Lemma report_order_witness :
  @loads Reference.engine repo_repeated repeated_doc VNull
  /\ asked_ids repeated_doc ++ fallback_ids repeated_doc
     = [js "test_exists"; js "custom_x"; js "other"]
  /\ exists code rs,
       @main Reference.engine repo_repeated = Exit code (Some rs)
       /\ verdict_id <$> rs = asked_ids repeated_doc ++ fallback_ids repeated_doc.
Proof.
  assert (@loads Reference.engine repo_repeated repeated_doc VNull) as Hl by run.
  split; [exact Hl|]. split; [by vm_compute|].
  apply (@report_order Reference.engine repo_repeated repeated_doc VNull Hl).
  by vm_compute.
Defined.

Lemma read_format_verdict_witness :
  @loads Reference.engine repo_prettier (one_item_doc "read_format") VNull
  /\ has_item (one_item_doc "read_format") (js "read_format") = true
  /\ format_config repo_prettier VNull = true
  /\ exists code rs v,
       @main Reference.engine repo_prettier = Exit code (Some rs)
       /\ verdicts_for (js "read_format") rs = [v]
       /\ (status v = Pass <-> format_config repo_prettier VNull = true)
       /\ (status v = NeedsAttention <-> format_config repo_prettier VNull = false)
       /\ status v <> Fail.
Proof.
  assert (@loads Reference.engine repo_prettier (one_item_doc "read_format") VNull)
    as Hl by run.
  split; [exact Hl|]. split; [by vm_compute|]. split; [by vm_compute|].
  apply (@read_format_verdict Reference.engine repo_prettier
           (one_item_doc "read_format") VNull Hl); by vm_compute.
Defined.

Lemma only_three_ids_fail_witness :
  @loads Reference.engine repo_prettier (one_item_doc "read_format") VNull
  /\ (exists code rs,
        @main Reference.engine repo_prettier = Exit code (Some rs)
        /\ (forall r, r ∈ rs -> status r = Fail -> verdict_id r ∈ failing_ids))
  /\ ((forall i, i ∈ failing_ids -> i ∉ item_ids (one_item_doc "read_format")) ->
      exists rs, @main Reference.engine repo_prettier = Exit 0 (Some rs)).
Proof.
  assert (@loads Reference.engine repo_prettier (one_item_doc "read_format") VNull)
    as Hl by run.
  split; [exact Hl|].
  destruct (@only_three_ids_fail Reference.engine repo_prettier
              (one_item_doc "read_format") VNull Hl) as [Hrun Hnone].
  split; [apply Hrun; by vm_compute|exact Hnone].
Defined.

Lemma unusable_package_aborts_witness :
  Reference.parse (js "{ scripts: ") = None
  /\ @main Reference.engine repo_bad_package = Uncaught SyntaxError.
Proof.
  split; [by vm_compute|].
  destruct (@unusable_package_aborts Reference.engine repo_bad_package
              (File (Some (one_item "custom_x")))
              (File (Some (js "{ scripts: ")))
              (parsed (one_item "custom_x")))
    as [Hbad _]; [by vm_compute ..|].
  apply (Hbad (js "{ scripts: ")); by vm_compute.
Defined.

Lemma effects_are_gated_witness :
  has_item (one_item_doc "read_format") (js "test_checks") = false
  /\ has_item (one_item_doc "read_format") (js "sec_secrets") = false
  /\ executed (audit repo_prettier (one_item_doc "read_format") lint_package) = []
  /\ opened (audit repo_prettier (one_item_doc "read_format") lint_package) = []
  /\ (forall cmd,
        cmd ∈ executed (audit repo_lint_fails (one_item_doc "test_checks") lint_package) ->
        cmd = lint_command \/ cmd = test_command).
Proof.
  split; [by vm_compute|]. split; [by vm_compute|].
  destruct (effects_are_gated repo_prettier (one_item_doc "read_format") lint_package)
    as (He & _ & _ & Ho).
  destruct (effects_are_gated repo_lint_fails (one_item_doc "test_checks") lint_package)
    as (_ & _ & Hc & _).
  split; [apply He; by vm_compute|]. split; [apply Ho; by vm_compute|exact Hc].
Defined.

(** In [repo_readme] the readme is skipped by its extension, the unreadable
    file is passed over, and the file after it is reported. *)
Example readme_run :
  @main Reference.engine repo_readme
  = Exit 1 (Some [ {| verdict_id := js "sec_secrets"; status := Fail;
                      reason := js "Potential secrets found in files: /work/repo/src/auth.js" |} ])
  /\ opened (audit repo_readme (one_item_doc "sec_secrets") VNull)
     = [js "/work/repo/.aicodechecklist.json"; js "/work/repo/locked.txt";
        js "/work/repo/src/auth.js"].
Proof. split; by vm_compute. Qed.

Lemma skipped_extensions_are_not_opened_witness :
  toLowerCase ([46] ++ js "MD") ∈ skipped_extensions
  /\ (js "/work/repo/README.MD"
        ∉ opened (audit repo_readme (one_item_doc "sec_secrets") VNull))
  /\ (js "/work/repo/README.MD" ∉ reported repo_readme).
Proof.
  assert (toLowerCase ([46] ++ js "MD") ∈ skipped_extensions) as Hs
    by (apply existsb_str_eqb; by vm_compute).
  split; [exact Hs|].
  apply (skipped_extensions_are_not_opened repo_readme (one_item_doc "sec_secrets")
           VNull (js "/work/repo/READM") 69 (js "MD")); try done.
Defined.

Lemma dotfiles_are_opened_witness :
  (js "/work/repo/.env", Some (js "DB_PASSWORD=hunter2")) ∈ files_of repo_env
  /\ js "/work/repo/.env" ∈ opened (audit repo_env (one_item_doc "sec_secrets") VNull)
  /\ @main Reference.engine repo_env
     = Exit 1 (Some [ {| verdict_id := js "sec_secrets"; status := Fail;
                         reason := js "Potential secrets found in files: /work/repo/.env" |} ]).
Proof.
  assert ((js "/work/repo/.env", Some (js "DB_PASSWORD=hunter2")) ∈ files_of repo_env)
    as Hin by (apply list_elem_of_In; vm_compute; tauto).
  split; [exact Hin|]. split; [|by vm_compute].
  apply (dotfiles_are_opened repo_env (one_item_doc "sec_secrets") VNull
           (js "/work/repo") (js "env") (Some (js "DB_PASSWORD=hunter2")));
    try done.
Defined.

Lemma scan_reports_witness :
  js "/work/repo/src/auth.js" ∈ reported repo_readme
  /\ snd (scan repo_readme) = None
  /\ snd (scan repo_dangling) = Some SystemError.
Proof.
  destruct (scan_reports repo_readme) as (Hthrough & _ & _ & Hrep).
  destruct (scan_reports repo_dangling) as (_ & Hstop & _ & _).
  split; [|split; [apply Hthrough; by vm_compute|apply Hstop; by vm_compute]].
  apply Hrep. exists (js "const TOKEN = 1;").
  split; [apply list_elem_of_In; vm_compute; tauto|]. split; by vm_compute.
Defined.

Lemma checklist_without_categories_witness :
  @main Reference.engine repo_empty_checklist = Uncaught TypeError.
Proof.
  rewrite (@checklist_without_categories Reference.engine repo_empty_checklist
             (File (Some (js "{}"))) (VObject [])); by vm_compute.
Defined.

(** In [repo_dangling] the linter has run and [a.js] has been opened when
    the walk meets the link; [b.js] is never reached, and nothing is
    printed. *)
Lemma unwalkable_tree_aborts_witness :
  @loads Reference.engine repo_dangling dangling_doc lint_only_package
  /\ @main Reference.engine repo_dangling = Uncaught SystemError
  /\ executed (audit repo_dangling dangling_doc lint_only_package) = [lint_command]
  /\ opened (audit repo_dangling dangling_doc lint_only_package)
     = [js "/work/repo/.aicodechecklist.json"; js "/work/repo/package.json";
        js "/work/repo/a.js"].
Proof.
  assert (@loads Reference.engine repo_dangling dangling_doc lint_only_package)
    as Hl by run.
  split; [exact Hl|].
  destruct (@unwalkable_tree_aborts Reference.engine repo_dangling dangling_doc
              lint_only_package Hl) as [_ Hstop].
  destruct Hstop as [Hmain Hexec]; [by vm_compute..|].
  split; [exact Hmain|]. split; [|by vm_compute].
  rewrite Hexec. by vm_compute.
Defined.

End AuditMore.

(* ===================================================================== *)
(** * More about the remote-judge path *)
(* ===================================================================== *)

Module ReviewMore.
Import Extension Command Props Runs More StringFacts ExtensionFacts.

(** ** White space and fences *)

Lemma trimEnd_app_blank (s w : jsstring) :
  forallb is_space w = true -> trimEnd (s ++ w) = trimEnd s.
Proof.
  intros Hw. unfold trimEnd. rewrite rev_app_distr, trimStart_app.
  by rewrite forallb_rev, Hw.
Qed.

Lemma trim_padded (pre s post : jsstring) :
  forallb is_space pre = true -> forallb is_space post = true ->
  trim (pre ++ s ++ post) = trim s.
Proof.
  intros Hpre Hpost. unfold trim. rewrite trimStart_app, Hpre, trimStart_app.
  destruct (forallb is_space s) eqn:Hs.
  - rewrite (trimStart_blank post Hpost), (trimStart_blank s Hs). done.
  - by apply trimEnd_app_blank.
Qed.

Lemma no_trail_app (x s : jsstring) :
  s <> [] -> no_trail s -> no_trail (x ++ s).
Proof.
  intros Hne Hs. induction x as [|c x IH]; [done|].
  unfold no_trail in *. cbn [app]. rewrite trimEnd_cons, IH.
  replace (forallb is_space (c :: x ++ s)) with false; [done|].
  symmetry. cbn [forallb]. rewrite forallb_app.
  destruct s as [|b s]; [done|]. rewrite (no_trail_nonblank b s Hs).
  by rewrite !andb_false_r.
Qed.

Lemma drop_closing_none (s : jsstring) :
  (forall pre, s <> pre ++ fence) -> drop_closing s = s.
Proof.
  induction s as [|c s IH]; intros Hs.
  - rewrite drop_closing_eq. case_bool_decide; done.
  - rewrite drop_closing_eq. case_bool_decide as Hm.
    + destruct (trimStart_split (c :: s)) as (w & Hw & _).
      rewrite Hm in Hw. by destruct (Hs w).
    + f_equal. apply IH. intros pre ->. by destruct (Hs (c :: pre)).
Qed.

Lemma startsWith_mismatch (t q rest : jsstring) (c : N) :
  startsWith t q = false -> c ∉ q -> startsWith (t ++ c :: rest) q = false.
Proof.
  revert t. induction q as [|a q IH]; intros t Ht Hc; [done|].
  apply not_elem_of_cons in Hc as [Hca Hc].
  destruct t as [|b t]; cbn [app startsWith] in *.
  - by rewrite (proj2 (N.eqb_neq a c)).
  - destruct (a =? b); [|done]. cbn [andb] in *. by apply IH.
Qed.

Lemma startsWith_common (a s q : jsstring) :
  startsWith (a ++ s) (a ++ q) = startsWith s q.
Proof. induction a as [|x a IH]; [done|]. cbn. by rewrite N.eqb_refl. Qed.

Lemma trimStart_nonspace (c : N) (s : jsstring) :
  is_space c = false -> trimStart (c :: s) = c :: s.
Proof. intros Hc. cbn. by rewrite Hc. Qed.

(** X10. White space around the completion plays no part: the text handed
    to [JSON.parse] is the same with and without it. *)
Theorem padding_is_ignored (pre c post : jsstring) :
  forallb is_space pre = true -> forallb is_space post = true ->
  stripFence (pre ++ c ++ post) = stripFence c.
Proof. intros Hpre Hpost. unfold stripFence. by rewrite trim_padded. Qed.

(** X11. The text handed to [JSON.parse] never begins or ends with white
    space, fenced or not. *)
Theorem stripped_text_is_trimmed (c : jsstring) :
  trimStart (stripFence c) = stripFence c /\ trimEnd (stripFence c) = stripFence c.
Proof.
  pose proof (stripFence_trimmed c) as Ht. split.
  - rewrite <- Ht at 2. rewrite <- Ht at 1. apply trim_no_lead.
  - rewrite <- Ht at 2. rewrite <- Ht at 1. apply trim_no_trail.
Qed.

(** X12. A closing fence is not needed: of a completion that opens a
    [json] fence (or a plain one followed by white space) and never closes
    it, the opening and the white space after it go and the rest is handed
    to [JSON.parse] as it is. *)
Theorem unclosed_fence (opening w body : jsstring) :
  opening = fence_json \/ (opening = fence /\ w <> []) ->
  forallb is_space w = true ->
  body <> [] -> trimStart body = body -> trimEnd body = body ->
  (forall pre, body <> pre ++ fence) ->
  stripFence (opening ++ w ++ body) = body.
Proof.
  intros Hop Hw Hne Hlead Htrail Hopen.
  assert (trim (opening ++ w ++ body) = opening ++ w ++ body) as Htrim.
  { apply trim_fixed.
    - by destruct Hop as [->|[-> _]].
    - rewrite app_assoc. by apply no_trail_app. }
  assert (drop_closing (drop_opening opening (opening ++ w ++ body)) = body) as Hbody.
  { unfold drop_opening. rewrite startsWith_app, drop_app_length.
    rewrite trimStart_app, Hw, Hlead. by apply drop_closing_none. }
  unfold stripFence. rewrite Htrim.
  destruct Hop as [->|[-> Hw']].
  - by rewrite startsWith_app.
  - replace (startsWith (fence ++ w ++ body) fence_json) with false.
    + by rewrite startsWith_app.
    + symmetry. change fence_json with (fence ++ js "json").
      rewrite startsWith_common. destruct w as [|x w]; [done|].
      cbn [forallb] in Hw. apply andb_prop in Hw as [Hx _].
      change (js "json") with (106 :: js "son"). cbn [app startsWith].
      rewrite (proj2 (N.eqb_neq 106 x)); [done|].
      intros <-. by vm_compute in Hx.
Qed.

(** X13. Only the opening [json] is known, and only as a prefix.  A fence
    opened with a tag that does not begin with [json] is taken for a plain
    fence, so the whole tag stays at the head of the text handed to
    [JSON.parse].  A tag that begins with [json] and goes on ([jsonc],
    [json5]) loses those four letters and keeps the rest. *)
Theorem other_tag_is_kept (tag inner : jsstring) :
  tag <> [] -> forallb (fun c => negb (is_space c)) tag = true ->
  (startsWith tag (js "json") = false ->
   stripFence (fenced (fence ++ tag) inner) = trimEnd (tag ++ [10] ++ inner))
  /\ (forall rest, tag = js "json" ++ rest -> rest <> [] ->
      stripFence (fenced (fence ++ tag) inner) = trimEnd (rest ++ [10] ++ inner)).
Proof.
  intros Hne Htag.
  assert (forall t : jsstring, t <> [] ->
            forallb (fun c => negb (is_space c)) t = true ->
            drop_closing (trimStart (t ++ [10] ++ inner ++ [10] ++ fence))
            = trimEnd (t ++ [10] ++ inner)) as Hrest.
  { intros [|c t] Ht Hc; [done|]. cbn [forallb] in Hc.
    apply andb_prop in Hc as [Hc%negb_true_iff _].
    replace (trimStart ((c :: t) ++ [10] ++ inner ++ [10] ++ fence))
      with (((c :: t) ++ [10] ++ inner) ++ [10] ++ fence).
    - by apply drop_closing_app.
    - rewrite <- !app_assoc. symmetry. by apply trimStart_nonspace. }
  split.
  - intros Hjson. unfold stripFence. rewrite fenced_trimmed by done.
    assert (fenced (fence ++ tag) inner
            = fence ++ tag ++ [10] ++ inner ++ [10] ++ fence) as ->
      by (unfold fenced; by rewrite <- app_assoc).
    replace (startsWith (fence ++ tag ++ [10] ++ inner ++ [10] ++ fence) fence_json)
      with false.
    + rewrite startsWith_app. unfold drop_opening.
      rewrite startsWith_app, drop_app_length. by apply Hrest.
    + symmetry. change fence_json with (fence ++ js "json").
      rewrite startsWith_common. apply startsWith_mismatch; [done|].
      by apply (bool_decide_unpack _).
  - intros rest -> Hr. unfold stripFence. rewrite fenced_trimmed by done.
    assert (fenced (fence ++ js "json" ++ rest) inner
            = fence_json ++ rest ++ [10] ++ inner ++ [10] ++ fence) as ->
      by (unfold fenced, fence_json, fence; by rewrite <- !app_assoc).
    rewrite startsWith_app. unfold drop_opening.
    rewrite startsWith_app, drop_app_length. apply Hrest; [done|].
    rewrite forallb_app in Htag. by apply andb_prop in Htag as [_ ?].
Qed.

(** ** Conversion to a string *)

Section Conversion.
Context `{Engine}.

Lemma to_text_cases (v : value) :
  if convertible v then exists t, to_text v = inr t
  else to_text v = inl TypeError.
Proof.
  revert v. fix IH 1. intros [| |b|n|t|es|ms]; cbn [convertible to_text];
    try (by eexists).
  - induction es as [|e r IHr]; [by eexists|].
    cbn [forallb].
    assert (if convertible e
            then exists t, match e with
                           | VUndefined | VNull => inr []
                           | _ => to_text e
                           end = inr t
            else match e with
                 | VUndefined | VNull => inr []
                 | _ => to_text e
                 end = inl TypeError) as He.
    { pose proof (IH e) as Hc. destruct e; try done; by eexists. }
    destruct (convertible e); cbn [andb].
    + destruct He as (t & ->). destruct (forallb convertible r).
      * destruct IHr as (ts & Hts).
        destruct ((fix texts (es : list value) : thrown + list jsstring := _) r)
          as [err|ts']; [done|]. by eexists.
      * by destruct ((fix texts (es : list value) : thrown + list jsstring := _) r).
    + by rewrite He.
  - destruct (has_key (js "toString") ms); [done|by eexists].
Qed.

Lemma to_text_eq (v : value) :
  to_text v = if convertible v then inr (as_text v) else inl TypeError.
Proof.
  pose proof (to_text_cases v) as Hc. unfold as_text.
  destruct (convertible v); [|done]. by destruct Hc as (t & ->).
Qed.

Lemma convertible_nullish (v : value) (s : jsstring) :
  convertible (nullish v (VString s)) = convertible v.
Proof. by destruct v. Qed.

Lemma result_line_eq (r : value) :
  result_line r = if printable r then inr (line_of r) else inl TypeError.
Proof.
  unfold printable, line_of.
  destruct r as [| |b|n|t|es|ms]; try done;
    unfold result_line; rewrite !to_text_eq, !convertible_nullish; cbn [forallb];
    repeat match goal with
           | |- context [convertible ?v] => destruct (convertible v)
           end; done.
Qed.

End Conversion.

Section Review.
Context `{Engine}.

(** ** The ways out of [runLLMReview] *)

(** X14. The call returns a value in one way only: the credential is set,
    the judge answers with a success status and a body that is JSON, the
    first choice of the body has a string for its message content, and that
    string, fences stripped, parses.  What is returned is the parsed value as
    it is, an array or not. *)
Theorem review_returns (env : Env) (code : jsstring) (checklist v : value) :
  snd (runLLMReview env code checklist) = inr v
  <-> exists apiKey response data c,
        OPENAI_API_KEY env = Some apiKey /\ apiKey <> []
        /\ fetch env (request apiKey code checklist) = Some response
        /\ ok response = true
        /\ json response = Some data
        /\ completion data = inr (VString c)
        /\ JSON_parse (stripFence c) = Some v.
Proof.
  unfold runLLMReview. split.
  - destruct (OPENAI_API_KEY env) as [[|k ks]|] eqn:Hkey; [done| |done].
    cbn [snd]. destruct (fetch env _) as [response|] eqn:Hfetch; [|done].
    destruct (ok response) eqn:Hok.
    + destruct (json response) as [data|] eqn:Hjson; [|done].
      destruct (completion data) as [e|content] eqn:Hc; [done|].
      cbn [bind]. unfold parseCompletion.
      destruct content as [| | | |c| |];
        try (by destruct (concat_value _ _)).
      destruct (JSON_parse (stripFence c)) as [parsed|] eqn:Hp; [|done].
      intros [= <-]. by exists (k :: ks), response, data, c.
    + by destruct (text response).
  - intros (apiKey & response & data & c & -> & Hne & Hf & Hok & Hj & Hc & Hp).
    destruct apiKey as [|k ks]; [done|].
    cbn [snd]. rewrite Hf, Hok, Hj, Hc. cbn. by rewrite Hp.
Qed.

(** X15. An answer with a failure status ends the call with an error that
    carries the status and the body text; the body is not parsed, and one
    request was sent. *)
Theorem transport_failure (env : Env) (code : jsstring) (checklist : value)
    (apiKey : jsstring) (response : Response) (t : jsstring) :
  OPENAI_API_KEY env = Some apiKey -> apiKey <> [] ->
  fetch env (request apiKey code checklist) = Some response ->
  ok response = false ->
  text response = Some t ->
  runLLMReview env code checklist
  = ([request apiKey code checklist],
     inl (Error (js "OpenAI API error: " ++ js (pretty (http_status response))
                 ++ js " " ++ t))).
Proof.
  intros Hkey Hne Hf Hok Ht. unfold runLLMReview. rewrite Hkey.
  destruct apiKey as [|k ks]; [done|]. by rewrite Hf, Hok, Ht.
Qed.

(** X16. A success answer whose body lacks the completion (no [choices], an
    empty [choices] array, or a first choice without a [message]) ends the
    call with the [TypeError] of the property read; the diagnostic of the
    parse step is not used for it. *)
Theorem envelope_without_completion (env : Env) (code : jsstring)
    (checklist : value) (apiKey : jsstring) (response : Response) (data : value) :
  OPENAI_API_KEY env = Some apiKey -> apiKey <> [] ->
  fetch env (request apiKey code checklist) = Some response ->
  ok response = true ->
  json response = Some data ->
  prop data (js "choices") = VUndefined
  \/ prop data (js "choices") = VArray []
  \/ (exists choice rest, prop data (js "choices") = VArray (choice :: rest)
                          /\ prop choice (js "message") = VUndefined) ->
  runLLMReview env code checklist = ([request apiKey code checklist], inl TypeError).
Proof.
  intros Hkey Hne Hf Hok Hj Hcases. unfold runLLMReview. rewrite Hkey.
  destruct apiKey as [|k ks]; [done|]. rewrite Hf, Hok, Hj.
  do 2 f_equal. unfold completion, member.
  destruct Hcases as [Hc|[Hc|(choice & rest & Hc & Hm)]].
  - destruct data; cbn [bind]; try done; by rewrite Hc.
  - destruct data; cbn [bind]; try done; by rewrite Hc.
  - destruct data; cbn [bind]; try done; rewrite Hc; cbn [bind first];
      destruct choice; cbn [bind]; try done; by rewrite Hm.
Qed.

(** X17. A completion that is not a string is reported with the diagnostic
    of the parse step, the value converted to a string after the fixed text
    ([null] gives [null], an object [[object Object]]).  When the value
    cannot be converted (an object with a member named [toString], or an
    array that holds one) the call ends instead with the [TypeError] of the
    concatenation inside the [catch]. *)
Theorem completion_not_a_string (env : Env) (code : jsstring) (checklist : value)
    (apiKey : jsstring) (response : Response) (data content : value) :
  OPENAI_API_KEY env = Some apiKey -> apiKey <> [] ->
  fetch env (request apiKey code checklist) = Some response ->
  ok response = true ->
  json response = Some data ->
  completion data = inr content ->
  (forall c, content <> VString c) ->
  runLLMReview env code checklist
  = ([request apiKey code checklist],
     if convertible content
     then inl (Error (js "Failed to parse LLM JSON: " ++ as_text content))
     else inl TypeError).
Proof.
  intros Hkey Hne Hf Hok Hj Hc Hns. unfold runLLMReview. rewrite Hkey.
  destruct apiKey as [|k ks]; [done|]. rewrite Hf, Hok, Hj, Hc.
  cbn [bind]. f_equal.
  assert (parseCompletion content
          = match concat_value (js "Failed to parse LLM JSON: ") content with
            | inl e => inl e
            | inr message => inl (Error message)
            end) as ->.
  { unfold parseCompletion. destruct content; try done. by destruct (Hns s). }
  unfold concat_value. rewrite to_text_eq. by destruct (convertible content).
Qed.

End Review.

Lemma review_returns_witness :
  snd (@runLLMReview Reference.engine (judge (js "  7 ") (Some (js "sk-test")))
         (js "let x = 1;") VNull)
  = inr (VNumber (Number 7 0)).
Proof.
  apply (@review_returns Reference.engine).
  eexists (js "sk-test"), _, _, (js "  7 "). repeat split; by vm_compute.
Defined.

Lemma transport_failure_witness :
  @runLLMReview Reference.engine (judge_raw unauthorized (Some (js "sk-bad")))
    (js "let x = 1;") VNull
  = ([@request Reference.engine (js "sk-bad") (js "let x = 1;") VNull],
     inl (Error (jq "OpenAI API error: 401 {'error':'invalid key'}"))).
Proof.
  rewrite (@transport_failure Reference.engine
             (judge_raw unauthorized (Some (js "sk-bad"))) (js "let x = 1;") VNull
             (js "sk-bad") unauthorized (jq "{'error':'invalid key'}"));
    by vm_compute.
Defined.

Lemma envelope_without_completion_witness :
  @runLLMReview Reference.engine (judge_raw no_choices (Some (js "sk-test")))
    (js "let x = 1;") VNull
  = ([@request Reference.engine (js "sk-test") (js "let x = 1;") VNull],
     inl TypeError).
Proof.
  apply (@envelope_without_completion Reference.engine
           (judge_raw no_choices (Some (js "sk-test"))) (js "let x = 1;") VNull
           (js "sk-test") no_choices
           (VObject [ (js "choices", VArray []) ])); try (by vm_compute).
  right. left. by vm_compute.
Defined.

Lemma completion_not_a_string_witness :
  @runLLMReview Reference.engine (judge_raw null_content (Some (js "sk-test")))
    (js "let x = 1;") VNull
  = ([@request Reference.engine (js "sk-test") (js "let x = 1;") VNull],
     inl (Error (js "Failed to parse LLM JSON: null"))).
Proof.
  rewrite (@completion_not_a_string Reference.engine
             (judge_raw null_content (Some (js "sk-test"))) (js "let x = 1;") VNull
             (js "sk-test") null_content
             (VObject [ (js "choices",
                VArray [ VObject [ (js "message",
                  VObject [ (js "content", VNull) ]) ] ]) ]) VNull);
    by vm_compute.
Defined.

(** A completion that hides the inherited [toString]: the call ends with a
    [TypeError], not with the diagnostic. *)
Example poisoned_completion :
  snd (@runLLMReview Reference.engine (judge_raw poisoned_content (Some (js "sk-test")))
         (js "let x = 1;") VNull)
  = inl TypeError.
Proof. by vm_compute. Qed.

Lemma padding_is_ignored_witness :
  stripFence (js "  " ++ fenced_verdicts ++ [10; 10]) = stripFence fenced_verdicts.
Proof. by apply padding_is_ignored. Defined.

Lemma unclosed_fence_witness :
  stripFence (fence_json ++ [10] ++ js "[1, 2]") = js "[1, 2]".
Proof.
  apply unclosed_fence; try done; [by left|].
  intros pre Heq. apply (f_equal (@rev N)) in Heq.
  rewrite rev_app_distr in Heq. by vm_compute in Heq.
Defined.

Lemma other_tag_is_kept_witness :
  stripFence (fenced (fence ++ js "js") (js "[1]")) = js "js" ++ [10] ++ js "[1]"
  /\ Reference.parse (stripFence (fenced (fence ++ js "js") (js "[1]"))) = None
  /\ stripFence (fenced (fence ++ js "jsonc") (js "[1]")) = js "c" ++ [10] ++ js "[1]".
Proof.
  destruct (other_tag_is_kept (js "js") (js "[1]")) as [Hjs _];
    [by vm_compute..|].
  destruct (other_tag_is_kept (js "jsonc") (js "[1]")) as [_ Hjsonc];
    [by vm_compute..|].
  split; [|split; [by vm_compute|]].
  - rewrite Hjs; by vm_compute.
  - rewrite (Hjsonc (js "c")); by vm_compute.
Defined.

End ReviewMore.

(* ===================================================================== *)
(** * The review command *)
(* ===================================================================== *)

Module CommandFacts.
Import Extension Command Props Runs More StringFacts ExtensionFacts ReviewMore.

Section Handler.
Context `{Engine}.
Variable describe : thrown -> jsstring.

Lemma loadChecklist_truthy (e : Env) :
  truthy (loadChecklist e) = true <-> usable_checklist e.
Proof.
  unfold loadChecklist, usable_checklist. split.
  - destruct (workspaceFolders e) as [[|folder rest]|]; try done.
    destruct (entry _ (files folder)) as [[[content|]| | |]|] eqn:He; try done.
    destruct (JSON_parse content) as [v|] eqn:Hp; [|done].
    intros Hv. by exists folder, rest, content, v.
  - intros (folder & rest & content & v & -> & -> & -> & Hv). done.
Qed.

Lemma render_lines (rs : list value) :
  forallb (fun e => negb (is_popup e)) (fst (render rs)) = true.
Proof.
  induction rs as [|r rs IH]; [done|]. cbn [render].
  destruct (result_line r); [done|]. by destruct (render rs).
Qed.

Lemma render_all (rs : list value) :
  forallb printable rs = true ->
  render rs = (AppendLine <$> (line_of <$> rs), None).
Proof.
  induction rs as [|r rs IH]; [done|]. cbn [forallb].
  intros [Hr Hrs]%andb_prop. cbn [render]. by rewrite result_line_eq, Hr, (IH Hrs).
Qed.

Lemma render_stops (good : list value) (bad : value) (rest : list value) :
  forallb printable good = true ->
  printable bad = false ->
  render (good ++ bad :: rest) = (AppendLine <$> (line_of <$> good), Some TypeError).
Proof.
  intros Hgood Hbad. induction good as [|r good IH].
  - cbn [app render]. by rewrite result_line_eq, Hbad.
  - cbn [forallb] in Hgood. apply andb_prop in Hgood as [Hr Hgood].
    cbn [app render]. by rewrite result_line_eq, Hr, (IH Hgood).
Qed.

(** X18. With an editor open but no usable checklist (no workspace folder,
    no file, a file that cannot be read or is not JSON, or one that holds a
    falsy value such as [null] or [false]) the command shows the one error
    "not found", opens no output channel and sends no request. *)
Theorem unusable_checklist_stops (h : Host) (editor : Editor) :
  activeTextEditor h = Some editor ->
  ~ usable_checklist (env h) ->
  runChecklist describe h = ([not_found], []).
Proof.
  intros He Hno. unfold runChecklist. rewrite He.
  destruct (truthy (loadChecklist (env h))) eqn:Ht; [|done].
  by apply loadChecklist_truthy in Ht.
Qed.

(** X19. Whatever happens, the command ends with exactly one pop-up, its
    last action, and sends at most one request; it sends one only with an
    editor open, a usable checklist and a credential that is set. *)
Theorem one_popup_one_request (h : Host) :
  exists evs popup,
    fst (runChecklist describe h) = evs ++ [popup]
    /\ is_popup popup = true
    /\ forallb (fun e => negb (is_popup e)) evs = true
    /\ (length (snd (runChecklist describe h)) <= 1)%nat
    /\ (snd (runChecklist describe h) <> [] ->
        activeTextEditor h <> None /\ usable_checklist (env h)
        /\ exists apiKey, OPENAI_API_KEY (env h) = Some apiKey /\ apiKey <> []).
Proof.
  unfold runChecklist.
  destruct (activeTextEditor h) as [editor|]; [|eexists [], _; cbn [fst snd length app negb]; split_and!; [done..|lia|done]].
  destruct (truthy (loadChecklist (env h))) eqn:Ht; [|eexists [], _; cbn [fst snd length app negb]; split_and!; [done..|lia|done]].
  apply loadChecklist_truthy in Ht. cbn [negb].
  assert (forall e, exists evs popup,
            failure describe e = evs ++ [popup] /\ is_popup popup = true
            /\ forallb (fun e => negb (is_popup e)) evs = true) as Hfail.
  { intros e. by eexists [_], _. }
  assert (exists evs popup,
            fst (let '(sent, outcome) :=
                   runLLMReview (env h) (getText editor) (loadChecklist (env h)) in
                 (heading editor (loadChecklist (env h)) ++
                  match outcome with
                  | inl e => failure describe e
                  | inr results =>
                      results_heading ++
                      match iterate results with
                      | inl e => failure describe e
                      | inr rs =>
                          let '(lines, stopped) := render rs in
                          lines ++
                          match stopped with
                          | None => [ShowInformationMessage
                                       (js "AI checklist review completed.")]
                          | Some e => failure describe e
                          end
                      end
                  end, sent)) = evs ++ [popup]
            /\ is_popup popup = true
            /\ forallb (fun e => negb (is_popup e)) evs = true) as (evs & popup & He & Hp & Hevs).
  { destruct (runLLMReview _ _ _) as [sent [e|results]]; cbn [fst].
    - destruct (Hfail e) as (evs & popup & -> & Hp & Hevs).
      exists (heading editor (loadChecklist (env h)) ++ evs), popup.
      rewrite <- app_assoc, forallb_app, Hevs. done.
    - destruct (iterate results) as [e|rs].
      + destruct (Hfail e) as (evs & popup & -> & Hp & Hevs).
        exists (heading editor (loadChecklist (env h)) ++ results_heading ++ evs), popup.
        rewrite <- !app_assoc, !forallb_app, Hevs. done.
      + pose proof (render_lines rs) as Hl.
        destruct (render rs) as [lines [e|]]; cbn [fst] in Hl.
        * destruct (Hfail e) as (evs & popup & -> & Hp & Hevs).
          exists (heading editor (loadChecklist (env h)) ++ results_heading
                  ++ lines ++ evs), popup.
          rewrite <- !app_assoc, !forallb_app, Hl, Hevs. done.
        * eexists (heading editor (loadChecklist (env h)) ++ results_heading ++ lines), _.
          rewrite <- !app_assoc, !forallb_app, Hl. done. }
  exists evs, popup. split; [done|]. split; [done|]. split; [done|].
  unfold runLLMReview.
  destruct (OPENAI_API_KEY (env h)) as [[|k ks]|] eqn:Hkey; cbn [snd length].
  - split; [lia|done].
  - split; [lia|]. intros _. split; [done|]. split; [done|]. by exists (k :: ks).
  - split; [lia|done].
Qed.

(** X20. When the judge's answer is an array of printable elements (none
    of them [null], none with one of the five shown members an object that
    hides the inherited [toString]), the transcript gets one line for each
    element, in order, after the two heading lines, and the command ends
    with the pop-up of completion.  No element is checked against the
    checklist. *)
Theorem one_line_per_verdict (h : Host) (editor : Editor) (rs : list value) :
  activeTextEditor h = Some editor ->
  usable_checklist (env h) ->
  snd (runLLMReview (env h) (getText editor) (loadChecklist (env h)))
    = inr (VArray rs) ->
  forallb printable rs = true ->
  fst (runChecklist describe h)
  = heading editor (loadChecklist (env h)) ++ results_heading
    ++ (AppendLine <$> (line_of <$> rs)) ++ [completed].
Proof.
  intros He Hu Hrun Hrs. unfold runChecklist. rewrite He.
  apply loadChecklist_truthy in Hu. rewrite Hu. cbn [negb].
  destruct (runLLMReview _ _ _) as [sent outcome]. cbn [snd] in Hrun. subst outcome.
  cbn [fst iterate]. by rewrite render_all.
Qed.

(** X21. The first element that is not printable ([null], or one whose
    status, category, priority, id or reason cannot be converted to a
    string) stops the transcript there: the lines of the elements before it
    stay, the elements after it are not shown, and the command ends with the
    error line and the error pop-up. *)
Theorem null_verdict_stops (h : Host) (editor : Editor)
    (good : list value) (bad : value) (rest : list value) :
  activeTextEditor h = Some editor ->
  usable_checklist (env h) ->
  snd (runLLMReview (env h) (getText editor) (loadChecklist (env h)))
    = inr (VArray (good ++ bad :: rest)) ->
  forallb printable good = true ->
  printable bad = false ->
  fst (runChecklist describe h)
  = heading editor (loadChecklist (env h)) ++ results_heading
    ++ (AppendLine <$> (line_of <$> good)) ++ failure describe TypeError.
Proof.
  intros He Hu Hrun Hgood Hbad. unfold runChecklist. rewrite He.
  apply loadChecklist_truthy in Hu. rewrite Hu. cbn [negb].
  destruct (runLLMReview _ _ _) as [sent outcome]. cbn [snd] in Hrun. subst outcome.
  cbn [fst iterate]. by rewrite render_stops.
Qed.

(** X22. A request the command sends is the one built from the credential
    of the environment, the whole text of the open document (not the
    preview of 200 characters shown in the transcript) and the checklist as
    loaded; it goes by POST to the completions endpoint, the credential in
    the Authorization header. *)
Theorem request_carries_document (h : Host) (req : Request) :
  req ∈ snd (runChecklist describe h) ->
  exists editor apiKey,
    activeTextEditor h = Some editor
    /\ OPENAI_API_KEY (env h) = Some apiKey
    /\ req = request apiKey (getText editor) (loadChecklist (env h))
    /\ url req = js "https://api.openai.com/v1/chat/completions"
    /\ method req = js "POST"
    /\ (js "Authorization", js "Bearer " ++ apiKey) ∈ headers req.
Proof.
  unfold runChecklist.
  destruct (activeTextEditor h) as [editor|]; [|by intros ?%elem_of_nil].
  destruct (truthy (loadChecklist (env h))); [|by intros ?%elem_of_nil].
  cbn [negb]. unfold runLLMReview.
  destruct (OPENAI_API_KEY (env h)) as [[|k ks]|] eqn:Hkey; cbn [snd];
    [by intros ?%elem_of_nil| |by intros ?%elem_of_nil].
  intros ->%list_elem_of_singleton. exists editor, (k :: ks).
  split_and!; try done. cbn [request headers]. apply list_elem_of_further, list_elem_of_here.
Qed.

End Handler.

Lemma request_carries_document_witness :
  exists editor apiKey,
    activeTextEditor (host (workspace_judge two_verdicts (Some (js "sk-test"))))
      = Some editor
    /\ OPENAI_API_KEY (env (host (workspace_judge two_verdicts (Some (js "sk-test")))))
      = Some apiKey
    /\ @request Reference.engine (js "sk-test") (js "let x = 1;")
         (parsed (one_item "custom_x"))
       = @request Reference.engine apiKey (getText editor)
           (@loadChecklist Reference.engine
              (env (host (workspace_judge two_verdicts (Some (js "sk-test"))))))
    /\ url (@request Reference.engine (js "sk-test") (js "let x = 1;")
              (parsed (one_item "custom_x")))
       = js "https://api.openai.com/v1/chat/completions"
    /\ method (@request Reference.engine (js "sk-test") (js "let x = 1;")
                 (parsed (one_item "custom_x")))
       = js "POST"
    /\ (js "Authorization", js "Bearer " ++ apiKey)
       ∈ headers (@request Reference.engine (js "sk-test") (js "let x = 1;")
                    (parsed (one_item "custom_x"))).
Proof.
  apply (@request_carries_document Reference.engine describe_plainly
           (host (workspace_judge two_verdicts (Some (js "sk-test"))))).
  vm_compute. constructor.
Defined.

Lemma unusable_checklist_stops_witness :
  @runChecklist Reference.engine describe_plainly (host workspace_false)
  = ([not_found], []).
Proof.
  apply (@unusable_checklist_stops Reference.engine describe_plainly
           (host workspace_false) an_editor); [reflexivity|].
  intros Hu%loadChecklist_truthy. by vm_compute in Hu.
Defined.

Lemma one_line_per_verdict_witness :
  fst (@runChecklist Reference.engine describe_plainly
         (host (workspace_judge two_verdicts (Some (js "sk-test")))))
  = @heading Reference.engine an_editor (parsed (one_item "custom_x"))
    ++ results_heading
    ++ [ AppendLine (js "- [Pass] (Tests / High) a: ok");
         AppendLine (js "- [Fail] (Unknown / -) b: no") ]
    ++ [completed].
Proof.
  rewrite (@one_line_per_verdict Reference.engine describe_plainly
             (host (workspace_judge two_verdicts (Some (js "sk-test")))) an_editor
             (elements (parsed two_verdicts)));
    [by vm_compute|reflexivity| |by vm_compute..].
  apply loadChecklist_truthy. by vm_compute.
Defined.

Lemma null_verdict_stops_witness :
  fst (@runChecklist Reference.engine describe_plainly
         (host (workspace_judge null_verdict (Some (js "sk-test")))))
  = @heading Reference.engine an_editor (parsed (one_item "custom_x"))
    ++ results_heading
    ++ [ AppendLine (js "- [Pass] (Unknown / -) a: ok");
         AppendLine (js "LLM error: TypeError: not an object");
         ShowErrorMessage (js "Failed to run LLM review. See output for details.") ].
Proof.
  rewrite (@null_verdict_stops Reference.engine describe_plainly
             (host (workspace_judge null_verdict (Some (js "sk-test")))) an_editor
             (take 1 (elements (parsed null_verdict))) VNull
             (drop 2 (elements (parsed null_verdict))));
    [by vm_compute|reflexivity| |by vm_compute..].
  apply loadChecklist_truthy. by vm_compute.
Defined.

(** The same with a status that cannot be converted in place of the
    [null]. *)
Example poisoned_verdict_stops :
  fst (@runChecklist Reference.engine describe_plainly
         (host (workspace_judge poisoned_verdict (Some (js "sk-test")))))
  = @heading Reference.engine an_editor (parsed (one_item "custom_x"))
    ++ results_heading
    ++ [ AppendLine (js "- [Pass] (Unknown / -) a: ok");
         AppendLine (js "LLM error: TypeError: not an object");
         ShowErrorMessage (js "Failed to run LLM review. See output for details.") ].
Proof. by vm_compute. Qed.

End CommandFacts.
